(** * Mountaineer / filzl: client builder, engine cache and dependency metaclass

    A shallow embedding of
      - [src/filzl/client_interface/builder.py]          (module [Builder]),
      - [src/mountaineer/database/dependencies/core.py]   (modules [Db], [DbUse]),
      - [src/mountaineer/dependencies/base.py]            (module [Deps]),
      - [src/create_filzl_app/create_filzl_app/generation.py] (module [Scaffold]),
    together with the library routines the builder calls: [inflection] on
    class and model names (module [Inflection]), [hashlib.md5] for file names
    (module [Md5]) and [pathlib] for paths (in [Builder]). The collaborators
    of the builder that live in other modules of the package are the fields
    of the class [Builder.Collaborators]. Module [Client] has the
    expressions of the emitted hook as syntax, with the text they are
    printed as and their evaluation; [JsBundler] holds the two text helpers
    of the bundler module as the specification describes them.

    Python [str] values are represented by their UTF-8 bytes ([string]);
    dictionaries whose iteration order is observable are association lists in
    insertion order; the process-wide engine cache and the disk are [gmap]s. *)

From Stdlib Require Import ZArith Lia Bool.
From Stdlib Require Import Strings.String Strings.Ascii.
From stdpp Require Import gmap strings list sorting.

Local Open Scope string_scope.
Local Open Scope list_scope.

(** ** Python string helpers *)

Module Py.

(** The line feed, written ["\n"] in the Python sources. *)
Definition nl : string := String (ascii_of_nat 10) EmptyString.

(** [sep.join(parts)] *)
Fixpoint join (sep : string) (parts : list string) : string :=
  match parts with
  | [] => ""
  | [p] => p
  | p :: rest => p +:+ sep +:+ join sep rest
  end.

(** [needle in haystack] for strings. *)
Fixpoint contains (needle haystack : string) : bool :=
  String.prefix needle haystack
  || match haystack with
     | EmptyString => false
     | String _ rest => contains needle rest
     end.

(** Exceptions are values: the class and the [args] tuple. *)
Inductive ExnClass :=
| TypeError | ValueError | RuntimeError | KeyError
| FileNotFoundError | FileExistsError | NotADirectoryError | IsADirectoryError
| ExternalError.

Record Exn := Raise { exn_class : ExnClass; exn_args : list string }.

#[global] Instance ExnClass_eq_dec : EqDecision ExnClass.
Proof. solve_decision. Defined.
#[global] Instance Exn_eq_dec : EqDecision Exn.
Proof. solve_decision. Defined.

End Py.

(** ** [mountaineer/dependencies/base.py] *)

Module Deps.
Import Py.

(** What [isinstance(attr_value, staticmethod)] can tell apart in a class
    namespace; the payload is the wrapped object's name. *)
Inductive AttrValue :=
| StaticMethod (fn : string)
| ClassMethod (fn : string)
| PlainFunction (fn : string)
| Data (repr : string).

Definition is_staticmethod (v : AttrValue) : bool :=
  match v with StaticMethod _ => true | _ => false end.

(** A class namespace: a dict, iterated in insertion order. *)
Definition Namespace := list (string * AttrValue).

(** The class object built by [type.__new__]. *)
Record PyClass := MkClass {
  cls_name : string;
  cls_bases : list string;
  cls_namespace : Namespace
}.

Inductive Warning := DeprecationWarning (msg : string).

Definition deprecation_message : string :=
  "DependenciesBase is deprecated and will be removed in a future version." +:+ nl
  +:+ "Import modules to form dependencies. See mountaineer.dependencies.core for an example.".

Definition static_method_message (name attr_name : string) : string :=
  "Static methods are not allowed in dependency wrapper '" +:+ name
  +:+ "'. Found static method: '" +:+ attr_name +:+ "'.".

(** The [for attr_name, attr_value in namespace.items()] loop: the first
    static method met raises; [None] when the loop runs to its end. *)
Fixpoint first_staticmethod (namespace : Namespace) : option string :=
  match namespace with
  | [] => None
  | (attr_name, attr_value) :: rest =>
      if is_staticmethod attr_value then Some attr_name
      else first_staticmethod rest
  end.

(** [DependenciesBaseMeta.__new__]: the warnings emitted, then either the
    exception raised or the class returned by [super().__new__]. *)
Definition meta_new (name : string) (bases : list string) (namespace : Namespace)
  : list Warning * (Exn + PyClass) :=
  let warned :=
    if decide (name = "DependenciesBase") then []
    else [DeprecationWarning deprecation_message] in
  match first_staticmethod namespace with
  | Some attr_name =>
      (warned, inl (Raise TypeError [static_method_message name attr_name]))
  | None => (warned, inr (MkClass name bases namespace))
  end.

End Deps.

(** ** [mountaineer/database/dependencies/core.py] *)

Module Db.
Import Py.

(** [mountaineer.database.config.PoolType]; only [NULL] is named here. *)
Inductive PoolType := NULL | FIXED_PROCESS.
Inductive PoolClass := NullPool | AsyncAdaptedQueuePool.

#[global] Instance PoolType_eq_dec : EqDecision PoolType.
Proof. solve_decision. Defined.

(** The two settings read here; the URI is kept as [str(uri)]. *)
Record DatabaseConfig := MkConfig {
  SQLALCHEMY_DATABASE_URI : option string;
  DATABASE_POOL_TYPE : PoolType
}.

(** An engine object; [engine_id] is its identity. *)
Record AsyncEngine := MkEngine {
  engine_id : nat;
  engine_url : string;
  engine_poolclass : PoolClass
}.

#[global] Instance PoolClass_eq_dec : EqDecision PoolClass.
Proof. solve_decision. Defined.
#[global] Instance AsyncEngine_eq_dec : EqDecision AsyncEngine.
Proof. solve_decision. Defined.

(** Process state: the module-level dict, the allocator of engine objects
    and the engines on which [dispose()] has run. *)
Record Process := MkProcess {
  GLOBAL_ENGINE : gmap string AsyncEngine;
  next_engine : nat;
  disposed : gset nat
}.

Definition start : Process := MkProcess ∅ 0 ∅.

(** Python truthiness of the setting: [None] and the empty text are falsy. *)
Definition uri_set (cfg : DatabaseConfig) : option string :=
  match SQLALCHEMY_DATABASE_URI cfg with
  | None => None
  | Some u => if decide (u = "") then None else Some u
  end.

Definition config_repr (cfg : DatabaseConfig) : string :=
  "SQLALCHEMY_DATABASE_URI=" +:+ default "None" (SQLALCHEMY_DATABASE_URI cfg).

Definition create_async_engine (uri : string) (poolclass : PoolClass) (p : Process)
  : AsyncEngine :=
  MkEngine (next_engine p) uri poolclass.

Definition engine_from_config (cfg : DatabaseConfig) (force_new : bool) (p : Process)
  : (Exn + AsyncEngine) * Process :=
  match uri_set cfg with
  | None =>
      (inl (Raise RuntimeError ["No SQLALCHEMY_DATABASE_URI set: " +:+ config_repr cfg]), p)
  | Some uri =>
      let p' :=
        if force_new || negb (bool_decide (is_Some (GLOBAL_ENGINE p !! uri))) then
          let engine :=
            create_async_engine uri
              (if decide (DATABASE_POOL_TYPE cfg = NULL) then NullPool
               else AsyncAdaptedQueuePool) p in
          MkProcess (<[uri := engine]> (GLOBAL_ENGINE p)) (S (next_engine p)) (disposed p)
        else p in
      match GLOBAL_ENGINE p' !! uri with
      | Some engine => (inr engine, p')
      | None => (inl (Raise KeyError [uri]), p')
      end
  end.

(** [unregister_global_engine] when it runs to its end undisturbed: every
    value of the dict is disposed, then the global is rebound to an empty
    dict. This is the effect of a call during which no [dispose()] raises
    and no other task touches the cache while the coroutine is suspended;
    [DbUse.event_step] has the call turn by turn. *)
Definition unregister_global_engine (p : Process) : Process :=
  let engines := (map_to_list (GLOBAL_ENGINE p)).*2 in
  MkProcess ∅ (next_engine p)
    (foldl (λ done engine, {[engine_id engine]} ∪ done) (disposed p) engines).

(** A later request of the process: a lookup or the shutdown hook. *)
Inductive Request :=
| Lookup (cfg : DatabaseConfig) (force_new : bool)
| Shutdown.

Definition serve (r : Request) (p : Process) : Process :=
  match r with
  | Lookup cfg force_new => (engine_from_config cfg force_new p).2
  | Shutdown => unregister_global_engine p
  end.

Definition serve_all (rs : list Request) (p : Process) : Process :=
  foldl (λ p r, serve r p) p rs.

(** Requests that keep the entry for [uri]: lookups that do not force a new
    engine for that very URI. *)
Definition keeps (uri : string) (r : Request) : Prop :=
  match r with
  | Lookup cfg force_new => force_new = true → uri_set cfg ≠ Some uri
  | Shutdown => False
  end.

End Db.


(** ** The [inflection] routines applied to class and model names

    [underscore] and [camelize] of the [inflection] package and [str.upper],
    on ASCII identifiers (bytes above 127 are left as they are). The two
    regular-expression substitutions of [underscore] insert ["_"] at places
    that depend only on the neighbouring characters, which is how they are
    written here. *)

Module Inflection.

Definition code (c : ascii) : nat := nat_of_ascii c.

Definition is_upper (c : ascii) : bool := (65 <=? code c)%nat && (code c <=? 90)%nat.
Definition is_lower (c : ascii) : bool := (97 <=? code c)%nat && (code c <=? 122)%nat.
Definition is_digit (c : ascii) : bool := (48 <=? code c)%nat && (code c <=? 57)%nat.

Definition upper_char (c : ascii) : ascii :=
  if is_lower c then ascii_of_nat (code c - 32) else c.
Definition lower_char (c : ascii) : ascii :=
  if is_upper c then ascii_of_nat (code c + 32) else c.

Fixpoint map_chars (f : ascii → ascii) (s : string) : string :=
  match s with
  | EmptyString => EmptyString
  | String c rest => String (f c) (map_chars f rest)
  end.

(** [s.upper()] and [s.lower()] *)
Definition upper : string → string := map_chars upper_char.
Definition lower : string → string := map_chars lower_char.

(** [re.sub(r"([A-Z]+)([A-Z][a-z])", r"\1_\2", word)]: an underscore goes
    before a capital that follows a capital and precedes a small letter. *)
Fixpoint split_acronyms (prev_upper : bool) (s : string) : string :=
  match s with
  | EmptyString => EmptyString
  | String c rest =>
      let next_lower := match rest with String d _ => is_lower d | EmptyString => false end in
      if prev_upper && is_upper c && next_lower
      then String "_" (String c (split_acronyms (is_upper c) rest))
      else String c (split_acronyms (is_upper c) rest)
  end.

(** [re.sub(r"([a-z\d])([A-Z])", r"\1_\2", word)]: an underscore goes
    between a small letter or digit and a capital. *)
Fixpoint split_words (prev_small : bool) (s : string) : string :=
  match s with
  | EmptyString => EmptyString
  | String c rest =>
      let small := is_lower c || is_digit c in
      if prev_small && is_upper c
      then String "_" (String c (split_words small rest))
      else String c (split_words small rest)
  end.

Definition dash_to_underscore (c : ascii) : ascii :=
  if Ascii.eqb c "-" then "_"%char else c.

(** [inflection.underscore(word)] *)
Definition underscore (word : string) : string :=
  lower (map_chars dash_to_underscore (split_words false (split_acronyms false word))).

Definition is_newline (c : ascii) : bool := Ascii.eqb c (ascii_of_nat 10).

(** The matches of [(?:^|_)(.)] after the first character: an underscore
    and the character after it are replaced by that character in capitals. *)
Fixpoint camelize_tail (s : string) : string :=
  match s with
  | EmptyString => EmptyString
  | String c rest =>
      match rest with
      | String d rest' =>
          if Ascii.eqb c "_" && negb (is_newline d)
          then String (upper_char d) (camelize_tail rest')
          else String c (camelize_tail rest)
      | EmptyString => String c EmptyString
      end
  end.

(** [inflection.camelize(string)] with [uppercase_first_letter=True] *)
Definition camelize (s : string) : string :=
  match s with
  | EmptyString => EmptyString
  | String c rest =>
      if is_newline c then camelize_tail s
      else String (upper_char c) (camelize_tail rest)
  end.

End Inflection.

(** ** [hashlib.md5]

    RFC 1321 on the bytes of the text; words are [Z] below [2^32]. *)

Module Md5.

Local Open Scope Z_scope.

Definition mask32 : Z := 0xffffffff.
Definition add32 (a b : Z) : Z := Z.land (a + b) mask32.
Definition not32 (a : Z) : Z := Z.lxor a mask32.
Definition rotl32 (x c : Z) : Z :=
  Z.land (Z.lor (Z.shiftl x c) (Z.shiftr x (32 - c))) mask32.

Definition sines : list Z :=
  [ 0xd76aa478; 0xe8c7b756; 0x242070db; 0xc1bdceee;
    0xf57c0faf; 0x4787c62a; 0xa8304613; 0xfd469501;
    0x698098d8; 0x8b44f7af; 0xffff5bb1; 0x895cd7be;
    0x6b901122; 0xfd987193; 0xa679438e; 0x49b40821;
    0xf61e2562; 0xc040b340; 0x265e5a51; 0xe9b6c7aa;
    0xd62f105d; 0x02441453; 0xd8a1e681; 0xe7d3fbc8;
    0x21e1cde6; 0xc33707d6; 0xf4d50d87; 0x455a14ed;
    0xa9e3e905; 0xfcefa3f8; 0x676f02d9; 0x8d2a4c8a;
    0xfffa3942; 0x8771f681; 0x6d9d6122; 0xfde5380c;
    0xa4beea44; 0x4bdecfa9; 0xf6bb4b60; 0xbebfbc70;
    0x289b7ec6; 0xeaa127fa; 0xd4ef3085; 0x04881d05;
    0xd9d4d039; 0xe6db99e5; 0x1fa27cf8; 0xc4ac5665;
    0xf4292244; 0x432aff97; 0xab9423a7; 0xfc93a039;
    0x655b59c3; 0x8f0ccc92; 0xffeff47d; 0x85845dd1;
    0x6fa87e4f; 0xfe2ce6e0; 0xa3014314; 0x4e0811a1;
    0xf7537e82; 0xbd3af235; 0x2ad7d2bb; 0xeb86d391 ].

Definition shifts : list Z :=
  [ 7; 12; 17; 22; 7; 12; 17; 22; 7; 12; 17; 22; 7; 12; 17; 22;
    5; 9; 14; 20; 5; 9; 14; 20; 5; 9; 14; 20; 5; 9; 14; 20;
    4; 11; 16; 23; 4; 11; 16; 23; 4; 11; 16; 23; 4; 11; 16; 23;
    6; 10; 15; 21; 6; 10; 15; 21; 6; 10; 15; 21; 6; 10; 15; 21 ].

Fixpoint bytes_of (s : string) : list Z :=
  match s with
  | EmptyString => []
  | String c rest => Z.of_nat (nat_of_ascii c) :: bytes_of rest
  end.

(** [n] little-endian bytes of [x]. *)
Fixpoint le_bytes (n : nat) (x : Z) : list Z :=
  match n with
  | O => []
  | S n' => Z.land x 255 :: le_bytes n' (Z.shiftr x 8)
  end.

Fixpoint le_word (bs : list Z) : Z :=
  match bs with
  | [] => 0
  | b :: rest => b + 256 * le_word rest
  end.

(** The message, a [1] bit, zeros up to 56 modulo 64, the bit length. *)
Definition pad (msg : list Z) : list Z :=
  let len := Z.of_nat (length msg) in
  let zeros := Z.to_nat ((55 - len) mod 64) in
  msg ++ [128] ++ replicate zeros 0 ++ le_bytes 8 (Z.land (8 * len) 0xffffffffffffffff).

Fixpoint chunks (fuel size : nat) (l : list Z) : list (list Z) :=
  match fuel with
  | O => []
  | S fuel' =>
      match l with
      | [] => []
      | _ => take size l :: chunks fuel' size (drop size l)
      end
  end.

Record Regs := MkRegs { rA : Z; rB : Z; rC : Z; rD : Z }.

Definition initial : Regs := MkRegs 0x67452301 0xefcdab89 0x98badcfe 0x10325476.

Definition round (words : list Z) (r : Regs) (i : nat) : Regs :=
  let '(MkRegs a b c d) := r in
  let iz := Z.of_nat i in
  let '(f, g) :=
    if (i <? 16)%nat then (Z.lor (Z.land b c) (Z.land (not32 b) d), iz)
    else if (i <? 32)%nat then (Z.lor (Z.land d b) (Z.land (not32 d) c), (5 * iz + 1) mod 16)
    else if (i <? 48)%nat then (Z.lxor (Z.lxor b c) d, (3 * iz + 5) mod 16)
    else (Z.lxor c (Z.lor b (not32 d)), (7 * iz) mod 16) in
  let f' := add32 (add32 (add32 f a) (nth i sines 0)) (nth (Z.to_nat g) words 0) in
  MkRegs d (add32 b (rotl32 f' (nth i shifts 0))) b c.

Definition block (r : Regs) (bytes : list Z) : Regs :=
  let words := le_word <$> chunks 16 4 bytes in
  let r' := foldl (round words) r (seq 0 64) in
  MkRegs (add32 (rA r) (rA r')) (add32 (rB r) (rB r'))
         (add32 (rC r) (rC r')) (add32 (rD r) (rD r')).

Definition digest (s : string) : list Z :=
  let msg := pad (bytes_of s) in
  let r := foldl block initial (chunks (length msg) 64 msg) in
  le_bytes 4 (rA r) ++ le_bytes 4 (rB r) ++ le_bytes 4 (rC r) ++ le_bytes 4 (rD r).

Definition hex_digit (n : Z) : ascii :=
  ascii_of_nat (Z.to_nat (if n <? 10 then 48 + n else 87 + n)).

Fixpoint hex (bs : list Z) : string :=
  match bs with
  | [] => EmptyString
  | b :: rest => String (hex_digit (b / 16)) (String (hex_digit (b mod 16)) (hex rest))
  end.

(** [md5(text.encode()).hexdigest()] *)
Definition hexdigest (s : string) : string := hex (digest s).

End Md5.

(** ** [filzl/client_interface/builder.py] *)

Module Builder.
Import Py.

(** *** Paths and the file system

    A path is the tuple [PurePosixPath.parts]; the anchor ["/"], when there is
    one, is its first part and the empty tuple is ["."]. *)

Abbreviation Path := (list string).

Definition is_anchor (p : Path) : bool := bool_decide (p = ["/"]).

(** [path.parent] *)
Definition parent (p : Path) : Path := if is_anchor p then p else removelast p.

(** [path / name] for a single relative part. *)
Definition child (p : Path) (name : string) : Path := p ++ [name].

(** [str(path)] *)
Definition path_str (p : Path) : string :=
  match p with
  | [] => "."
  | root :: rest => if decide (root = "/") then "/" +:+ join "/" rest else join "/" p
  end.

Inductive Node := Dir | File (text : string).

#[global] Instance Node_eq_dec : EqDecision Node.
Proof. solve_decision. Defined.

(** The mutable world of a build: the disk and, per controller object, its
    [bundled_scripts] list. Text sent to [print] is not kept. *)
Record World := MkWorld {
  disk : gmap Path Node;
  bundled_scripts : gmap nat (list string)
}.

(** The working directory and the root are directories of every disk. *)
Definition node_at (fs : gmap Path Node) (p : Path) : option Node :=
  if decide (p = []) then Some Dir
  else if is_anchor p then Some Dir
  else fs !! p.

Definition path_exists (fs : gmap Path Node) (p : Path) : bool :=
  bool_decide (is_Some (node_at fs p)).
Definition is_file (fs : gmap Path Node) (p : Path) : bool :=
  match node_at fs p with Some (File _) => true | _ => false end.
Definition is_dir (fs : gmap Path Node) (p : Path) : bool :=
  match node_at fs p with Some Dir => true | _ => false end.

(** Computations that read and change the world and may raise; what was
    done before an exception stays done. *)
Definition M (A : Type) : Type := World → (Exn + A) * World.

Definition ret {A} (a : A) : M A := λ w, (inr a, w).
Definition raise {A} (e : Exn) : M A := λ w, (inl e, w).
Definition bind {A B} (m : M A) (k : A → M B) : M B :=
  λ w, match m w with
       | (inl e, w') => (inl e, w')
       | (inr a, w') => k a w'
       end.
Definition lift {A} (r : Exn + A) : M A := λ w, (r, w).
Definition read_disk : M (gmap Path Node) := λ w, (inr (disk w), w).
Definition set_disk (fs : gmap Path Node) : M unit :=
  λ w, (inr tt, MkWorld fs (bundled_scripts w)).

Declare Scope py_scope.
Delimit Scope py_scope with py.
Notation "x <- m ;; k" := (bind m (λ x, k))
  (at level 20, m at level 99, k at level 200, only parsing) : py_scope.
Notation "m ;; k" := (bind m (λ _, k))
  (at level 100, k at level 200, right associativity, only parsing) : py_scope.
Local Open Scope py_scope.

(** [for x in xs: body(x)] *)
Fixpoint for_each {A} (xs : list A) (body : A → M unit) : M unit :=
  match xs with
  | [] => ret tt
  | x :: rest => body x ;; for_each rest body
  end.

(** [path.mkdir(exist_ok=True)] *)
Definition mkdir_exist_ok (p : Path) : M unit :=
  fs <- read_disk ;;
  match node_at fs p with
  | Some Dir => ret tt
  | Some (File _) => raise (Raise FileExistsError [path_str p])
  | None =>
      match node_at fs (parent p) with
      | Some Dir => set_disk (<[p := Dir]> fs)
      | Some (File _) => raise (Raise NotADirectoryError [path_str p])
      | None => raise (Raise FileNotFoundError [path_str p])
      end
  end.

(** The proper prefixes of a path, shortest first, and the path itself. *)
Definition ancestors_and_self (p : Path) : list Path :=
  (λ n, take n p) <$> seq 1 (length p).

(** [path.mkdir(parents=True)] *)
Definition mkdir_parents (p : Path) : M unit :=
  fs <- read_disk ;;
  match node_at fs p with
  | Some _ => raise (Raise FileExistsError [path_str p])
  | None =>
      if existsb (is_file fs) (ancestors_and_self p)
      then raise (Raise NotADirectoryError [path_str p])
      else set_disk (foldl (λ fs q, if path_exists fs q then fs else <[q := Dir]> fs)
                           fs (ancestors_and_self p))
  end.

(** [shutil.rmtree(path)] *)
Definition rmtree (p : Path) : M unit :=
  fs <- read_disk ;;
  match node_at fs p with
  | Some Dir => set_disk (filter (λ kv, ¬ (p `prefix_of` kv.1)) fs)
  | Some (File _) => raise (Raise NotADirectoryError [path_str p])
  | None => raise (Raise FileNotFoundError [path_str p])
  end.

(** [path.write_text(text)] *)
Definition write_text (p : Path) (text : string) : M unit :=
  fs <- read_disk ;;
  match node_at fs (parent p), node_at fs p with
  | Some Dir, Some Dir => raise (Raise IsADirectoryError [path_str p])
  | Some Dir, _ => set_disk (<[p := File text]> fs)
  | Some (File _), _ => raise (Raise NotADirectoryError [path_str p])
  | None, _ => raise (Raise FileNotFoundError [path_str p])
  end.

(** *** Controllers *)

(** [filzl.actions.fields.FunctionActionType] *)
Inductive FunctionActionType := RENDER | SIDEEFFECT | PASSTHROUGH.

#[global] Instance FunctionActionType_eq_dec : EqDecision FunctionActionType.
Proof. solve_decision. Defined.

(** What the builder reads of [get_function_metadata(fn)] for an action. *)
Record FunctionMetadata := MkMetadata {
  function_name : string;
  action_type : FunctionActionType
}.

(** What the builder reads of a controller object. [ctrl_id] is the object's
    identity, [model_name] is [get_render_model().__name__] of its render
    function and [client_functions] the metadata of
    [_get_client_functions()]. *)
Record Controller := MkController {
  ctrl_id : nat;
  class_name : string;
  ctrl_str : string;
  view_path : Path;
  model_name : string;
  client_functions : list FunctionMetadata
}.

Record ControllerDefinition := MkDefinition {
  controller : Controller;
  router : string;
  url_prefix : string
}.

(** The schema [get_openapi] returns, as far as the builder looks into it:
    [components.schemas] by name, the rest as it came. *)
Record OpenAPI := MkOpenAPI {
  component_schemas : list (string * string);
  openapi_paths : string
}.

(** The collaborators of the builder that live in other modules: FastAPI's
    schema extraction, the two converters, the import path resolver, the
    packaged [api.ts] and the bundler with its two text helpers. Those that
    can raise return a sum. *)
Class Collaborators := {
  get_openapi : string → string → OpenAPI;
  convert : Controller → Exn + list (string * string);
  convert_schema_to_interface : string → OpenAPI → Exn + string;
  convert_actions : OpenAPI → Exn + (list (string * string) * list string);
  generate_relative_import : Path → Path → string;
  api_ts : string;
  bundle_javascript : gmap Path Node → Path → Path → Exn + (string * string);
  get_cleaned_js_contents : string → string;
  update_source_map_path : string → string → string
}.

(** The application: its registry, in registration order, and view root. *)
Record App := MkApp {
  controllers : list ControllerDefinition;
  view_root : Path
}.

(** *** The generators *)

(** A [dict[str, str]]: [d[k] = v] keeps the place of a key already there. *)
Fixpoint dict_set (k v : string) (d : list (string * string)) : list (string * string) :=
  match d with
  | [] => [(k, v)]
  | (k', v') :: rest =>
      if decide (k = k') then (k, v) :: rest else (k', v') :: dict_set k v rest
  end.

(** [d.get(k)] *)
Fixpoint dict_get (k : string) (d : list (string * string)) : option string :=
  match d with
  | [] => None
  | (k', v') :: rest => if decide (k = k') then Some v' else dict_get k rest
  end.

(** The order of [sorted(schemas.items(), key=lambda x: x[0])]. *)
Definition key_le (x y : string * string) : Prop := String.le x.1 y.1.

#[global] Instance key_le_dec : RelDecision key_le.
Proof. intros x y. unfold key_le. apply _. Defined.

#[global] Instance key_le_total : Total key_le.
Proof. intros x y. unfold key_le. apply (total String.le). Qed.

#[global] Instance key_le_trans : Transitive key_le.
Proof. intros x y z. unfold key_le. apply transitivity. Qed.

Definition sorted_items (d : list (string * string)) : list (string * string) :=
  merge_sort key_le d.

(** [defaultdict(list)] keyed by parent directory, in insertion order. *)
Fixpoint group_append (view : Path) (c : Controller) (groups : list (Path * list Controller))
  : list (Path * list Controller) :=
  match groups with
  | [] => [(view, [c])]
  | (view', members) :: rest =>
      if decide (view = view') then (view', members ++ [c]) :: rest
      else (view', members) :: group_append view c rest
  end.

(** [groups.get(view, [])] *)
Fixpoint members_of (view : Path) (groups : list (Path * list Controller)) : list Controller :=
  match groups with
  | [] => []
  | (view', members) :: rest =>
      if decide (view = view') then members else members_of view rest
  end.

Section generators.
Context `{Collaborators} (app : App).

(** [get_controller_global_state] *)
Definition get_controller_global_state (c : Controller) : string :=
  Inflection.upper (Inflection.underscore (class_name c)).

(** [get_controller_render_global_type] *)
Definition get_controller_render_global_type (c : Controller) : string :=
  let controller_name := get_controller_global_state c in
  let render_model_name := Inflection.camelize (model_name c) in
  controller_name +:+ render_model_name.

(** [get_render_local_state] *)
Definition get_render_local_state (c : Controller) : string :=
  Inflection.camelize (model_name c).

(** [openapi_from_controller] *)
Definition openapi_from_controller (d : ControllerDefinition) : OpenAPI :=
  get_openapi (router d) (url_prefix d).

(** [get_managed_dir_common] *)
Definition get_managed_dir_common (path : Path) (managed_dir : string) : M Path :=
  fs <- read_disk ;;
  let path := if is_file fs path then parent path else path in
  let managed_code_dir := child path managed_dir in
  mkdir_exist_ok managed_code_dir ;;
  ret managed_code_dir.

Definition get_managed_code_dir (path : Path) : M Path :=
  get_managed_dir_common path "_server".
Definition get_managed_static_dir (path : Path) : M Path :=
  get_managed_dir_common path "_static".

(** [generate_static_files] *)
Definition generate_static_files : M unit :=
  managed_code_dir <- get_managed_code_dir (view_root app) ;;
  write_text (child managed_code_dir "api.ts") api_ts.

(** The second loop of [generate_model_definitions], over
    [base.components.schemas.items()]. *)
Fixpoint convert_components (base : OpenAPI) (components : list (string * string))
    (schemas : list (string * string)) : Exn + list (string * string) :=
  match components with
  | [] => inr schemas
  | (schema_name, component) :: rest =>
      match convert_schema_to_interface component base with
      | inl e => inl e
      | inr interface => convert_components base rest (dict_set schema_name interface schemas)
      end
  end.

(** The [schemas] dict of one controller once both loops are through. *)
Definition model_schemas (d : ControllerDefinition) : Exn + list (string * string) :=
  let base := openapi_from_controller d in
  match convert (controller d) with
  | inl e => inl e
  | inr render_schemas =>
      convert_components base (component_schemas base)
        (foldl (λ schemas kv, dict_set kv.1 kv.2 schemas) [] render_schemas)
  end.

(** The text written to a controller's [models.ts]. *)
Definition models_ts (schemas : list (string * string)) : string :=
  join (nl +:+ nl) ((sorted_items schemas).*2).

(** The body of the loop of [generate_model_definitions]. *)
Definition generate_model_definition (d : ControllerDefinition) : M unit :=
  schemas <- lift (model_schemas d) ;;
  managed_code_dir <- get_managed_code_dir (view_path (controller d)) ;;
  write_text (child managed_code_dir "models.ts") (models_ts schemas).

(** [generate_model_definitions] *)
Definition generate_model_definitions : M unit :=
  for_each (controllers app) generate_model_definition.

(** The first chunk of an [actions.ts]: the two import statements. *)
Definition actions_imports (root_api_import_path : string) (required_types : list string)
  : string :=
  "import { __request, FetchErrorBase } from '" +:+ root_api_import_path +:+ "';" +:+ nl
  +:+ "import type { " +:+ join ", " required_types +:+ " } from './models';".

(** The text written to a controller's [actions.ts]. *)
Definition actions_ts (root_api_import_path : string)
    (output_schemas : list (string * string)) (required_types : list string) : string :=
  join (nl +:+ nl) (actions_imports root_api_import_path required_types :: output_schemas.*2).

(** The body of the loop of [generate_action_definitions]. *)
Definition generate_action_definition (d : ControllerDefinition) : M unit :=
  controller_code_dir <- get_managed_code_dir (view_path (controller d)) ;;
  root_code_dir <- get_managed_code_dir (view_root app) ;;
  let controller_action_path := child controller_code_dir "actions.ts" in
  let root_common_handler := child root_code_dir "api.ts" in
  let root_api_import_path :=
    generate_relative_import controller_action_path root_common_handler in
  converted <- lift (convert_actions (openapi_from_controller d)) ;;
  write_text controller_action_path
    (actions_ts root_api_import_path converted.1 converted.2).

(** [generate_action_definitions] *)
Definition generate_action_definitions : M unit :=
  for_each (controllers app) generate_action_definition.

(** One line of the root [models.ts]. *)
Definition global_model_import (c : Controller) (relative_import_path : string) : string :=
  "export type { " +:+ get_render_local_state c +:+ " as "
  +:+ get_controller_render_global_type c +:+ " } from '../" +:+ relative_import_path +:+ "'".

(** The loop of [generate_global_model_imports]. *)
Fixpoint global_model_imports (defs : list ControllerDefinition) : M (list string) :=
  match defs with
  | [] => ret []
  | d :: rest =>
      managed_code_dir <- get_managed_code_dir (view_path (controller d)) ;;
      let controller_model_path := child managed_code_dir "models.ts" in
      let relative_import_path :=
        generate_relative_import (view_root app) controller_model_path in
      lines <- global_model_imports rest ;;
      ret (global_model_import (controller d) relative_import_path :: lines)
  end.

(** [generate_global_model_imports] *)
Definition generate_global_model_imports : M unit :=
  lines <- global_model_imports (controllers app) ;;
  managed_dir <- get_managed_code_dir (view_root app) ;;
  write_text (child managed_dir "models.ts") (join nl lines).

(** [server_state_lines] of [generate_server_provider] *)
Definition server_state_lines : list string :=
  (λ d, get_controller_global_state (controller d) +:+ "?:"
        +:+ " ControllerTypes." +:+ get_controller_render_global_type (controller d))
  <$> controllers app.

(** The [interface ServerState] chunk. *)
Definition server_state_interface : string :=
  "interface ServerState {" +:+ nl
  +:+ join ("," +:+ nl) ((λ line, "  " +:+ line) <$> server_state_lines)
  +:+ nl +:+ "}".

Definition server_provider_state_lines : list string :=
  (λ d, get_controller_global_state (controller d) +:+ ": GLOBAL_STATE["
        +:+ get_controller_global_state (controller d) +:+ "]")
  <$> controllers app.

(** The text written to the root [server.tsx]. *)
Definition server_tsx : string :=
  join (nl +:+ nl)
    [ "import React, { createContext, useState, ReactNode } from 'react';" +:+ nl
      +:+ "import type * as ControllerTypes from './models';";
      server_state_interface;
      "export const ServerContext = createContext<{" +:+ nl
      +:+ "  serverState: ServerState" +:+ nl
      +:+ "  setServerState: (state: ServerState | ((prevState: ServerState) => ServerState)) => void" +:+ nl
      +:+ "}>(undefined as any)";
      "export const ServerProvider = ({ children }: { children: ReactNode }) => {" +:+ nl
      +:+ "const [serverState, setServerState] = useState<ServerState>({" +:+ nl
      +:+ join ("," +:+ nl) ((λ line, "  " +:+ line) <$> server_provider_state_lines)
      +:+ nl +:+ "});" +:+ nl
      +:+ "return <ServerContext.Provider" +:+ nl
      +:+ "serverState={serverState}" +:+ nl
      +:+ "setServerState={setServerState}>" +:+ nl
      +:+ "{children}</ServerContext.Provider>" +:+ nl
      +:+ "};" ].

(** [generate_server_provider] *)
Definition generate_server_provider : M unit :=
  managed_dir <- get_managed_code_dir (view_root app) ;;
  write_text (child managed_dir "server.tsx") server_tsx.

(** The entry of one action in the object [useServer] returns. *)
Definition action_binding (metadata : FunctionMetadata) : string :=
  if decide (action_type metadata = SIDEEFFECT)
  then function_name metadata +:+ ": applySideEffect(" +:+ function_name metadata
       +:+ ", setControllerState)"
  else function_name metadata +:+ ": " +:+ function_name metadata.

(** The [setControllerState] closure emitted into the hook. *)
Definition set_controller_state_ts (c : Controller) (optional_model_name : string) : string :=
  "const setControllerState = (payload: " +:+ optional_model_name +:+ ") => {" +:+ nl
  +:+ "setServerState((state) => ({" +:+ nl
  +:+ "...state," +:+ nl
  +:+ get_controller_global_state c +:+ ": state." +:+ get_controller_global_state c
  +:+ " ? {" +:+ nl
  +:+ "...state." +:+ get_controller_global_state c +:+ "," +:+ nl
  +:+ "...payload," +:+ nl
  +:+ "} : undefined" +:+ nl
  +:+ "}))" +:+ nl
  +:+ "};" +:+ nl.

(** The [useServer] chunk. *)
Definition use_server_hook (c : Controller) (optional_model_name : string) : string :=
  "export const useServer = () => {" +:+ nl
  +:+ "const { serverState, setServerState } = useContext(ServerContext);" +:+ nl
  +:+ set_controller_state_ts c optional_model_name
  +:+ "return {" +:+ nl
  +:+ "...serverState['" +:+ get_controller_global_state c +:+ "']," +:+ nl
  +:+ join ("," +:+ nl) (action_binding <$> client_functions c)
  +:+ "}" +:+ nl
  +:+ "};".

(** The text written to a controller's [useServer.ts]. *)
Definition use_server_ts (c : Controller) (relative_server_path : string) : string :=
  let render_model_name := model_name c in
  let controller_action_metadata := client_functions c in
  let optional_model_name := render_model_name +:+ "Optional" in
  join (nl +:+ nl)
    [ "import React, { useContext } from 'react';" +:+ nl
      +:+ "import { ServerContext } from '" +:+ relative_server_path +:+ "/server';" +:+ nl
      +:+ "import { applySideEffect } from '" +:+ relative_server_path +:+ "/api';" +:+ nl
      +:+ "import { " +:+ render_model_name +:+ " } from './models';"
      +:+ (match controller_action_metadata with
           | [] => ""
           | _ => "import { " +:+ join ", " (function_name <$> controller_action_metadata)
                  +:+ " } from './actions';"
           end);
      "export type " +:+ optional_model_name +:+ " = Partial<" +:+ render_model_name +:+ ">;";
      use_server_hook c optional_model_name ].

(** The body of the loop of [generate_view_servers]. *)
Definition generate_view_server (d : ControllerDefinition) : M unit :=
  controller_model_path <- get_managed_code_dir (view_path (controller d)) ;;
  global_server_path <- get_managed_code_dir (view_root app) ;;
  let relative_server_path :=
    generate_relative_import controller_model_path global_server_path in
  write_text (child controller_model_path "useServer.ts")
    (use_server_ts (controller d) relative_server_path).

(** [generate_view_servers] *)
Definition generate_view_servers : M unit :=
  for_each (controllers app) generate_view_server.

End generators.

(** *** Validation and the build *)

(** The directory a controller is grouped under by [validate_unique_paths]. *)
Definition view_dir (d : ControllerDefinition) : Path := parent (view_path (controller d)).

(** The first loop of [validate_unique_paths], from any dict built so far. *)
Definition grouped (acc : list (Path * list Controller)) (defs : list ControllerDefinition)
  : list (Path * list Controller) :=
  foldl (λ groups d, group_append (view_dir d) (controller d) groups) acc defs.

Section orchestration.
Context `{Collaborators} (app : App).

(** [view_counts] after the first loop of [validate_unique_paths]. *)
Definition view_counts : list (Path * list Controller) :=
  foldl (λ groups d,
           group_append (parent (view_path (controller d))) (controller d) groups)
        [] (controllers app).

Definition duplicate_views : list (Path * list Controller) :=
  filter (λ group, 1 < length group.2) view_counts.

(** The lines joined into the second argument of the [ValueError]. *)
Definition duplicate_lines : list string :=
  group ← duplicate_views;
  (λ c, "  " +:+ path_str group.1 +:+ ": " +:+ ctrl_str c) <$> group.2.

Definition duplicate_error : Exn :=
  Raise ValueError
    [ "Found duplicate view paths under controller management, ensure definitions are unique";
      join nl duplicate_lines ].

Definition missing_error (view_path : Path) : Exn :=
  Raise ValueError
    [ "View path " +:+ path_str view_path
      +:+ " does not exist, ensure it is created before running the server" ].

(** [validate_unique_paths] *)
Definition validate_unique_paths : M unit :=
  match duplicate_views with
  | _ :: _ => raise duplicate_error
  | [] =>
      for_each (controllers app) (λ d,
        fs <- read_disk ;;
        if path_exists fs (view_path (controller d)) then ret tt
        else raise (missing_error (view_path (controller d))))
  end.

(** [controller.bundled_scripts.append(script_name)] *)
Definition append_script (c : Controller) (script_name : string) : M unit :=
  λ w, (inr tt,
        MkWorld (disk w)
          (<[ctrl_id c := default [] (bundled_scripts w !! ctrl_id c) ++ [script_name]]>
             (bundled_scripts w))).

Definition content_hash (contents : string) : string :=
  Md5.hexdigest (get_cleaned_js_contents contents).
Definition script_name (c : Controller) (contents : string) : string :=
  Inflection.underscore (class_name c) +:+ "-" +:+ content_hash contents +:+ ".js".
Definition map_name (c : Controller) (contents : string) : string :=
  script_name c contents +:+ ".map".

(** [spawn_builder], the body of one build thread. *)
Definition spawn_builder (static_dir : Path) (c : Controller) : M unit :=
  fs <- read_disk ;;
  bundle <- lift (bundle_javascript fs (view_path c) (view_root app)) ;;
  let contents := bundle.1 in
  let map_contents := bundle.2 in
  let contents' := update_source_map_path contents (map_name c contents) in
  write_text (child static_dir (script_name c contents)) contents' ;;
  write_text (child static_dir (map_name c contents)) map_contents ;;
  append_script c (script_name c contents).

(** A thread runs its target; an exception ends the thread and goes no
    further. *)
Definition run_thread (target : M unit) (w : World) : (Exn + unit) * World := target w.

(** The threads of one run, in the order [sched] in which they get to run;
    [thread.join()] returns nothing, whatever became of the thread. *)
Definition run_threads (static_dir : Path) (sched : list nat) : M unit :=
  λ w, (inr tt,
        foldl (λ w i,
                 match controllers app !! i with
                 | Some d => (run_thread (spawn_builder static_dir (controller d)) w).2
                 | None => w
                 end) w sched).

(** The first lines of [build_javascript_chunks]: the static directory is
    emptied. *)
Definition clear_static_dir : M Path :=
  static_dir <- get_managed_static_dir (view_root app) ;;
  fs <- read_disk ;;
  (if path_exists fs static_dir then rmtree static_dir else ret tt) ;;
  mkdir_parents static_dir ;;
  ret static_dir.

(** [build_javascript_chunks] *)
Definition build_javascript_chunks (sched : list nat) : M unit :=
  static_dir <- clear_static_dir ;;
  run_threads static_dir sched.

(** [build] *)
Definition build (sched : list nat) : M unit :=
  validate_unique_paths ;;
  generate_static_files app ;;
  generate_model_definitions app ;;
  generate_action_definitions app ;;
  generate_global_model_imports app ;;
  generate_server_provider app ;;
  generate_view_servers app ;;
  build_javascript_chunks sched.

(** The threads of [build_javascript_chunks] step by step: the main thread
    starts one thread per controller, then joins them in the same order;
    a started thread runs its unit at any moment after its start. *)
Inductive Phase := Dispatching (k : nat) | Joining (k : nat) | Returned.

Inductive ThreadState := NotStarted | Running | Finished (outcome : Exn + unit).

Record Orchestrator := MkOrchestrator {
  phase : Phase;
  threads : list ThreadState;
  world : World
}.

Definition dispatch (w : World) : Orchestrator :=
  MkOrchestrator (Dispatching 0) (replicate (length (controllers app)) NotStarted) w.

Inductive step (static_dir : Path) : Orchestrator → Orchestrator → Prop :=
| step_start k ts w :
    k < length (controllers app) →
    step static_dir (MkOrchestrator (Dispatching k) ts w)
                    (MkOrchestrator (Dispatching (S k)) (<[k := Running]> ts) w)
| step_started ts w :
    step static_dir (MkOrchestrator (Dispatching (length (controllers app))) ts w)
                    (MkOrchestrator (Joining 0) ts w)
| step_unit ph ts w i d :
    ts !! i = Some Running →
    controllers app !! i = Some d →
    step static_dir (MkOrchestrator ph ts w)
      (MkOrchestrator ph
         (<[i := Finished (run_thread (spawn_builder static_dir (controller d)) w).1]> ts)
         (run_thread (spawn_builder static_dir (controller d)) w).2)
| step_join k ts w outcome :
    ts !! k = Some (Finished outcome) →
    step static_dir (MkOrchestrator (Joining k) ts w)
                    (MkOrchestrator (Joining (S k)) ts w)
| step_return ts w :
    step static_dir (MkOrchestrator (Joining (length (controllers app))) ts w)
                    (MkOrchestrator Returned ts w).

(** What the caller of [build_javascript_chunks] gets once it has returned:
    the function has no [return] and re-raises nothing. *)
Definition run_result (o : Orchestrator) : option (Exn + unit) :=
  match phase o with
  | Returned => Some (inr tt)
  | _ => None
  end.

(** What the joins passed so far have waited for. *)
Definition joined (o : Orchestrator) : Prop :=
  match phase o with
  | Dispatching _ => True
  | Joining k => ∀ i, i < k → ∃ outcome, threads o !! i = Some (Finished outcome)
  | Returned =>
      ∀ i, i < length (controllers app) → ∃ outcome, threads o !! i = Some (Finished outcome)
  end.

Definition finished (t : ThreadState) : Prop :=
  match t with Finished _ => True | _ => False end.

Definition failed (t : ThreadState) : Prop :=
  match t with Finished (inl _) => True | _ => False end.

End orchestration.

End Builder.

(** ** The TypeScript the hook is made of

    The expressions [generate_view_servers] writes into [useServer.ts], as
    syntax with the text it is printed as, and what they evaluate to in the
    browser. [None] from [eval] stands for a [TypeError] and for values this
    reading does not cover: a call, and the spread or a member of a
    primitive or a function. *)

Module Client.
Import Py.

Local Set Warnings "-register-all".

Inductive JsValue :=
| JUndefined
| JNull
| JPrimitive (truthy : bool) (repr : string)
| JFunction (name : string)
| JObject (fields : gmap string JsValue).



(** The condition of [v ? a : b]. *)
Definition truthy (v : JsValue) : bool :=
  match v with
  | JUndefined | JNull => false
  | JPrimitive t _ => t
  | JFunction _ | JObject _ => true
  end.





End Client.

(** ** The two text helpers of the bundler module *)

Module JsBundler.
Import Py.

Definition marker : string := "//# sourceMappingURL=".

Definition is_reference (line : string) : bool := String.prefix marker line.

(** [text.split("\n")] *)
Fixpoint split_lines (text : string) : list string :=
  match text with
  | EmptyString => [EmptyString]
  | String c rest =>
      if Inflection.is_newline c then EmptyString :: split_lines rest
      else match split_lines rest with
           | line :: lines => String c line :: lines
           | [] => [String c EmptyString]
           end
  end.

(** Modelled from the spec: [get_cleaned_js_contents], missing from the
    sources at hand. The embedded source-map reference, a line that starts
    with the marker, is stripped from the script text. *)
Definition get_cleaned_js_contents (contents : string) : string :=
  join nl (filter (λ line, is_reference line = false) (split_lines contents)).

(** Modelled from the spec: [update_source_map_path], missing from the
    sources at hand. The embedded source-map reference is rewritten to point
    at the new map file name. *)
Definition update_source_map_path (contents new_path : string) : string :=
  join nl ((λ line, if is_reference line then marker +:+ new_path else line)
           <$> split_lines contents).

Fixpoint newline_free (s : string) : bool :=
  match s with
  | EmptyString => true
  | String c rest => negb (Inflection.is_newline c) && newline_free rest
  end.

(** Collaborators with these helpers; the others are as given. *)
Definition with_helpers (C : Builder.Collaborators) : Builder.Collaborators :=
  {| Builder.get_openapi := Builder.get_openapi;
     Builder.convert := Builder.convert;
     Builder.convert_schema_to_interface := Builder.convert_schema_to_interface;
     Builder.convert_actions := Builder.convert_actions;
     Builder.generate_relative_import := Builder.generate_relative_import;
     Builder.api_ts := Builder.api_ts;
     Builder.bundle_javascript := Builder.bundle_javascript;
     Builder.get_cleaned_js_contents := get_cleaned_js_contents;
     Builder.update_source_map_path := update_source_map_path |}.

End JsBundler.

(** ** Sample inputs *)

Module Samples.
Import Py.

Definition sample_config : Db.DatabaseConfig :=
  Db.MkConfig (Some "postgresql+asyncpg://app@db/main") Db.FIXED_PROCESS.
Definition other_config : Db.DatabaseConfig :=
  Db.MkConfig (Some "postgresql+asyncpg://app@db/audit") Db.NULL.
Definition unset_config : Db.DatabaseConfig := Db.MkConfig None Db.FIXED_PROCESS.

(** Stand-ins for the converters, the resolver and the bundler. *)
Definition sample_collaborators : Builder.Collaborators :=
  {| Builder.get_openapi := λ router prefix,
       Builder.MkOpenAPI
         [("IncrementResponse", "{count: integer}"); ("HTTPValidationError", "{detail: array}")]
         (prefix +:+ router);
     Builder.convert := λ c,
       inr [(Builder.model_name c, "export interface " +:+ Builder.model_name c +:+ " {}")];
     Builder.convert_schema_to_interface := λ component _,
       inr ("export interface " +:+ component);
     Builder.convert_actions := λ _,
       inr ([("increment", "export const increment = () => __request({});")],
            ["IncrementResponse"; "HTTPValidationError"]);
     Builder.generate_relative_import := λ _ _, "../../_server/api";
     Builder.api_ts := "export const __request = async () => {};";
     Builder.bundle_javascript := λ _ view _,
       inr ("render(" +:+ Builder.path_str view +:+ ");" +:+ nl
            +:+ "//# sourceMappingURL=out.js.map", "{}");
     Builder.get_cleaned_js_contents := JsBundler.get_cleaned_js_contents;
     Builder.update_source_map_path := JsBundler.update_source_map_path |}.

(** The same with a bundler that fails on every view. *)
Definition failing_bundler : Builder.Collaborators :=
  {| Builder.get_openapi := @Builder.get_openapi sample_collaborators;
     Builder.convert := @Builder.convert sample_collaborators;
     Builder.convert_schema_to_interface :=
       @Builder.convert_schema_to_interface sample_collaborators;
     Builder.convert_actions := @Builder.convert_actions sample_collaborators;
     Builder.generate_relative_import :=
       @Builder.generate_relative_import sample_collaborators;
     Builder.api_ts := @Builder.api_ts sample_collaborators;
     Builder.bundle_javascript := λ _ view _,
       inl (Raise ExternalError ["esbuild failed for " +:+ Builder.path_str view]);
     Builder.get_cleaned_js_contents := JsBundler.get_cleaned_js_contents;
     Builder.update_source_map_path := JsBundler.update_source_map_path |}.

Definition home : Builder.Controller :=
  Builder.MkController 1 "Home" "<app.Home object at 0x1>"
    ["views"; "app"; "home"; "page.tsx"] "RenderModel" [].
Definition dashboard : Builder.Controller :=
  Builder.MkController 2 "Dashboard" "<app.Dashboard object at 0x2>"
    ["views"; "app"; "dashboard"; "page.tsx"] "RenderModel" [].
Definition counter : Builder.Controller :=
  Builder.MkController 3 "CounterController" "<app.CounterController object at 0x3>"
    ["views"; "app"; "counter"; "page.tsx"] "CounterRender"
    [Builder.MkMetadata "increment" Builder.SIDEEFFECT;
     Builder.MkMetadata "get_history" Builder.PASSTHROUGH].

Definition define (c : Builder.Controller) : Builder.ControllerDefinition :=
  Builder.MkDefinition c "router" "/internal/api".

Definition two_pages : Builder.App :=
  Builder.MkApp [define home; define dashboard] ["views"].

(** A disk with the view tree of [home], [dashboard] and [counter]. *)
Definition sample_disk : gmap (list string) Builder.Node :=
  list_to_map
    [ (["views"], Builder.Dir);
      (["views"; "app"], Builder.Dir);
      (["views"; "app"; "home"], Builder.Dir);
      (["views"; "app"; "home"; "page.tsx"], Builder.File "export default Home");
      (["views"; "app"; "dashboard"], Builder.Dir);
      (["views"; "app"; "dashboard"; "page.tsx"], Builder.File "export default Dashboard");
      (["views"; "app"; "counter"], Builder.Dir);
      (["views"; "app"; "counter"; "page.tsx"], Builder.File "export default Counter") ].

Definition sample_world : Builder.World := Builder.MkWorld sample_disk ∅.

(** A second controller that keeps its view next to the one of [home]. *)
Definition home_detail : Builder.Controller :=
  Builder.MkController 4 "HomeDetail" "<app.HomeDetail object at 0x4>"
    ["views"; "app"; "home"; "detail.tsx"] "DetailRender" [].

Definition crowded : Builder.App :=
  Builder.MkApp [define home; define dashboard; define home_detail] ["views"].

(** Two controllers whose views are not on [sample_disk]. *)
Definition ghost : Builder.Controller :=
  Builder.MkController 5 "Ghost" "<app.Ghost object at 0x5>"
    ["views"; "app"; "ghost"; "page.tsx"] "GhostRender" [].
Definition phantom : Builder.Controller :=
  Builder.MkController 6 "Phantom" "<app.Phantom object at 0x6>"
    ["views"; "app"; "phantom"; "page.tsx"] "PhantomRender" [].

Definition haunted : Builder.App :=
  Builder.MkApp [define home; define ghost; define phantom] ["views"].



Definition with_counter : Builder.App :=
  Builder.MkApp [define counter; define home] ["views"].

(** [sample_world] after an earlier build: the static directory holds a
    bundle of that build. *)
Definition stale_world : Builder.World :=
  Builder.MkWorld
    (<[["views"; "_static"; "home-0.js"] := Builder.File "render(old);"]>
       (<[["views"; "_static"] := Builder.Dir]> sample_disk)) ∅.

End Samples.

(** ** The callers of the engine cache *)

Module DbUse.
Import Py Db.

(** [get_db]: the dependency handed to request handlers. *)
Definition get_db (cfg : DatabaseConfig) (p : Process) : (Exn + AsyncEngine) * Process :=
  engine_from_config cfg false p.

(** One [get_db] per resolved dependency, in order. *)
Definition get_db_all (cfgs : list DatabaseConfig) (p : Process) : Process :=
  foldl (λ p cfg, (get_db cfg p).2) p cfgs.

(** The connection strings that are set among some configs. *)
Definition uris (cfgs : list DatabaseConfig) : gset string :=
  list_to_set (omap uri_set cfgs).

(** What holds of every process state the module can get into: a cached
    engine was made for the string it is stored under, by an allocation that
    is past, and has not been disposed; disposed engines are past
    allocations; no engine object is stored under two strings. *)
Definition healthy (p : Process) : Prop :=
  (∀ uri e, GLOBAL_ENGINE p !! uri = Some e →
            engine_id e < next_engine p ∧ engine_url e = uri ∧ engine_id e ∉ disposed p) ∧
  (∀ n, n ∈ disposed p → n < next_engine p) ∧
  (∀ uri1 uri2 e1 e2,
     GLOBAL_ENGINE p !! uri1 = Some e1 → GLOBAL_ENGINE p !! uri2 = Some e2 →
     engine_id e1 = engine_id e2 → uri1 = uri2).

(** [unregister_global_engine] as the event loop runs it. The coroutine
    gives up control at every [await engine.dispose()], so a lookup of
    another task can run between two engines, and an [await] that raises or
    is cancelled ends the coroutine before [GLOBAL_ENGINE] is rebound.
    One shutdown coroutine is followed, as the hook is run once per
    shutdown. [Disposing pending expected] is the coroutine suspended in
    the loop:
    [pending] are the keys the iterator of [GLOBAL_ENGINE.values()] has not
    reached yet and [expected] is the size of the dict when the iterator was
    made. *)
Inductive ShutdownTask :=
| NotRunning
| Disposing (pending : list string) (expected : nat).

(** [engine.dispose()] has run. *)
Definition dispose (e : AsyncEngine) (p : Process) : Process :=
  MkProcess (GLOBAL_ENGINE p) (next_engine p) ({[engine_id e]} ∪ disposed p).

(** [GLOBAL_ENGINE = {}] *)
Definition rebind (p : Process) : Process :=
  MkProcess ∅ (next_engine p) (disposed p).

(** One turn of the event loop. [engine_from_config] has no [await] and runs
    in one turn. The dict iterator goes through the keys in the order of
    insertion, which the unordered [GLOBAL_ENGINE] of [Process] does not
    record: the shutdown may start with any order of the keys. It yields
    the value stored under a key at the time it gets there, and raises
    [RuntimeError] when the dict has changed size since it was made. *)
Inductive event_step : Process * ShutdownTask → Process * ShutdownTask → Prop :=
| step_lookup cfg force_new p s :
    event_step (p, s) ((engine_from_config cfg force_new p).2, s)
| step_shutdown_nothing p :
    GLOBAL_ENGINE p = ∅ →
    event_step (p, NotRunning) (rebind p, NotRunning)
| step_shutdown_first p k rest e :
    k :: rest ≡ₚ (map_to_list (GLOBAL_ENGINE p)).*1 →
    GLOBAL_ENGINE p !! k = Some e →
    event_step (p, NotRunning)
               (dispose e p, Disposing rest (size (GLOBAL_ENGINE p)))
| step_dispose_next p k rest n e :
    size (GLOBAL_ENGINE p) = n →
    GLOBAL_ENGINE p !! k = Some e →
    event_step (p, Disposing (k :: rest) n) (dispose e p, Disposing rest n)
| step_rebind p n :
    size (GLOBAL_ENGINE p) = n →
    event_step (p, Disposing [] n) (rebind p, NotRunning)
| step_size_changed p pending n :
    size (GLOBAL_ENGINE p) ≠ n →
    event_step (p, Disposing pending n) (p, NotRunning)
| step_abandoned p pending n :
    event_step (p, Disposing pending n) (p, NotRunning).

(** The engines cached under some keys are disposed. *)
Definition dispose_keys (keys : list string) (p : Process) : Process :=
  foldl (λ p k, match GLOBAL_ENGINE p !! k with
                | Some e => dispose e p
                | None => p
                end) p keys.

End DbUse.

(** ** What a computation may touch *)

Module Managed.
Import Py Builder.

(** The directory [get_managed_dir_common(path, managed_dir)] works on when
    the disk is [fs]. *)
Definition managed_dir_of (fs : gmap Path Node) (path : Path) (managed_dir : string) : Path :=
  child (if is_file fs path then parent path else path) managed_dir.

(** A computation changes the disk at most at the paths that satisfy [P],
    whether it returns or raises. *)
Definition writes_only {A} (P : Path → Prop) (m : M A) : Prop :=
  ∀ w p, ¬ P p → disk (m w).2 !! p = disk w !! p.

(** A computation leaves every controller's script list as it is. *)
Definition keeps_scripts {A} (m : M A) : Prop :=
  ∀ w, bundled_scripts (m w).2 = bundled_scripts w.

(** The script lists after a computation are those before it, or those left
    by the threads of a build that started from such lists. *)
Definition scripts_from_threads `{Collaborators} {A} (app : App) (sched : list nat) (m : M A)
  : Prop :=
  ∀ w, bundled_scripts (m w).2 = bundled_scripts w ∨
       ∃ static_dir w1,
         bundled_scripts w1 = bundled_scripts w ∧
         bundled_scripts (m w).2 = bundled_scripts (run_threads app static_dir sched w1).2.

(** What a computation returns, when it returns, satisfies [R]. *)
Definition returns {A} (R : A → Prop) (m : M A) : Prop :=
  ∀ w a w', m w = (inr a, w') → R a.

(** The file [name] in the managed code directory of a controller whose view
    is a file. *)
Definition controller_file (d : ControllerDefinition) (name : string) : Path :=
  child (child (view_dir d) "_server") name.

(** [dir] is a managed code directory of [path]: [_server] under the path,
    or under its parent, as [get_managed_code_dir] has it for a file. *)
Definition code_dir_of (path dir : Path) : Prop :=
  dir = child path "_server" ∨ dir = child (parent path) "_server".

(** The paths that can change when managed code directories are made and
    files called [name] are written into them. *)
Definition managed_output (name : string) (p : Path) : Prop :=
  (∃ dir, p = child dir "_server") ∨ (∃ dir, p = child (child dir "_server") name).

End Managed.

(** ** [create_filzl_app/generation.py] *)

Module Scaffold.
Import Py Builder.

(** The values of the fields of [ProjectMetadata] as [model_dump] hands
    them out. *)
Inductive Value := Str (s : string) | Flag (b : bool) | PathValue (p : Path) | NoneValue.

(** [str(value)] *)
Definition str (v : Value) : string :=
  match v with
  | Str s => s
  | Flag true => "True"
  | Flag false => "False"
  | PathValue p => path_str p
  | NoneValue => "None"
  end.

Record ProjectMetadata := MkProject {
  project_name : string;
  author_name : string;
  author_email : string;
  use_poetry : bool;
  use_tailwind : bool;
  project_path : Path;
  filzl_dev_path : option Path
}.

(** [project_metadata.model_dump()]: a dict in the order of the fields. *)
Definition model_dump (m : ProjectMetadata) : list (string * Value) :=
  [ ("project_name", Str (project_name m));
    ("author_name", Str (author_name m));
    ("author_email", Str (author_email m));
    ("use_poetry", Flag (use_poetry m));
    ("use_tailwind", Flag (use_tailwind m));
    ("project_path", PathValue (project_path m));
    ("filzl_dev_path", from_option PathValue NoneValue (filzl_dev_path m)) ].

Record TemplateOutput := MkOutput {
  content : string;
  path : string
}.

(** [s.replace(old, new)] for an [old] that is not empty: the occurrences of
    [old] are taken from the left and do not overlap; [skip] counts the
    characters of a found occurrence still to be passed over. *)
Fixpoint replace_scan (old new s : string) (skip : nat) : string :=
  match s with
  | EmptyString => EmptyString
  | String c rest =>
      match skip with
      | S k => replace_scan old new rest k
      | O =>
          if String.prefix old s
          then new +:+ replace_scan old new rest (String.length old - 1)
          else String c (replace_scan old new rest 0)
      end
  end.

(** [s.replace("", new)]: [new] goes before every character and at the end. *)
Fixpoint replace_empty (new s : string) : string :=
  match s with
  | EmptyString => new
  | String c rest => new +:+ String c (replace_empty new rest)
  end.

(** [s.replace(old, new)] *)
Definition replace (old new s : string) : string :=
  if decide (old = "") then replace_empty new s else replace_scan old new s 0.

(** [name.split("/")], with [part] the part being read. *)
Fixpoint split_slash (name part : string) : list string :=
  match name with
  | EmptyString => [part]
  | String c rest =>
      if Ascii.eqb c "/" then part :: split_slash rest ""
      else split_slash rest (part +:+ String c "")
  end.

(** The root of [PurePosixPath(name)]: exactly two leading slashes are
    kept, any other number of them is one. *)
Definition root_of (name : string) : option string :=
  match name with
  | String "/" (String "/" (String "/" _)) => Some "/"
  | String "/" (String "/" _) => Some "//"
  | String "/" _ => Some "/"
  | _ => None
  end.

(** The parts of [PurePosixPath(name)] after the root: empty parts and
    [.] are dropped. *)
Definition relative_parts (name : string) : Path :=
  filter (λ part, part ≠ "" ∧ part ≠ ".") (split_slash name "").

(** [base / name] *)
Definition joinpath (base : Path) (name : string) : Path :=
  match root_of name with
  | Some root => root :: relative_parts name
  | None => base ++ relative_parts name
  end.

(** [path.read_text()] *)
Definition read_text (fs : gmap Path Node) (p : Path) : Exn + string :=
  match node_at fs p with
  | Some (File text) => inr text
  | Some Dir => inl (Raise IsADirectoryError [path_str p])
  | None => inl (Raise FileNotFoundError [path_str p])
  end.

(** The collaborators of [format_template] that live in other packages: the
    template directory of [create_filzl_app.templates] and Jinja's
    [Template(text).render(variables)]. *)
Class Templates := {
  get_template_path : string → Path;
  render : string → list (string * Value) → Exn + string
}.

(** The loop over [metadata_variables.items()]. *)
Definition substitute (name : string) (metadata_variables : list (string * Value)) : string :=
  foldl (λ output_name kv, replace ("[" +:+ kv.1 +:+ "]") (str kv.2) output_name)
        name metadata_variables.

Section templates.
Context `{Templates}.

(** [format_template] *)
Definition format_template (fs : gmap Path Node) (name : string) (m : ProjectMetadata)
  : Exn + TemplateOutput :=
  let path := joinpath (get_template_path "project") name in
  if negb (path_exists fs path)
  then inl (Raise FileNotFoundError
              ["Template file " +:+ path_str path +:+ " does not exist"])
  else
    let metadata_variables := model_dump m in
    match read_text fs path with
    | inl e => inl e
    | inr text =>
        match render text metadata_variables with
        | inl e => inl e
        | inr content =>
            inr (MkOutput content (substitute name metadata_variables))
        end
    end.

End templates.

(** A file name as the templates write it: text with placeholders in
    square brackets. *)
Inductive Piece := Text (s : string) | Hole (key : string).

Definition piece_text (p : Piece) : string :=
  match p with
  | Text s => s
  | Hole key => "[" +:+ key +:+ "]"
  end.

Definition pieces_text (pieces : list Piece) : string :=
  foldr (λ p rest, piece_text p +:+ rest) "" pieces.

Fixpoint has_char (c : ascii) (s : string) : bool :=
  match s with
  | EmptyString => false
  | String c' rest => Ascii.eqb c c' || has_char c rest
  end.

(** Text without an opening bracket; keys without any bracket. *)
Definition plain (p : Piece) : Prop :=
  match p with
  | Text s => has_char "[" s = false
  | Hole key => has_char "[" key = false ∧ has_char "]" key = false
  end.

(** [variables.get(key)] *)
Fixpoint variable (key : string) (variables : list (string * Value)) : option Value :=
  match variables with
  | [] => None
  | (key', value) :: rest => if decide (key = key') then Some value else variable key rest
  end.

(** A placeholder with the value of its variable put in; a placeholder of
    no variable stays. *)
Definition fill (variables : list (string * Value)) (p : Piece) : Piece :=
  match p with
  | Text s => Text s
  | Hole key =>
      match variable key variables with
      | Some value => Text (str value)
      | None => Hole key
      end
  end.

End Scaffold.

(** ** A template directory to run the scaffold on *)

Module ScaffoldSamples.
Import Py Builder Scaffold.

(** Templates under [templates/]; rendering hands the text back. *)
Definition sample_templates : Templates :=
  {| get_template_path := λ kind, ["templates"; kind];
     render := λ text _, inr text |}.

Definition template_disk : gmap Path Node :=
  list_to_map
    [ (["templates"], Dir);
      (["templates"; "project"], Dir);
      (["templates"; "project"; "[project_name]"], Dir);
      (["templates"; "project"; "[project_name]"; "[use_poetry]-[license].md"],
       File "# {{project_name}}") ].

Definition sample_project : ProjectMetadata :=
  MkProject "shop" "Ada" "ada@example.com" true false ["work"; "shop"] None.

End ScaffoldSamples.

(** * Properties *)

(** ** The library routines on known values *)

Section known_values.
Import Py Builder Samples.

Example md5_of_nothing : Md5.hexdigest "" = "d41d8cd98f00b204e9800998ecf8427e".
Proof. vm_compute. reflexivity. Qed.

Example md5_of_pangram :
  Md5.hexdigest "The quick brown fox jumps over the lazy dog"
    = "9e107d9d372bb6826bd81d3542a419d6".
Proof. vm_compute. reflexivity. Qed.

Example underscore_of_class_names :
  Inflection.underscore <$> ["Home"; "HomeController"; "HTMLParser"; "Device-Type2X"]
    = ["home"; "home_controller"; "html_parser"; "device_type2_x"].
Proof. vm_compute. reflexivity. Qed.

Example camelize_of_model_names :
  Inflection.camelize <$> ["RenderModel"; "render_model"; "__a_b"]
    = ["RenderModel"; "RenderModel"; "_AB"].
Proof. vm_compute. reflexivity. Qed.

Example parents_of_paths :
  path_str <$> (parent <$> [["/"; "srv"; "views"; "page.tsx"]; ["page.tsx"]; ["/"]; []])
    = ["/srv/views"; "."; "/"; "."].
Proof. vm_compute. reflexivity. Qed.

Example state_key_of_counter : get_controller_global_state counter = "COUNTER_CONTROLLER".
Proof. vm_compute. reflexivity. Qed.

Example hook_of_counter :
  use_server_hook counter "CounterRenderOptional" =
"export const useServer = () => {
const { serverState, setServerState } = useContext(ServerContext);
const setControllerState = (payload: CounterRenderOptional) => {
setServerState((state) => ({
...state,
COUNTER_CONTROLLER: state.COUNTER_CONTROLLER ? {
...state.COUNTER_CONTROLLER,
...payload,
} : undefined
}))
};
return {
...serverState['COUNTER_CONTROLLER'],
increment: applySideEffect(increment, setControllerState),
get_history: get_history}
};".
Proof. vm_compute. reflexivity. Qed.

Example root_models_line_of_home :
  global_model_import home "app/home/_server/models" =
    "export type { RenderModel as HOMERenderModel } from '../app/home/_server/models'".
Proof. vm_compute. reflexivity. Qed.

Example build_of_two_pages :
  (@build sample_collaborators two_pages [1; 0] sample_world).1 = inr tt ∧
  bundled_scripts (@build sample_collaborators two_pages [1; 0] sample_world).2 =
    {[ 1 := ["home-387aba8efd7384733e1ad014a4a2f420.js"];
       2 := ["dashboard-a6b3510857696a66c1f673df5c03aa91.js"] ]}.
Proof. split; vm_compute; reflexivity. Qed.

End known_values.

(** ** Facts about text *)

Section text_facts.
Import Py.

Lemma append_cons (x : ascii) (a b : string) : String x a +:+ b = String x (a +:+ b).
Proof. reflexivity. Qed.

Lemma append_assoc (a b c : string) : (a +:+ b) +:+ c = a +:+ b +:+ c.
Proof. induction a as [|x a IH]; [done|]. by rewrite !append_cons, IH. Qed.

Lemma append_nil_r (a : string) : a +:+ "" = a.
Proof. induction a as [|x a IH]; [done|]. by rewrite append_cons, IH. Qed.

Lemma length_append (a b : string) :
  String.length (a +:+ b) = String.length a + String.length b.
Proof. induction a as [|x a IH]; [done|]. rewrite append_cons. simpl. by rewrite IH. Qed.

(** Text may be cancelled on the left and on the right of an append. *)
Lemma append_inj_l (a b c : string) : a +:+ b = a +:+ c → b = c.
Proof. apply String.app_inj. Qed.

Lemma append_inj_r (a b c : string) : a +:+ c = b +:+ c → a = b.
Proof.
  revert b. induction a as [|x a IH]; intros [|y b]; [done| | |].
  - intros Heq. apply (f_equal String.length) in Heq.
    rewrite !length_append in Heq. simpl in Heq. lia.
  - intros Heq. apply (f_equal String.length) in Heq.
    rewrite !length_append in Heq. simpl in Heq. lia.
  - rewrite !append_cons. intros [= -> Heq]. f_equal. by apply IH.
Qed.

End text_facts.

(** ** The dependencies metaclass *)

Section deps_properties.
Import Py Deps.

Lemma first_staticmethod_some (namespace : Namespace) (attr : string) :
  first_staticmethod namespace = Some attr →
  ∃ fn, (attr, StaticMethod fn) ∈ namespace.
Proof.
  induction namespace as [|[a v] rest IH]; simpl; [done|].
  destruct v; simpl; try (intros Hf; destruct (IH Hf) as [g Hin]; exists g; by right).
  intros [= <-]. exists fn. by left.
Qed.

Lemma first_staticmethod_none (namespace : Namespace) :
  first_staticmethod namespace = None ↔
  ∀ attr v, (attr, v) ∈ namespace → is_staticmethod v = false.
Proof.
  induction namespace as [|[a v] rest IH]; simpl.
  - split; [|done]. intros _ attr v Hin. by apply elem_of_nil in Hin.
  - destruct (is_staticmethod v) eqn:Hv.
    + split; [done|]. intros Hall. specialize (Hall a v (list_elem_of_here _ _)). congruence.
    + rewrite IH. split.
      * intros Hall attr v' [[= -> ->]|Hin]%elem_of_cons; eauto.
      * intros Hall attr v' Hin. apply (Hall attr v'). by right.
Qed.

(** C10. Under [DependenciesBaseMeta], a namespace that holds a static method
    makes class creation raise a [TypeError] whose message quotes the class
    name and the name of a static method of the namespace, and no class is
    returned; a namespace without static methods yields the class built from
    the very name, bases and namespace; and a deprecation warning is emitted
    exactly when the class is not named [DependenciesBase]. *)
Theorem meta_new_rejects_static_methods
    (name : string) (bases : list string) (namespace : Namespace) :
  ((∃ attr v, (attr, v) ∈ namespace ∧ is_staticmethod v = true) →
   ∃ attr fn, (attr, StaticMethod fn) ∈ namespace ∧
     (meta_new name bases namespace).2 =
       inl (Raise TypeError
              ["Static methods are not allowed in dependency wrapper '" +:+ name
               +:+ "'. Found static method: '" +:+ attr +:+ "'."])) ∧
  ((∀ attr v, (attr, v) ∈ namespace → is_staticmethod v = false) →
   (meta_new name bases namespace).2 = inr (MkClass name bases namespace)) ∧
  (name ≠ "DependenciesBase" →
   (meta_new name bases namespace).1 = [DeprecationWarning deprecation_message]) ∧
  (name = "DependenciesBase" → (meta_new name bases namespace).1 = []).
Proof.
  unfold meta_new. repeat split.
  - intros (attr & v & Hin & Hv).
    destruct (first_staticmethod namespace) as [found|] eqn:Hfirst.
    + destruct (first_staticmethod_some _ _ Hfirst) as [fn Hfn].
      exists found, fn. split; [done|]. reflexivity.
    + rewrite first_staticmethod_none in Hfirst.
      rewrite (Hfirst _ _ Hin) in Hv. discriminate.
  - intros Hall. apply first_staticmethod_none in Hall. by rewrite Hall.
  - intros Hname. destruct (decide (name = "DependenciesBase")); [done|].
    by destruct (first_staticmethod namespace).
  - intros Hname. destruct (decide (name = "DependenciesBase")); [|done].
    by destruct (first_staticmethod namespace).
Qed.

Lemma meta_new_rejects_static_methods_witness :
  (∃ attr fn,
     (attr, StaticMethod fn) ∈ [("label", Data "'db'"); ("get_db", StaticMethod "get_db")] ∧
     (meta_new "DatabaseDependencies" ["DependenciesBase"]
        [("label", Data "'db'"); ("get_db", StaticMethod "get_db")]).2 =
       inl (Raise TypeError
              ["Static methods are not allowed in dependency wrapper '"
               +:+ "DatabaseDependencies" +:+ "'. Found static method: '" +:+ attr +:+ "'."])) ∧
  (meta_new "DependenciesBase" [] [("__module__", Data "'base'")]).2 =
    inr (MkClass "DependenciesBase" [] [("__module__", Data "'base'")]) ∧
  (meta_new "DatabaseDependencies" ["DependenciesBase"] []).1 =
    [DeprecationWarning deprecation_message] ∧
  (meta_new "DependenciesBase" [] []).1 = [].
Proof.
  split; [|split; [|split]].
  - apply (meta_new_rejects_static_methods "DatabaseDependencies" ["DependenciesBase"]
             [("label", Data "'db'"); ("get_db", StaticMethod "get_db")]).
    exists "get_db", (StaticMethod "get_db"). split; [|reflexivity].
    apply list_elem_of_In. simpl. auto.
  - apply (meta_new_rejects_static_methods "DependenciesBase" []
             [("__module__", Data "'base'")]).
    intros attr v Hin. apply list_elem_of_In in Hin. simpl in Hin.
    destruct Hin as [[= <- <-]|[]]. reflexivity.
  - apply (meta_new_rejects_static_methods "DatabaseDependencies" ["DependenciesBase"] []).
    discriminate.
  - apply (meta_new_rejects_static_methods "DependenciesBase" [] []). reflexivity.
Defined.

End deps_properties.

(** ** The process-wide engine cache *)

Section db_properties.
Import Py Db Samples.

Lemma engine_from_config_unset (cfg : DatabaseConfig) (force_new : bool) (p : Process) :
  uri_set cfg = None →
  engine_from_config cfg force_new p =
    (inl (Raise RuntimeError ["No SQLALCHEMY_DATABASE_URI set: " +:+ config_repr cfg]), p).
Proof. intros Hunset. unfold engine_from_config. by rewrite Hunset. Qed.

(** A hit leaves the process as it is. *)
Lemma engine_from_config_hit (cfg : DatabaseConfig) (uri : string) (e : AsyncEngine)
    (p : Process) :
  uri_set cfg = Some uri →
  GLOBAL_ENGINE p !! uri = Some e →
  engine_from_config cfg false p = (inr e, p).
Proof.
  intros Huri Hcached. unfold engine_from_config. rewrite Huri. simpl.
  rewrite bool_decide_eq_true_2 by (by rewrite Hcached). simpl. by rewrite Hcached.
Qed.

(** A miss, or [force_new], stores a newly made engine. *)
Lemma engine_from_config_create (cfg : DatabaseConfig) (uri : string) (force_new : bool)
    (p : Process) :
  uri_set cfg = Some uri →
  force_new = true ∨ GLOBAL_ENGINE p !! uri = None →
  ∃ e, engine_from_config cfg force_new p =
         (inr e, MkProcess (<[uri := e]> (GLOBAL_ENGINE p)) (S (next_engine p)) (disposed p))
       ∧ engine_id e = next_engine p ∧ engine_url e = uri.
Proof.
  intros Huri Hwhy. unfold engine_from_config. rewrite Huri.
  assert (force_new || negb (bool_decide (is_Some (GLOBAL_ENGINE p !! uri))) = true) as ->.
  { destruct Hwhy as [->|Hmiss]; [done|]. rewrite Hmiss.
    rewrite bool_decide_eq_false_2 by (by intros [? ?]). by rewrite orb_true_r. }
  simpl. rewrite lookup_insert_eq. eexists. split; [reflexivity|done].
Qed.

(** Whatever it returns is what the dict holds for the URI afterwards. *)
Lemma engine_from_config_cached (cfg : DatabaseConfig) (uri : string) (force_new : bool)
    (p p' : Process) (e : AsyncEngine) :
  uri_set cfg = Some uri →
  engine_from_config cfg force_new p = (inr e, p') →
  GLOBAL_ENGINE p' !! uri = Some e.
Proof.
  intros Huri. unfold engine_from_config. rewrite Huri.
  destruct (force_new || negb (bool_decide (is_Some (GLOBAL_ENGINE p !! uri)))) eqn:Hnew; simpl.
  - rewrite lookup_insert_eq. intros [= <- <-]. simpl. by rewrite lookup_insert_eq.
  - destruct (GLOBAL_ENGINE p !! uri) as [e'|] eqn:Hcached; [|done].
    by intros [= <- <-].
Qed.

Lemma serve_keeps (uri : string) (r : Request) (p : Process) :
  keeps uri r →
  is_Some (GLOBAL_ENGINE p !! uri) →
  GLOBAL_ENGINE (serve r p) !! uri = GLOBAL_ENGINE p !! uri.
Proof.
  destruct r as [cfg force_new|]; simpl; [|done].
  intros Hkeeps Hcached. unfold engine_from_config.
  destruct (uri_set cfg) as [uri'|] eqn:Huri'; [|done].
  destruct (force_new || negb (bool_decide (is_Some (GLOBAL_ENGINE p !! uri')))) eqn:Hnew;
    simpl.
  - rewrite lookup_insert_eq. simpl. apply lookup_insert_ne. intros ->.
    apply orb_true_iff in Hnew as [->|Hmiss]; [by apply Hkeeps|].
    apply negb_true_iff, bool_decide_eq_false in Hmiss. done.
  - by destruct (GLOBAL_ENGINE p !! uri').
Qed.

Lemma serve_all_keeps (uri : string) (rs : list Request) (p : Process) :
  Forall (keeps uri) rs →
  is_Some (GLOBAL_ENGINE p !! uri) →
  GLOBAL_ENGINE (serve_all rs p) !! uri = GLOBAL_ENGINE p !! uri.
Proof.
  intros Hall. revert p. induction Hall as [|r rs Hr _ IH]; intros p Hcached; [done|].
  unfold serve_all in *. simpl. rewrite IH.
  - by apply serve_keeps.
  - by rewrite serve_keeps.
Qed.

Lemma disposed_after_fold (engines : list AsyncEngine) (done : gset nat) (n : nat) :
  n ∈ foldl (λ done engine, {[engine_id engine]} ∪ done) done engines ↔
  n ∈ done ∨ ∃ e, e ∈ engines ∧ engine_id e = n.
Proof.
  revert done. induction engines as [|e rest IH]; intros done; simpl.
  - split; [auto|]. intros [?|(e & Hin & _)]; [done|]. by apply elem_of_nil in Hin.
  - rewrite IH. rewrite elem_of_union, elem_of_singleton. split.
    + intros [[->|?]|(e' & Hin & <-)]; eauto using list_elem_of_here, list_elem_of_further.
    + intros [?|(e' & [->|Hin]%elem_of_cons & <-)]; eauto.
Qed.

(** C9. With the connection URI set, a call that finds no engine for the URI
    makes one (a new object) and stores it; from then on every call for that
    URI without [force_new] returns that same object and changes nothing,
    however many other lookups came in between that did not force a new
    engine for this URI; a call with the URI unset raises a [RuntimeError]
    and changes nothing; and the shutdown hook leaves the cache empty with
    every engine that was cached disposed. *)
Theorem engine_cache_lifecycle (cfg : DatabaseConfig) (p : Process) :
  (∀ uri, uri_set cfg = Some uri → GLOBAL_ENGINE p !! uri = None →
     ∃ e, engine_from_config cfg false p =
            (inr e, MkProcess (<[uri := e]> (GLOBAL_ENGINE p)) (S (next_engine p)) (disposed p))
          ∧ engine_id e = next_engine p) ∧
  (∀ uri force_new e p1 rs cfg',
     uri_set cfg = Some uri →
     engine_from_config cfg force_new p = (inr e, p1) →
     Forall (keeps uri) rs →
     uri_set cfg' = Some uri →
     engine_from_config cfg' false (serve_all rs p1) = (inr e, serve_all rs p1)) ∧
  (∀ force_new, uri_set cfg = None →
     ∃ msg, engine_from_config cfg force_new p = (inl (Raise RuntimeError [msg]), p)) ∧
  (GLOBAL_ENGINE (unregister_global_engine p) = ∅ ∧
   ∀ uri e, GLOBAL_ENGINE p !! uri = Some e →
            engine_id e ∈ disposed (unregister_global_engine p)).
Proof.
  split; [|split; [|split; [|split]]].
  - intros uri Huri Hmiss.
    destruct (engine_from_config_create cfg uri false p Huri (or_intror Hmiss))
      as (e & Hcall & Hid & _).
    by exists e.
  - intros uri force_new e p1 rs cfg' Huri Hcall Hkeeps Huri'.
    pose proof (engine_from_config_cached _ _ _ _ _ _ Huri Hcall) as Hcached.
    apply (engine_from_config_hit cfg' uri); [done|].
    rewrite serve_all_keeps; [done|done|by rewrite Hcached].
  - intros force_new Hunset. eexists. by apply engine_from_config_unset.
  - reflexivity.
  - intros uri e Hcached. unfold unregister_global_engine. simpl.
    apply disposed_after_fold. right. exists e. split; [|done].
    apply list_elem_of_fmap. exists (uri, e). split; [done|].
    by apply elem_of_map_to_list.
Qed.

Lemma engine_cache_lifecycle_witness :
  let first := engine_from_config sample_config false start in
  let later := serve_all [Lookup other_config true; Lookup sample_config false] first.2 in
  (∃ e, first = (inr e, MkProcess (<["postgresql+asyncpg://app@db/main" := e]> ∅) 1 ∅)
        ∧ engine_id e = 0) ∧
  engine_from_config sample_config false later =
    (inr (MkEngine 0 "postgresql+asyncpg://app@db/main" AsyncAdaptedQueuePool), later) ∧
  (∃ msg, engine_from_config unset_config false start = (inl (Raise RuntimeError [msg]), start)) ∧
  GLOBAL_ENGINE (unregister_global_engine later) = ∅ ∧
  0 ∈ disposed (unregister_global_engine first.2).
Proof.
  pose proof (engine_cache_lifecycle sample_config start) as (Hmake & Hsame & _ & _).
  pose proof (engine_cache_lifecycle unset_config start) as (_ & _ & Hunset & _).
  split; [|split; [|split; [|split]]].
  - apply Hmake; reflexivity.
  - apply Hsame with (uri := "postgresql+asyncpg://app@db/main") (force_new := false);
      try reflexivity.
    apply Forall_cons; split; [intros _; vm_compute; discriminate|].
    apply Forall_cons; split; [intros [=]|constructor].
  - apply Hunset. reflexivity.
  - apply (engine_cache_lifecycle sample_config
             (serve_all [Lookup other_config true; Lookup sample_config false]
                (engine_from_config sample_config false start).2)).
  - apply (engine_cache_lifecycle sample_config (engine_from_config sample_config false start).2)
      with (uri := "postgresql+asyncpg://app@db/main")
           (e := MkEngine 0 "postgresql+asyncpg://app@db/main" AsyncAdaptedQueuePool).
    reflexivity.
Defined.

End db_properties.

(** ** Effects on the world *)

Section world_facts.
Import Py Builder.

Lemma bind_inr {A B} (m : M A) (k : A → M B) (w w' : World) (b : B) :
  bind m k w = (inr b, w') →
  ∃ a w1, m w = (inr a, w1) ∧ k a w1 = (inr b, w').
Proof.
  unfold bind. destruct (m w) as [[e|a] w1]; [done|]. intros Hk. by exists a, w1.
Qed.

Lemma bind_inl {A B} (m : M A) (k : A → M B) (w w1 : World) (e : Exn) :
  m w = (inl e, w1) → bind m k w = (inl e, w1).
Proof. unfold bind. by intros ->. Qed.

Lemma bind_run {A B} (m : M A) (k : A → M B) (w w1 : World) (a : A) :
  m w = (inr a, w1) → bind m k w = k a w1.
Proof. unfold bind. by intros ->. Qed.

(** A loop that ran to its end ran its body to the end for every element. *)
Lemma for_each_inr {A} (xs : list A) (body : A → M unit) (w w' : World) (x : A) :
  for_each xs body w = (inr tt, w') → x ∈ xs →
  ∃ w1 w2, body x w1 = (inr tt, w2).
Proof.
  revert w. induction xs as [|y xs IH]; intros w Hrun Hin; [by apply elem_of_nil in Hin|].
  simpl in Hrun. apply bind_inr in Hrun as ([] & w1 & Hbody & Hrest).
  apply elem_of_cons in Hin as [->|Hin]; [by exists w, w1|]. by apply (IH w1).
Qed.

Lemma write_text_inr (p : Path) (text : string) (w w' : World) :
  write_text p text w = (inr tt, w') →
  w' = MkWorld (<[p := File text]> (disk w)) (bundled_scripts w).
Proof.
  unfold write_text, bind, read_disk, set_disk, raise.
  destruct (node_at (disk w) (parent p)) as [[|?]|]; [|done|done].
  destruct (node_at (disk w) p) as [[|?]|]; [done| |]; by intros [= <-].
Qed.

Lemma mkdir_exist_ok_inr (p : Path) (w w' : World) :
  mkdir_exist_ok p w = (inr tt, w') →
  w' = w ∨ w' = MkWorld (<[p := Dir]> (disk w)) (bundled_scripts w).
Proof.
  unfold mkdir_exist_ok, bind, read_disk, set_disk, raise, ret.
  destruct (node_at (disk w) p) as [[|?]|]; [intros [= <-]; by left|done|].
  destruct (node_at (disk w) (parent p)) as [[|?]|]; [|done|done].
  intros [= <-]. by right.
Qed.

(** The managed directory lies under the path, or under its parent when the
    path is a file; at most that directory is added. *)
Lemma get_managed_dir_common_inr (path : Path) (managed_dir : string) (w w' : World)
    (dir : Path) :
  get_managed_dir_common path managed_dir w = (inr dir, w') →
  dir = child (if is_file (disk w) path then parent path else path) managed_dir ∧
  (w' = w ∨ w' = MkWorld (<[dir := Dir]> (disk w)) (bundled_scripts w)).
Proof.
  unfold get_managed_dir_common. intros Hrun.
  apply bind_inr in Hrun as (fs & w1 & [= <- <-] & Hrun).
  apply bind_inr in Hrun as ([] & w2 & Hmk & [= <- <-]).
  split; [done|]. by apply mkdir_exist_ok_inr.
Qed.

End world_facts.

(** ** Dictionaries and their sorted items *)

Section dict_facts.
Import Py Builder.




(** With distinct keys, the items are the graph of [dict_get]. *)
Lemma dict_get_Some (k v : string) (d : list (string * string)) :
  NoDup d.*1 → dict_get k d = Some v ↔ (k, v) ∈ d.
Proof.
  induction d as [|[k0 v0] rest IH]; simpl.
  - intros _. split; [done|]. intros Hin. by apply elem_of_nil in Hin.
  - rewrite NoDup_cons. intros [Hfresh Hrest]. rewrite elem_of_cons.
    destruct (decide (k = k0)) as [->|Hne].
    + split; [intros [= ->]; by left|].
      intros [[= ->]|Hin]; [done|]. destruct Hfresh.
      apply list_elem_of_fmap. by exists (k0, v).
    + rewrite IH by done. split; [auto|]. by intros [[= -> ->]|Hin].
Qed.



Lemma sorted_items_perm (d : list (string * string)) : sorted_items d ≡ₚ d.
Proof. apply merge_sort_Permutation. Qed.

Lemma sorted_items_sorted (d : list (string * string)) :
  StronglySorted key_le (sorted_items d).
Proof. apply StronglySorted_merge_sort; apply _. Qed.


(** The sorted items do not depend on the order of insertion. *)
Lemma sorted_items_order_free (d d' : list (string * string)) :
  NoDup d.*1 → d' ≡ₚ d → sorted_items d' = sorted_items d.
Proof.
  intros Hnodup Hperm.
  apply (StronglySorted_unique_strong key_le); try apply sorted_items_sorted.
  - intros [k1 v1] [k2 v2] Hin1 Hin2 Hle1 Hle2. unfold key_le in *. simpl in *.
    assert (k1 = k2) as -> by (by apply (anti_symm String.le)).
    f_equal. rewrite sorted_items_perm in Hin1, Hin2. rewrite Hperm in Hin1.
    apply (dict_get_Some _ _ _ Hnodup) in Hin1, Hin2. congruence.
  - by rewrite !sorted_items_perm.
Qed.

End dict_facts.

(** ** The source-map reference and the content hash *)

Section bundler_helper_facts.
Import Py JsBundler.

Lemma split_lines_line (line : string) :
  newline_free line = true → split_lines line = [line].
Proof.
  induction line as [|c line IH]; [done|]. simpl.
  intros [Hc Hfree]%andb_true_iff. apply negb_true_iff in Hc.
  by rewrite Hc, (IH Hfree).
Qed.

Lemma split_lines_cons (line rest : string) :
  newline_free line = true →
  split_lines (line +:+ nl +:+ rest) = line :: split_lines rest.
Proof.
  induction line as [|c line IH]; [done|]. simpl newline_free.
  intros [Hc Hfree]%andb_true_iff. apply negb_true_iff in Hc.
  rewrite append_cons. simpl. by rewrite Hc, (IH Hfree).
Qed.

Lemma split_lines_join (lines : list string) :
  lines ≠ [] →
  Forall (λ line, newline_free line = true) lines →
  split_lines (join nl lines) = lines.
Proof.
  induction lines as [|line [|next rest] IH]; [done| |].
  - intros _ Hall. apply split_lines_line. by inversion Hall.
  - intros _ Hall. inversion Hall as [|? ? Hline Hrest]; subst.
    change (join nl (line :: next :: rest)) with (line +:+ nl +:+ join nl (next :: rest)).
    rewrite split_lines_cons by done. f_equal. by apply IH.
Qed.

Lemma split_lines_newline_free (text : string) :
  Forall (λ line, newline_free line = true) (split_lines text).
Proof.
  induction text as [|c text IH]; simpl; [by repeat constructor|].
  destruct (Inflection.is_newline c) eqn:Hc; [by constructor|].
  destruct (split_lines text) as [|line lines].
  - constructor; [|constructor]. simpl. by rewrite Hc.
  - inversion IH as [|? ? Hline Hlines]; subst. constructor; [|done].
    simpl. by rewrite Hc.
Qed.

Lemma split_lines_not_nil (text : string) : split_lines text ≠ [].
Proof.
  destruct text as [|c text]; simpl; [done|].
  destruct (Inflection.is_newline c); [done|]. by destruct (split_lines text).
Qed.

Lemma newline_free_append (a b : string) :
  newline_free (a +:+ b) = newline_free a && newline_free b.
Proof.
  induction a as [|c a IH]; [done|]. rewrite append_cons. simpl.
  by rewrite IH, andb_assoc.
Qed.

Lemma prefix_append (a b : string) : String.prefix a (a +:+ b) = true.
Proof.
  induction a as [|c a IH]; [by destruct b|]. rewrite append_cons. simpl.
  by destruct (ascii_dec c c).
Qed.

(** Rewriting the reference of a script leaves its cleaned text as it was. *)
Lemma cleaned_after_update (contents new_path : string) :
  newline_free new_path = true →
  get_cleaned_js_contents (update_source_map_path contents new_path)
    = get_cleaned_js_contents contents.
Proof.
  intros Hpath. unfold get_cleaned_js_contents, update_source_map_path.
  rewrite split_lines_join.
  - f_equal. induction (split_lines contents) as [|line lines IH]; [done|].
    rewrite fmap_cons, !filter_cons, IH.
    destruct (is_reference line) eqn:Href.
    + rewrite (decide_False (P := true = false)) by done.
      rewrite decide_False; [done|]. unfold is_reference. by rewrite prefix_append.
    + by rewrite !decide_True.
  - intros Hnil. apply fmap_nil_inv in Hnil. by apply split_lines_not_nil in Hnil.
  - apply Forall_fmap. eapply Forall_impl; [apply split_lines_newline_free|].
    intros line Hline. simpl. destruct (is_reference line); [|done].
    by rewrite newline_free_append, Hpath.
Qed.

End bundler_helper_facts.

Section hash_properties.
Import Py Builder.
Context `{Collaborators}.

Lemma script_name_digest (c : Controller) (contents contents' : string) :
  script_name c contents = script_name c contents' ↔
  content_hash contents = content_hash contents'.
Proof.
  unfold script_name. split; [|by intros ->].
  intros Heq. apply append_inj_l, append_inj_l in Heq. by apply append_inj_r in Heq.
Qed.

Lemma name_not_its_map (name : string) : name ≠ name +:+ ".map".
Proof.
  intros Heq. apply (f_equal String.length) in Heq.
  rewrite length_append in Heq. simpl in Heq. lia.
Qed.

(** What a build thread that ran to its end has left behind. *)
Lemma spawn_builder_inr (app : App) (static_dir : Path) (c : Controller) (w w' : World) :
  spawn_builder app static_dir c w = (inr tt, w') →
  ∃ contents map_contents,
    bundle_javascript (disk w) (view_path c) (view_root app) = inr (contents, map_contents) ∧
    disk w' !! child static_dir (script_name c contents) =
      Some (File (update_source_map_path contents (map_name c contents))) ∧
    disk w' !! child static_dir (map_name c contents) = Some (File map_contents) ∧
    bundled_scripts w' !! ctrl_id c =
      Some (default [] (bundled_scripts w !! ctrl_id c) ++ [script_name c contents]).
Proof.
  unfold spawn_builder. intros Hrun.
  apply bind_inr in Hrun as (fs & w1 & [= <- <-] & Hrun).
  apply bind_inr in Hrun as ([contents map_contents] & w1 & Hbundle & Hrun).
  unfold lift in Hbundle. injection Hbundle as Hbundle <-.
  apply bind_inr in Hrun as ([] & w2 & Hscript & Hrun).
  apply bind_inr in Hrun as ([] & w3 & Hmap & Hrun).
  apply write_text_inr in Hscript as ->. apply write_text_inr in Hmap as ->.
  unfold append_script in Hrun. injection Hrun as <-. simpl in *.
  exists contents, map_contents. split; [done|]. split; [|split].
  - rewrite lookup_insert_ne; [by rewrite lookup_insert_eq|].
    unfold child, map_name. intros Heq. apply app_inj_tail in Heq as [_ Heq].
    symmetry in Heq. by apply name_not_its_map in Heq.
  - by rewrite lookup_insert_eq.
  - by rewrite lookup_insert_eq.
Qed.

(** C4, as the code has it. The script of a build unit is named after the
    controller's slug and the MD5 digest of the script text with the
    source-map reference stripped, and its map after the script; two texts
    with the same stripped text get the same names; for one controller the
    names of two texts agree exactly when the digests of their stripped texts
    agree; with the helpers as the spec describes them, rewriting the
    reference changes no name; and these are the names a build thread writes
    to and appends to the controller's script list. *)
Theorem script_name_from_stripped_digest (c : Controller) (contents contents' : string) :
  script_name c contents =
    Inflection.underscore (class_name c) +:+ "-"
    +:+ Md5.hexdigest (get_cleaned_js_contents contents) +:+ ".js" ∧
  map_name c contents = script_name c contents +:+ ".map" ∧
  (get_cleaned_js_contents contents = get_cleaned_js_contents contents' →
   script_name c contents = script_name c contents' ∧
   map_name c contents = map_name c contents') ∧
  (script_name c contents = script_name c contents' ↔
   Md5.hexdigest (get_cleaned_js_contents contents)
     = Md5.hexdigest (get_cleaned_js_contents contents')) ∧
  (∀ new_path, JsBundler.newline_free new_path = true →
     @script_name (JsBundler.with_helpers H) c
        (JsBundler.update_source_map_path contents new_path)
       = @script_name (JsBundler.with_helpers H) c contents) ∧
  (∀ app static_dir w w',
     spawn_builder app static_dir c w = (inr tt, w') →
     ∃ contents map_contents,
       bundle_javascript (disk w) (view_path c) (view_root app) = inr (contents, map_contents) ∧
       disk w' !! child static_dir (script_name c contents) =
         Some (File (update_source_map_path contents (map_name c contents))) ∧
       disk w' !! child static_dir (map_name c contents) = Some (File map_contents) ∧
       bundled_scripts w' !! ctrl_id c =
         Some (default [] (bundled_scripts w !! ctrl_id c) ++ [script_name c contents])).
Proof.
  split; [reflexivity|]. split; [reflexivity|]. split; [|split; [|split]].
  - intros Hclean. unfold map_name, script_name, content_hash. by rewrite Hclean.
  - apply script_name_digest.
  - intros new_path Hpath. unfold script_name, content_hash. simpl.
    by rewrite cleaned_after_update.
  - intros app static_dir w w'. apply spawn_builder_inr.
Qed.

End hash_properties.

Section hash_witnesses.
Import Py Builder Samples.

Lemma script_name_from_stripped_digest_witness :
  let first := "render(home);" +:+ nl +:+ "//# sourceMappingURL=out.js.map" in
  let second := "render(home);" +:+ nl +:+ "//# sourceMappingURL=home-1f3a.js.map" in
  let before := MkWorld (<[ ["views"; "_static"] := Dir ]> sample_disk) ∅ in
  let after := (@spawn_builder sample_collaborators two_pages ["views"; "_static"] home before).2 in
  (@script_name sample_collaborators home first = @script_name sample_collaborators home second ∧
   @map_name sample_collaborators home first = @map_name sample_collaborators home second) ∧
  @script_name (JsBundler.with_helpers sample_collaborators) home
    (JsBundler.update_source_map_path first "home-1f3a.js.map")
    = @script_name (JsBundler.with_helpers sample_collaborators) home first ∧
  ∃ contents map_contents,
    @bundle_javascript sample_collaborators (disk before) (view_path home) (view_root two_pages)
      = inr (contents, map_contents) ∧
    disk after !! child ["views"; "_static"] (@script_name sample_collaborators home contents)
      = Some (File (@update_source_map_path sample_collaborators contents
                      (@map_name sample_collaborators home contents))) ∧
    disk after !! child ["views"; "_static"] (@map_name sample_collaborators home contents)
      = Some (File map_contents) ∧
    bundled_scripts after !! ctrl_id home =
      Some (default [] (bundled_scripts before !! ctrl_id home)
              ++ [@script_name sample_collaborators home contents]).
Proof.
  intros first second before after.
  pose proof (@script_name_from_stripped_digest sample_collaborators home first second)
    as (_ & _ & Hsame & _ & Hrewrite & Hspawn).
  split; [|split].
  - apply Hsame. vm_compute. reflexivity.
  - apply Hrewrite. vm_compute. reflexivity.
  - apply Hspawn. vm_cast_no_check (eq_refl (inr (B := unit) (A := Exn) tt, after)).
Defined.

(** C4 as claimed does not hold: two script texts that differ, with and
    without their source-map references, get the same file name, because the
    MD5 digests of the two stripped texts are the same. *)
Lemma distinct_scripts_share_a_name :
  let first := "TEXTCOLLBYfGiJUETHQ4hAcKSMd5zYpgqf1YRDhkmxHkhPWptrkoyz28wnI9V0aHeAuaKnak" in
  let second := "TEXTCOLLBYfGiJUETHQ4hEcKSMd5zYpgqf1YRDhkmxHkhPWptrkoyz28wnI9V0aHeAuaKnak" in
  ¬ (first ≠ second →
     @get_cleaned_js_contents sample_collaborators first
       ≠ @get_cleaned_js_contents sample_collaborators second →
     @script_name sample_collaborators home first
       ≠ @script_name sample_collaborators home second).
Proof.
  intros first second Hclaim. apply Hclaim.
  - intros Heq. discriminate Heq.
  - vm_compute. intros Heq. discriminate Heq.
  - vm_compute. reflexivity.
Qed.

End hash_witnesses.

(** ** The build threads *)

Section thread_properties.
Import Py Builder.
Context `{Collaborators} (app : App) (static_dir : Path).

Lemma step_joined (o o' : Orchestrator) :
  step app static_dir o o' → joined app o → joined app o'.
Proof.
  destruct 1 as [k ts w Hk|ts w|ph ts w i d Hrunning Hd|k ts w outcome Hdone|ts w];
    unfold joined; simpl.
  - done.
  - intros _ i Hi. lia.
  - assert (∀ j, (∃ outcome, ts !! j = Some (Finished outcome)) →
                 ∃ outcome, <[i := Finished
                   (run_thread (spawn_builder app static_dir (controller d)) w).1]> ts !! j
                   = Some (Finished outcome)) as Hkeep.
    { intros j [outcome Hj]. destruct (decide (i = j)) as [->|Hne].
      - eexists. apply list_lookup_insert_eq. by eapply lookup_lt_Some.
      - exists outcome. by rewrite list_lookup_insert_ne. }
    destruct ph; [done| |]; intros Hall j Hj; by apply Hkeep, Hall.
  - intros Hall i Hi. destruct (decide (i = k)) as [->|Hne]; [by exists outcome|].
    apply Hall. lia.
  - done.
Qed.

Lemma run_joined (o o' : Orchestrator) :
  rtc (step app static_dir) o o' → joined app o → joined app o'.
Proof. induction 1 as [|o o1 o' Hstep _ IH]; [done|]. intros Ho. by apply IH, (step_joined o). Qed.

(** The main thread can start every thread. *)
Lemma run_starts (w : World) (k : nat) :
  (k ≤ length (controllers app))%nat →
  ∃ ts, rtc (step app static_dir) (dispatch app w) (MkOrchestrator (Dispatching k) ts w) ∧
        length ts = length (controllers app) ∧
        ∀ i, i < k → ts !! i = Some Running.
Proof.
  induction k as [|k IH]; intros Hk.
  - exists (replicate (length (controllers app)) NotStarted).
    split; [apply rtc_refl|]. split; [apply length_replicate|]. intros i Hi. lia.
  - destruct IH as (ts & Hrun & Hlen & Hstarted); [lia|].
    exists (<[k := Running]> ts). split; [|split].
    + eapply rtc_r; [exact Hrun|]. by apply step_start.
    + by rewrite length_insert.
    + intros i Hi. destruct (decide (i = k)) as [->|Hne].
      * apply list_lookup_insert_eq. lia.
      * rewrite list_lookup_insert_ne by done. apply Hstarted. lia.
Qed.

(** The started threads can run in any order. *)
Lemma run_units (ph : Phase) (sched : list nat) (ts : list ThreadState) (w : World) :
  NoDup sched →
  (∀ i, i ∈ sched → i < length (controllers app) ∧ ts !! i = Some Running) →
  ∃ ts', rtc (step app static_dir) (MkOrchestrator ph ts w)
             (MkOrchestrator ph ts' (run_threads app static_dir sched w).2) ∧
         (∀ i, i ∈ sched → ∃ outcome, ts' !! i = Some (Finished outcome)) ∧
         (∀ i, i ∉ sched → ts' !! i = ts !! i).
Proof.
  revert ts w. induction sched as [|i sched IH]; intros ts w Hnodup Hready.
  - exists ts. split; [apply rtc_refl|]. split; [|done].
    intros i Hi. by apply elem_of_nil in Hi.
  - apply NoDup_cons in Hnodup as [Hfresh Hnodup].
    destruct (Hready i) as [Hi Hrunning]; [left|].
    destruct (lookup_lt_is_Some_2 (controllers app) i Hi) as [d Hd].
    set (outcome := (run_thread (spawn_builder app static_dir (controller d)) w).1).
    set (w1 := (run_thread (spawn_builder app static_dir (controller d)) w).2).
    destruct (IH (<[i := Finished outcome]> ts) w1 Hnodup) as (ts' & Hrun & Hdone & Hrest).
    { intros j Hj. destruct (Hready j) as [? ?]; [by right|]. split; [done|].
      rewrite list_lookup_insert_ne; [done|]. by intros ->. }
    exists ts'. split; [|split].
    + eapply rtc_l; [by apply (step_unit app static_dir ph ts w i d)|].
      replace (run_threads app static_dir (i :: sched) w).2
        with (run_threads app static_dir sched w1).2; [exact Hrun|].
      unfold run_threads. simpl. by rewrite Hd.
    + intros j [->|Hj]%elem_of_cons; [|by apply Hdone].
      rewrite (Hrest i Hfresh). eexists. apply list_lookup_insert_eq.
      by eapply lookup_lt_Some.
    + intros j [Hne Hj]%not_elem_of_cons. rewrite (Hrest j Hj).
      by rewrite list_lookup_insert_ne.
Qed.

(** Once every thread has finished, the joins go through. *)
Lemma run_joins (ts : list ThreadState) (w : World) (k : nat) :
  (k ≤ length (controllers app))%nat →
  (∀ i, i < length (controllers app) → ∃ outcome, ts !! i = Some (Finished outcome)) →
  rtc (step app static_dir) (MkOrchestrator (Joining 0) ts w) (MkOrchestrator (Joining k) ts w).
Proof.
  intros Hk Hall. induction k as [|k IH]; [apply rtc_refl|].
  eapply rtc_r; [apply IH; lia|].
  destruct (Hall k) as [outcome Hdone]; [lia|]. by eapply step_join.
Qed.

(** C5, as the code has it. However the threads of a build interleave, the
    call returns only when every dispatched thread has finished, with or
    without an exception, and it then returns normally; such a run exists
    for every order in which the threads may get to run, and leaves the world
    that running the units in that order gives; [build_javascript_chunks]
    returns normally once the static directory has been cleared; and a thread
    whose bundler call raises ends with that exception and changes
    nothing. *)
Theorem build_joins_every_thread (w : World) :
  (∀ o, rtc (step app static_dir) (dispatch app w) o → phase o = Returned →
        (∀ i, i < length (controllers app) →
              ∃ outcome, threads o !! i = Some (Finished outcome)) ∧
        run_result o = Some (inr tt)) ∧
  (∀ sched, sched ≡ₚ seq 0 (length (controllers app)) →
     ∃ ts, rtc (step app static_dir) (dispatch app w)
             (MkOrchestrator Returned ts (run_threads app static_dir sched w).2)) ∧
  (∀ sched w0,
     clear_static_dir app w0 = (inr static_dir, w) →
     build_javascript_chunks app sched w0 =
       (inr tt, (run_threads app static_dir sched w).2)) ∧
  (∀ c e,
     bundle_javascript (disk w) (view_path c) (view_root app) = inl e →
     run_thread (spawn_builder app static_dir c) w = (inl e, w)).
Proof.
  split; [|split; [|split]].
  - intros o Hrun Hphase.
    pose proof (run_joined _ _ Hrun I) as Hjoined.
    unfold joined, run_result in *. rewrite Hphase in *. done.
  - intros sched Hperm.
    destruct (run_starts w (length (controllers app))) as (ts & Hstarts & Hlen & Hstarted);
      [done|].
    destruct (run_units (Joining 0) sched ts w) as (ts' & Hunits & Hdone & _).
    { rewrite Hperm. apply NoDup_seq. }
    { intros i Hi. rewrite Hperm in Hi. apply elem_of_seq in Hi.
      split; [lia|]. apply Hstarted. lia. }
    exists ts'.
    etrans; [exact Hstarts|].
    eapply rtc_l; [apply step_started|].
    etrans; [exact Hunits|].
    eapply rtc_r; [|apply step_return].
    apply run_joins; [done|]. intros i Hi. apply Hdone. rewrite Hperm.
    apply elem_of_seq. lia.
  - intros sched w0 Hclear. unfold build_javascript_chunks.
    by rewrite (bind_run _ _ _ _ _ Hclear).
  - intros c e Hbundle. unfold run_thread, spawn_builder, bind, read_disk, lift.
    by rewrite Hbundle.
Qed.

End thread_properties.

Section thread_witnesses.
Import Py Builder Samples.

Lemma build_joins_every_thread_witness :
  let cleared := MkWorld (<[ ["views"; "_static"] := Dir ]> sample_disk) ∅ in
  (∃ ts, rtc (@step sample_collaborators two_pages ["views"; "_static"])
           (dispatch two_pages cleared)
           (MkOrchestrator Returned ts
              (@run_threads sample_collaborators two_pages ["views"; "_static"] [1; 0]
                 cleared).2)) ∧
  @build_javascript_chunks sample_collaborators two_pages [1; 0] sample_world =
    (inr tt,
     (@run_threads sample_collaborators two_pages ["views"; "_static"] [1; 0] cleared).2) ∧
  @run_thread (@spawn_builder failing_bundler two_pages ["views"; "_static"] home) cleared =
    (inl (Raise ExternalError ["esbuild failed for views/app/home/page.tsx"]), cleared).
Proof.
  intros cleared.
  pose proof (@build_joins_every_thread sample_collaborators two_pages ["views"; "_static"]
                cleared) as (_ & Hrun & Hchunks & _).
  pose proof (@build_joins_every_thread failing_bundler two_pages ["views"; "_static"]
                cleared) as (_ & _ & _ & Hfail).
  split; [|split].
  - apply Hrun. apply (Permutation_swap 0 1 []).
  - apply Hchunks.
    vm_cast_no_check (eq_refl (inr (A := Exn) ["views"; "_static"], cleared)).
  - apply Hfail. reflexivity.
Defined.

(** C5 as claimed does not hold: with a bundler that fails for the one
    registered controller, the whole build still returns normally, and so
    does every run of its threads. *)
Lemma failed_bundle_reported_as_success :
  let app := MkApp [define home] ["views"] in
  ¬ ((∃ d e, d ∈ controllers app ∧
             ∀ fs, @bundle_javascript failing_bundler fs (view_path (controller d))
                     (view_root app) = inl e) →
     ∃ e, (@build failing_bundler app [0] sample_world).1 = inl e).
Proof.
  intros app Hclaim. destruct Hclaim as [e He].
  - exists (define home). eexists. split; [left|]. intros fs. reflexivity.
  - vm_compute in He. discriminate He.
Qed.

End thread_witnesses.

(** ** Validation *)

Section validation_properties.
Import Py Builder.
Context `{Collaborators}.

Lemma members_of_append (view view' : Path) (c : Controller)
    (groups : list (Path * list Controller)) :
  members_of view' (group_append view c groups) =
    if decide (view' = view) then members_of view' groups ++ [c]
    else members_of view' groups.
Proof.
  induction groups as [|[v0 cs0] rest IH]; simpl.
  - by destruct (decide (view' = view)).
  - destruct (decide (view = v0)) as [->|Hne]; simpl.
    + by destruct (decide (view' = v0)).
    + rewrite IH. destruct (decide (view' = v0)) as [->|]; [|done].
      by rewrite decide_False.
Qed.

Lemma group_append_keys (view view' : Path) (c : Controller)
    (groups : list (Path * list Controller)) :
  view' ∈ (group_append view c groups).*1 ↔ view' = view ∨ view' ∈ groups.*1.
Proof.
  induction groups as [|[v0 cs0] rest IH]; simpl.
  - rewrite list_elem_of_singleton. split; [auto|]. intros [?|Hin]; [done|].
    by apply elem_of_nil in Hin.
  - destruct (decide (view = v0)) as [->|Hne]; simpl; rewrite !elem_of_cons.
    + tauto.
    + rewrite IH. tauto.
Qed.

Lemma group_append_NoDup (view : Path) (c : Controller)
    (groups : list (Path * list Controller)) :
  NoDup groups.*1 → NoDup (group_append view c groups).*1.
Proof.
  induction groups as [|[v0 cs0] rest IH]; simpl.
  - intros _. apply NoDup_singleton.
  - rewrite NoDup_cons. intros [Hfresh Hrest].
    destruct (decide (view = v0)) as [->|Hne]; simpl; rewrite NoDup_cons; [done|].
    split; [|by apply IH]. rewrite group_append_keys. intros [?|?]; [congruence|done].
Qed.

Lemma grouped_members (view : Path) (defs : list ControllerDefinition)
    (acc : list (Path * list Controller)) :
  members_of view (grouped acc defs) =
    members_of view acc ++ (controller <$> filter (λ d, view_dir d = view) defs).
Proof.
  revert acc. induction defs as [|d rest IH]; intros acc; simpl.
  - by rewrite app_nil_r.
  - unfold grouped in *. simpl. rewrite IH, members_of_append, filter_cons.
    destruct (decide (view = view_dir d)) as [->|Hne].
    + rewrite decide_True by done. by rewrite <- app_assoc.
    + by rewrite decide_False.
Qed.

Lemma grouped_keys (view : Path) (defs : list ControllerDefinition)
    (acc : list (Path * list Controller)) :
  view ∈ (grouped acc defs).*1 ↔ view ∈ acc.*1 ∨ ∃ d, d ∈ defs ∧ view_dir d = view.
Proof.
  revert acc. induction defs as [|d rest IH]; intros acc; simpl.
  - split; [auto|]. intros [?|(d & Hin & _)]; [done|]. by apply elem_of_nil in Hin.
  - unfold grouped in *. simpl. rewrite IH, group_append_keys. split.
    + intros [[->|?]|(d' & Hin & Hd')]; eauto using list_elem_of_here, list_elem_of_further.
    + intros [?|(d' & [->|Hin]%elem_of_cons & Hd')]; eauto.
Qed.

Lemma grouped_NoDup (defs : list ControllerDefinition) (acc : list (Path * list Controller)) :
  NoDup acc.*1 → NoDup (grouped acc defs).*1.
Proof.
  revert acc. induction defs as [|d rest IH]; intros acc Hacc; [done|].
  unfold grouped in *. simpl. by apply IH, group_append_NoDup.
Qed.

Lemma members_of_elem (view : Path) (members : list Controller)
    (groups : list (Path * list Controller)) :
  NoDup groups.*1 →
  (view, members) ∈ groups ↔ view ∈ groups.*1 ∧ members_of view groups = members.
Proof.
  induction groups as [|[v0 cs0] rest IH]; simpl.
  - intros _. split; [intros Hin|intros [Hin _]]; by apply elem_of_nil in Hin.
  - rewrite NoDup_cons. intros [Hfresh Hrest]. rewrite !elem_of_cons.
    destruct (decide (view = v0)) as [->|Hne].
    + split.
      * intros [[= ->]|Hin]; [auto|]. destruct Hfresh.
        apply list_elem_of_fmap. by exists (v0, members).
      * intros [_ ->]. by left.
    + rewrite IH by done. split.
      * intros [[= -> ->]|[? ?]]; [done|auto].
      * intros [[?|?] ?]; [done|auto].
Qed.

(** The groups of [view_counts]: one per parent directory in use, holding
    the controllers under it in registration order. *)
Lemma view_counts_elem (app : App) (view : Path) (members : list Controller) :
  (view, members) ∈ view_counts app ↔
  (∃ d, d ∈ controllers app ∧ view_dir d = view) ∧
  members = controller <$> filter (λ d, view_dir d = view) (controllers app).
Proof.
  change (view_counts app) with (grouped [] (controllers app)).
  rewrite members_of_elem by (apply grouped_NoDup; constructor).
  rewrite grouped_keys, grouped_members. simpl. split.
  - intros [[Hin|?] <-]; [by apply elem_of_nil in Hin|done].
  - intros [? ->]. auto.
Qed.

Lemma filter_two {A} (P : A → Prop) `{∀ x, Decision (P x)} (l : list A) (i j : nat) (a b : A) :
  l !! i = Some a → l !! j = Some b → i ≠ j → P a → P b → 1 < length (filter P l).
Proof.
  revert i j. induction l as [|x l IH]; intros i j; [done|].
  rewrite filter_cons. destruct i as [|i], j as [|j]; simpl; try done.
  - intros [= ->] Hb _ Ha Pb. rewrite decide_True by done. simpl.
    assert (b ∈ filter P l) as Hin.
    { apply list_elem_of_filter. split; [done|]. by eapply list_elem_of_lookup_2. }
    destruct (filter P l); [by apply elem_of_nil in Hin|simpl; lia].
  - intros Ha [= ->] _ Pa Pb. rewrite decide_True by done. simpl.
    assert (a ∈ filter P l) as Hin.
    { apply list_elem_of_filter. split; [done|]. by eapply list_elem_of_lookup_2. }
    destruct (filter P l); [by apply elem_of_nil in Hin|simpl; lia].
  - intros Ha Hb Hij Pa Pb.
    assert (1 < length (filter P l)) by (eapply (IH i j); eauto).
    destruct (decide (P x)); simpl; lia.
Qed.

Lemma filter_at_most_one {A B} `{EqDecision B} (f : A → B) (v : B) (l : list A) :
  NoDup (f <$> l) → (length (filter (λ x, f x = v) l) ≤ 1)%nat.
Proof.
  induction l as [|x l IH]; simpl; [lia|].
  rewrite NoDup_cons, filter_cons. intros [Hfresh Hrest].
  destruct (decide (f x = v)) as [<-|Hne]; [|by apply IH].
  assert (filter (λ y, f y = f x) l = []) as ->; [|simpl; lia].
  destruct (filter (λ y, f y = f x) l) as [|y ys] eqn:Hfilter; [done|].
  assert (y ∈ filter (λ y, f y = f x) l) as Hin by (rewrite Hfilter; left).
  apply list_elem_of_filter in Hin as [Hy Hin]. destruct Hfresh.
  rewrite <- Hy. by apply list_elem_of_fmap_2.
Qed.

(** No two controllers under one parent directory: nothing to report. *)
Lemma duplicate_views_none (app : App) :
  NoDup (view_dir <$> controllers app) → duplicate_views app = [].
Proof.
  intros Hnodup. unfold duplicate_views.
  destruct (filter _ (view_counts app)) as [|[view members] rest] eqn:Hfilter; [done|].
  assert ((view, members) ∈ filter (λ group, 1 < length group.2) (view_counts app)) as Hin
    by (rewrite Hfilter; left).
  apply list_elem_of_filter in Hin as [Hlen Hin]. simpl in Hlen.
  apply view_counts_elem in Hin as [_ ->]. rewrite length_fmap in Hlen.
  pose proof (filter_at_most_one view_dir view (controllers app) Hnodup). lia.
Qed.

(** Two controllers under one parent directory: their group is reported. *)
Lemma duplicate_views_some (app : App) (i j : nat) (di dj : ControllerDefinition) :
  controllers app !! i = Some di → controllers app !! j = Some dj → i ≠ j →
  view_dir di = view_dir dj →
  (view_dir di, controller <$> filter (λ d, view_dir d = view_dir di) (controllers app))
    ∈ duplicate_views app.
Proof.
  intros Hi Hj Hij Hsame. unfold duplicate_views.
  apply list_elem_of_filter. split.
  - simpl. rewrite length_fmap. by eapply (filter_two _ _ i j di dj).
  - apply view_counts_elem. split; [|done]. exists di. split; [|done].
    by eapply list_elem_of_lookup_2.
Qed.

(** The second loop of [validate_unique_paths] only reads the disk. *)
Lemma existence_check_first_missing (before after : list ControllerDefinition)
    (d : ControllerDefinition) (w : World) :
  Forall (λ d', path_exists (disk w) (view_path (controller d')) = true) before →
  path_exists (disk w) (view_path (controller d)) = false →
  for_each (before ++ d :: after) (λ d,
      bind read_disk (λ fs,
        if path_exists fs (view_path (controller d)) then ret tt
        else raise (missing_error (view_path (controller d))))) w
    = (inl (missing_error (view_path (controller d))), w).
Proof.
  intros Hbefore Hmissing. induction Hbefore as [|d' before Hd' _ IH]; simpl.
  - unfold bind, read_disk. by rewrite Hmissing.
  - unfold bind, read_disk in *. rewrite Hd'. simpl. apply IH.
Qed.

(** C2. Whenever two registered controllers keep their views under one
    parent directory, the build stops in validation with the duplicate-paths
    [ValueError], the disk and the controllers' script lists being exactly as
    before the call, and the lines joined into the error list, for every such
    directory, every controller registered under it. *)
Theorem shared_view_directory_fails (app : App) (sched : list nat) (w : World) :
  (∃ i j di dj, controllers app !! i = Some di ∧ controllers app !! j = Some dj ∧
                i ≠ j ∧ view_dir di = view_dir dj) →
  build app sched w =
    (inl (Raise ValueError
            [ "Found duplicate view paths under controller management, ensure definitions are unique";
              join nl (duplicate_lines app) ]), w) ∧
  ∀ i j di dj,
    controllers app !! i = Some di → controllers app !! j = Some dj →
    i ≠ j → view_dir di = view_dir dj →
    "  " +:+ path_str (view_dir di) +:+ ": " +:+ ctrl_str (controller di)
      ∈ duplicate_lines app.
Proof.
  intros (i & j & di & dj & Hi & Hj & Hij & Hsame). split.
  - unfold build. apply bind_inl. unfold validate_unique_paths.
    pose proof (duplicate_views_some app i j di dj Hi Hj Hij Hsame) as Hin.
    destruct (duplicate_views app); [by apply elem_of_nil in Hin|done].
  - clear. intros i j di dj Hi Hj Hij Hsame.
    unfold duplicate_lines. apply list_elem_of_bind.
    eexists. split; [|by apply (duplicate_views_some app i j di dj)].
    simpl.
    apply (list_elem_of_fmap_2
             (λ c, "  " +:+ path_str (view_dir di) +:+ ": " +:+ ctrl_str c) _ (controller di)).
    apply list_elem_of_fmap_2.
    apply list_elem_of_filter. split; [done|]. by eapply list_elem_of_lookup_2.
Qed.

(** C7, as the code has it. When no parent directory is shared and some
    registered view path is not on disk, the build stops in validation, the
    world being exactly as before the call, with a [ValueError] that names
    one path: the first missing view path in registration order. *)
Theorem missing_view_path_fails (app : App) (sched : list nat) (w : World)
    (before after : list ControllerDefinition) (d : ControllerDefinition) :
  NoDup (view_dir <$> controllers app) →
  controllers app = before ++ d :: after →
  Forall (λ d', path_exists (disk w) (view_path (controller d')) = true) before →
  path_exists (disk w) (view_path (controller d)) = false →
  build app sched w =
    (inl (Raise ValueError
            [ "View path " +:+ path_str (view_path (controller d))
              +:+ " does not exist, ensure it is created before running the server" ]), w).
Proof.
  intros Hnodup Hsplit Hbefore Hmissing.
  unfold build. apply bind_inl. unfold validate_unique_paths.
  rewrite (duplicate_views_none app Hnodup), Hsplit.
  by apply existence_check_first_missing.
Qed.

End validation_properties.

Section validation_witnesses.
Import Py Builder Samples.

Lemma shared_view_directory_fails_witness :
  (@build sample_collaborators crowded [0; 1; 2] sample_world).2 = sample_world ∧
  "  views/app/home: <app.Home object at 0x1>" ∈ duplicate_lines crowded ∧
  "  views/app/home: <app.HomeDetail object at 0x4>" ∈ duplicate_lines crowded.
Proof.
  assert (∃ i j di dj, controllers crowded !! i = Some di ∧ controllers crowded !! j = Some dj
                       ∧ i ≠ j ∧ view_dir di = view_dir dj) as Hshared.
  { exists 0, 2, (define home), (define home_detail).
    split; [reflexivity|]. split; [reflexivity|]. split; [lia|reflexivity]. }
  destruct (@shared_view_directory_fails sample_collaborators crowded [0; 1; 2] sample_world
              Hshared) as [Hfail Hlines].
  split; [by rewrite Hfail|]. split.
  - apply (Hlines 0 2 (define home) (define home_detail)); [reflexivity|reflexivity|lia|reflexivity].
  - apply (Hlines 2 0 (define home_detail) (define home)); [reflexivity|reflexivity|lia|reflexivity].
Defined.

Lemma missing_view_path_fails_witness :
  @build sample_collaborators haunted [0; 1; 2] sample_world =
    (inl (Raise ValueError
            [ "View path views/app/ghost/page.tsx does not exist, ensure it is created before running the server" ]),
     sample_world).
Proof.
  apply (@missing_view_path_fails sample_collaborators haunted [0; 1; 2] sample_world
           [define home] [define phantom] (define ghost)).
  - compute_done.
  - reflexivity.
  - repeat constructor.
  - reflexivity.
Defined.

(** C7 as claimed does not hold: with the views of both [ghost] and [phantom]
    missing, the build fails with an error whose arguments nowhere mention
    the missing view path of [phantom]. *)
Lemma missing_paths_reported_one_at_a_time :
  ∃ e, (@build sample_collaborators haunted [0; 1; 2] sample_world).1 = inl e ∧
       ¬ (∀ d, d ∈ controllers haunted →
               path_exists (disk sample_world) (view_path (controller d)) = false →
               ∃ arg, arg ∈ exn_args e ∧
                      contains (path_str (view_path (controller d))) arg = true).
Proof.
  eexists. split; [vm_compute; reflexivity|].
  intros Hall. destruct (Hall (define phantom)) as (arg & Hin & Hcontains).
  - apply list_elem_of_In. simpl. auto.
  - reflexivity.
  - apply list_elem_of_In in Hin. simpl in Hin. destruct Hin as [<-|[]].
    vm_compute in Hcontains. discriminate.
Qed.

End validation_witnesses.

(** ** The generated text *)

Section text_properties.
Import Py Builder Samples.
Context `{Collaborators}.

(** C1. In the registry of the two controllers [Home] and [Dashboard], with
    whatever render model names and no actions, the state declaration has the
    two optional fields [HOME] and [DASHBOARD], in this order, but the type of
    each is the upper-case state key followed by the camelized model name,
    [ControllerTypes.HOME...] and [ControllerTypes.DASHBOARD...]: neither
    type is [HomeRenderModel] or [DashboardRenderModel]. *)
Theorem server_state_prefix_is_upper_case
    (id1 id2 : nat) (str1 str2 : string) (path1 path2 root : Path)
    (model1 model2 router1 router2 prefix1 prefix2 : string) :
  let home := MkController id1 "Home" str1 path1 model1 [] in
  let dashboard := MkController id2 "Dashboard" str2 path2 model2 [] in
  let app := MkApp [MkDefinition home router1 prefix1;
                    MkDefinition dashboard router2 prefix2] root in
  server_state_lines app =
    [ "HOME?: ControllerTypes.HOME" +:+ Inflection.camelize model1;
      "DASHBOARD?: ControllerTypes.DASHBOARD" +:+ Inflection.camelize model2 ] ∧
  server_state_interface app =
    "interface ServerState {" +:+ nl
    +:+ "  HOME?: ControllerTypes.HOME" +:+ Inflection.camelize model1 +:+ "," +:+ nl
    +:+ "  DASHBOARD?: ControllerTypes.DASHBOARD" +:+ Inflection.camelize model2 +:+ nl
    +:+ "}" ∧
  get_controller_render_global_type home ≠ "HomeRenderModel" ∧
  get_controller_render_global_type dashboard ≠ "DashboardRenderModel".
Proof.
  intros home dashboard app.
  split; [reflexivity|]. split.
  - unfold server_state_interface. change (server_state_lines app) with
      [ "HOME?: ControllerTypes.HOME" +:+ Inflection.camelize model1;
        "DASHBOARD?: ControllerTypes.DASHBOARD" +:+ Inflection.camelize model2 ].
    cbn [fmap list_fmap join]. by rewrite !append_assoc.
  - split; intros Heq; discriminate Heq.
Qed.



End text_properties.


(** * Further properties *)

(** ** The engine cache in use *)

Section db_use_properties.
Import Py Db DbUse Samples.

Lemma healthy_start : healthy start.
Proof.
  unfold healthy, start. simpl. split; [|split].
  - intros uri e Hin. by rewrite lookup_empty in Hin.
  - intros n Hin. by apply not_elem_of_empty in Hin.
  - intros uri1 uri2 e1 e2 Hin. by rewrite lookup_empty in Hin.
Qed.

Lemma healthy_lookup (cfg : DatabaseConfig) (force_new : bool) (p : Process) :
  healthy p → healthy (engine_from_config cfg force_new p).2.
Proof.
  intros (Hcache & Hdisposed & Hinj). unfold engine_from_config.
  destruct (uri_set cfg) as [uri|]; [|done].
  destruct (force_new || negb (bool_decide (is_Some (GLOBAL_ENGINE p !! uri)))); simpl.
  - rewrite lookup_insert_eq. simpl. split; [|split]; simpl.
    + intros uri' e. rewrite lookup_insert. destruct (decide (uri = uri')) as [->|Hne].
      * intros [= <-]. simpl. split; [lia|]. split; [done|].
        intros Hin. apply Hdisposed in Hin. lia.
      * intros Hin. destruct (Hcache _ _ Hin) as (? & ? & ?). split; [lia|done].
    + intros n Hin. apply Hdisposed in Hin. lia.
    + intros uri1 uri2 e1 e2. rewrite !lookup_insert.
      destruct (decide (uri = uri1)) as [Heq1|Hne1], (decide (uri = uri2)) as [Heq2|Hne2].
      * intros _ _ _. congruence.
      * intros [= <-] Hin2 Hid. simpl in Hid.
        destruct (Hcache _ _ Hin2) as (? & _ & _). lia.
      * intros Hin1 [= <-] Hid. simpl in Hid.
        destruct (Hcache _ _ Hin1) as (? & _ & _). lia.
      * apply Hinj.
  - destruct (GLOBAL_ENGINE p !! uri); done.
Qed.

Lemma healthy_shutdown (p : Process) : healthy p → healthy (unregister_global_engine p).
Proof.
  intros (Hcache & Hdisposed & Hinj). unfold unregister_global_engine. split; [|split]; simpl.
  - intros uri e Hin. by rewrite lookup_empty in Hin.
  - intros n [Hin|(e & Hin & <-)]%disposed_after_fold; [by apply Hdisposed|].
    apply list_elem_of_fmap in Hin as ([uri e'] & -> & Hin).
    apply elem_of_map_to_list in Hin. by destruct (Hcache _ _ Hin) as (? & _ & _).
  - intros uri1 uri2 e1 e2 Hin. by rewrite lookup_empty in Hin.
Qed.

Lemma healthy_serve_all (rs : list Request) (p : Process) :
  healthy p → healthy (serve_all rs p).
Proof.
  revert p. induction rs as [|r rs IH]; intros p Hp; [done|].
  unfold serve_all in *. simpl. apply IH. destruct r as [cfg force_new|]; simpl.
  - by apply healthy_lookup.
  - by apply healthy_shutdown.
Qed.

Lemma dispose_keys_cons (k : string) (keys : list string) (p : Process) (e : AsyncEngine) :
  GLOBAL_ENGINE p !! k = Some e →
  dispose_keys (k :: keys) p = dispose_keys keys (dispose e p).
Proof. intros Hk. unfold dispose_keys. simpl. by rewrite Hk. Qed.

(** Disposing touches neither the dict nor the allocator, and the engines
    under the keys are disposed afterwards. *)
Lemma dispose_keys_spec (keys : list string) (p : Process) :
  GLOBAL_ENGINE (dispose_keys keys p) = GLOBAL_ENGINE p ∧
  next_engine (dispose_keys keys p) = next_engine p ∧
  (∀ n, n ∈ disposed p → n ∈ disposed (dispose_keys keys p)) ∧
  (∀ k e, k ∈ keys → GLOBAL_ENGINE p !! k = Some e →
          engine_id e ∈ disposed (dispose_keys keys p)).
Proof.
  revert p. induction keys as [|k keys IH]; intros p.
  { repeat split; [done|]. by intros k e ?%elem_of_nil. }
  destruct (GLOBAL_ENGINE p !! k) as [e|] eqn:Hk.
  - rewrite (dispose_keys_cons k keys p e Hk).
    destruct (IH (dispose e p)) as (Hdict & Hnext & Hold & Hnew). simpl in *.
    repeat split; [done|done| |].
    + intros n Hn. apply Hold. apply elem_of_union. by right.
    + intros k' e' [->|Hin]%elem_of_cons Hk'.
      * apply Hold. rewrite Hk in Hk'. injection Hk' as <-.
        apply elem_of_union. left. by apply elem_of_singleton.
      * by apply (Hnew k').
  - unfold dispose_keys. simpl. rewrite Hk. fold (dispose_keys keys p).
    destruct (IH p) as (Hdict & Hnext & Hold & Hnew).
    repeat split; [done|done|done|].
    intros k' e' [->|Hin]%elem_of_cons Hk'; [congruence|]. by apply (Hnew k').
Qed.

(** The loop of the shutdown, resumed turn after turn with nothing else
    scheduled in between. *)
Lemma dispose_keys_run (keys rest : list string) (p : Process) (n : nat) :
  (∀ k, k ∈ keys → is_Some (GLOBAL_ENGINE p !! k)) →
  size (GLOBAL_ENGINE p) = n →
  rtc event_step (p, Disposing (keys ++ rest) n) (dispose_keys keys p, Disposing rest n).
Proof.
  revert p. induction keys as [|k keys IH]; intros p Hkeys Hsize; [done|].
  destruct (Hkeys k) as [e Hk]; [left|].
  rewrite (dispose_keys_cons k keys p e Hk).
  eapply rtc_l; [by apply (step_dispose_next p k (keys ++ rest) n e)|].
  apply IH; [|done]. intros k' Hk'. apply Hkeys. by right.
Qed.

(** A shutdown that starts from rest and goes through the keys in some
    order, as far as [keys]. *)
Lemma shutdown_run (keys rest : list string) (p : Process) :
  keys ≠ [] →
  keys ++ rest ≡ₚ (map_to_list (GLOBAL_ENGINE p)).*1 →
  rtc event_step (p, NotRunning)
      (dispose_keys keys p, Disposing rest (size (GLOBAL_ENGINE p))).
Proof.
  intros Hkeys Horder.
  assert (∀ k, k ∈ keys ++ rest → is_Some (GLOBAL_ENGINE p !! k)) as Hcached.
  { intros k Hk. rewrite Horder in Hk.
    apply list_elem_of_fmap in Hk as ([k' e] & -> & Hin).
    apply elem_of_map_to_list in Hin. by exists e. }
  destruct keys as [|k keys]; [done|].
  destruct (Hcached k) as [e Hk]; [left|].
  rewrite (dispose_keys_cons k keys p e Hk).
  eapply rtc_l; [by apply (step_shutdown_first p k (keys ++ rest) e)|].
  apply (dispose_keys_run keys rest (dispose e p)); [|done].
  intros k' Hk'. apply Hcached. right. apply elem_of_app. by left.
Qed.

Lemma dispose_keys_fold (entries : list (string * AsyncEngine)) (p : Process) :
  (∀ k e, (k, e) ∈ entries → GLOBAL_ENGINE p !! k = Some e) →
  dispose_keys entries.*1 p =
    MkProcess (GLOBAL_ENGINE p) (next_engine p)
      (foldl (λ done engine, {[engine_id engine]} ∪ done) (disposed p) entries.*2).
Proof.
  revert p. induction entries as [|[k e] entries IH]; intros p Hentries.
  { by destruct p. }
  rewrite fmap_cons, (dispose_keys_cons k _ p e) by (apply Hentries; left).
  rewrite IH; [done|]. intros k' e' Hin. apply Hentries. by right.
Qed.

(** [unregister_global_engine] is the shutdown run to its end with nothing
    scheduled in between and no [dispose()] raising. *)
Lemma completed_shutdown (p : Process) :
  rtc event_step (p, NotRunning) (unregister_global_engine p, NotRunning).
Proof.
  assert (unregister_global_engine p
            = rebind (dispose_keys (map_to_list (GLOBAL_ENGINE p)).*1 p)) as ->.
  { rewrite dispose_keys_fold; [done|]. intros k e. apply elem_of_map_to_list. }
  destruct (decide ((map_to_list (GLOBAL_ENGINE p)).*1 = [])) as [Hnone|Hsome].
  - rewrite Hnone. apply rtc_once, step_shutdown_nothing.
    apply fmap_nil_inv in Hnone. by apply map_to_list_empty_iff.
  - etrans.
    + apply (shutdown_run _ [] p Hsome). by rewrite app_nil_r.
    + apply rtc_once, step_rebind. by rewrite (proj1 (dispose_keys_spec _ p)).
Qed.

(** A history of lookups and undisturbed shutdowns is a run of the event
    loop. *)
Lemma serve_all_run (rs : list Request) (p : Process) :
  rtc event_step (p, NotRunning) (serve_all rs p, NotRunning).
Proof.
  revert p. induction rs as [|r rs IH]; intros p; [done|].
  etrans; [|apply IH]. destruct r as [cfg force_new|]; simpl.
  - apply rtc_once, step_lookup.
  - apply completed_shutdown.
Qed.

(** X1. In a process whose shutdowns so far all ran to their end
    undisturbed, a cached engine is not disposed and [engine_from_config]
    returns it. But [unregister_global_engine] gives up control at every
    [await engine.dispose()] and empties the cache only after the loop:
    whatever the order the dict is gone through in, once the engine of a
    connection string has been disposed and the coroutine is suspended, or
    has been abandoned there because a [dispose()] raised or the task was
    cancelled, [engine_from_config] still returns that engine from the cache,
    disposed. *)
Theorem lookup_during_shutdown_gets_disposed_engine (rs : list Request)
    (cfg : DatabaseConfig) (uri : string) (e : AsyncEngine) (before after : list string) :
  let p := serve_all rs start in
  let p1 := dispose_keys (before ++ [uri]) p in
  GLOBAL_ENGINE p !! uri = Some e →
  uri_set cfg = Some uri →
  before ++ uri :: after ≡ₚ (map_to_list (GLOBAL_ENGINE p)).*1 →
  rtc event_step (start, NotRunning) (p, NotRunning) ∧
  (engine_from_config cfg false p = (inr e, p) ∧ (engine_id e ∉ disposed p)) ∧
  rtc event_step (p, NotRunning) (p1, Disposing after (size (GLOBAL_ENGINE p))) ∧
  rtc event_step (p1, Disposing after (size (GLOBAL_ENGINE p))) (p1, NotRunning) ∧
  (engine_from_config cfg false p1 = (inr e, p1) ∧ engine_id e ∈ disposed p1).
Proof.
  intros p p1 Hcached Huri Horder.
  destruct (dispose_keys_spec (before ++ [uri]) p) as (Hdict & _ & _ & Hdisposed).
  split; [apply serve_all_run|]. split; [|split; [|split]].
  - split; [by apply (engine_from_config_hit cfg uri)|].
    by destruct (healthy_serve_all rs start healthy_start) as (Hlive & _);
      destruct (Hlive uri e Hcached) as (_ & _ & ?).
  - apply shutdown_run; [by destruct before|]. by rewrite <- app_assoc.
  - apply rtc_once, step_abandoned.
  - split.
    + apply (engine_from_config_hit cfg uri); [done|]. fold p1 in Hdict. by rewrite Hdict.
    + apply (Hdisposed uri); [|done]. apply elem_of_app. right. left.
Qed.

Lemma lookup_during_shutdown_gets_disposed_engine_witness :
  let main := MkEngine 0 "postgresql+asyncpg://app@db/main" AsyncAdaptedQueuePool in
  let p := serve_all [Lookup sample_config false] start in
  let p1 := dispose_keys ["postgresql+asyncpg://app@db/main"] p in
  rtc event_step (start, NotRunning) (p1, NotRunning) ∧
  engine_from_config sample_config false p1 = (inr main, p1) ∧
  engine_id main ∈ disposed p1.
Proof.
  intros main p p1.
  destruct (lookup_during_shutdown_gets_disposed_engine [Lookup sample_config false]
              sample_config "postgresql+asyncpg://app@db/main" main [] [])
    as (Hstart & _ & Hsuspended & Habandoned & Hanswer & Hdisposed).
  - reflexivity.
  - reflexivity.
  - reflexivity.
  - split; [|split; [exact Hanswer|exact Hdisposed]].
    etrans; [exact Hstart|]. etrans; [exact Hsuspended|exact Habandoned].
Defined.

(** X2. With [force_new] the engine cached for the connection string is
    replaced by a newly made one, no engine is disposed by the call, and the
    replaced engine is out of reach of the shutdown hook: after the hook has
    run it is still not disposed. *)
Theorem force_new_leaks_the_old_engine (rs : list Request) (cfg : DatabaseConfig)
    (uri : string) (old : AsyncEngine) :
  GLOBAL_ENGINE (serve_all rs start) !! uri = Some old →
  uri_set cfg = Some uri →
  ∃ e p1,
    engine_from_config cfg true (serve_all rs start) = (inr e, p1) ∧
    engine_id e ≠ engine_id old ∧
    GLOBAL_ENGINE p1 !! uri = Some e ∧
    disposed p1 = disposed (serve_all rs start) ∧
    engine_id old ∉ disposed (unregister_global_engine p1).
Proof.
  intros Hold Huri. set (p := serve_all rs start) in *.
  destruct (healthy_serve_all rs _ healthy_start) as (Hcache & Hdisposed & Hinj). fold p in Hcache, Hdisposed, Hinj.
  destruct (engine_from_config_create cfg uri true p Huri (or_introl eq_refl))
    as (e & Hcall & Hid & _).
  destruct (Hcache _ _ Hold) as (Hpast & _ & Hlive).
  exists e. eexists. split; [exact Hcall|]. split; [lia|]. split; [|split].
  - simpl. apply lookup_insert_eq.
  - done.
  - unfold unregister_global_engine. simpl.
    intros [Hin|(e' & Hin & Heq)]%disposed_after_fold; [done|].
    apply list_elem_of_fmap in Hin as ([uri' e''] & -> & Hin). simpl in Heq.
    apply elem_of_map_to_list in Hin. rewrite lookup_insert in Hin.
    destruct (decide (uri = uri')) as [->|Hne].
    + injection Hin as <-. lia.
    + apply Hne. symmetry. by apply (Hinj uri' uri e'' old).
Qed.

Lemma force_new_leaks_the_old_engine_witness :
  ∃ e p1,
    engine_from_config sample_config true (serve_all [Lookup sample_config false] start)
      = (inr e, p1) ∧
    engine_id e ≠ 0 ∧
    0 ∉ disposed (unregister_global_engine p1).
Proof.
  destruct (force_new_leaks_the_old_engine [Lookup sample_config false] sample_config
              "postgresql+asyncpg://app@db/main"
              (MkEngine 0 "postgresql+asyncpg://app@db/main" AsyncAdaptedQueuePool))
    as (e & p1 & Hcall & Hnew & _ & _ & Hleak); [reflexivity|reflexivity|].
  exists e, p1. split; [exact Hcall|]. split; [exact Hnew|exact Hleak].
Defined.

(** Set equations by membership. *)
Ltac by_membership :=
  apply set_eq; intros ?;
  rewrite ?elem_of_union, ?elem_of_difference, ?elem_of_union, ?elem_of_singleton,
    ?elem_of_empty;
  intuition (subst; auto).

Lemma size_with_new (u : string) (S D : gset string) :
  u ∉ D → size (({[u]} ∪ S) ∖ D) = 1 + size (S ∖ ({[u]} ∪ D)).
Proof.
  intros Hnew.
  assert (({[u]} ∪ S) ∖ D = {[u]} ∪ (S ∖ ({[u]} ∪ D))) as ->.
  { apply set_eq. intros x.
    rewrite elem_of_difference, !elem_of_union, elem_of_difference, elem_of_union,
      !elem_of_singleton.
    destruct (decide (x = u)) as [->|Hne]; tauto. }
  rewrite size_union.
  - by rewrite size_singleton.
  - intros x. rewrite elem_of_singleton, elem_of_difference, elem_of_union, elem_of_singleton.
    tauto.
Qed.

Lemma difference_with_old (u : string) (S D : gset string) :
  u ∈ D → ({[u]} ∪ S) ∖ D = S ∖ D.
Proof.
  intros Hold. apply set_eq. intros x.
  rewrite !elem_of_difference, elem_of_union, elem_of_singleton.
  split; [|tauto]. intros [[->|?] ?]; tauto.
Qed.

Lemma get_db_all_cons (cfg : DatabaseConfig) (cfgs : list DatabaseConfig) (p : Process) :
  get_db_all (cfg :: cfgs) p = get_db_all cfgs (get_db cfg p).2.
Proof. reflexivity. Qed.

(** X3. A run of [get_db] calls makes exactly one engine for each distinct
    connection string that is set among the configs and was not cached
    before, caches those strings, and disposes nothing. *)
Theorem get_db_one_engine_per_uri (cfgs : list DatabaseConfig) (p : Process) :
  next_engine (get_db_all cfgs p) =
    next_engine p + size (uris cfgs ∖ dom (GLOBAL_ENGINE p)) ∧
  dom (GLOBAL_ENGINE (get_db_all cfgs p)) = dom (GLOBAL_ENGINE p) ∪ uris cfgs ∧
  disposed (get_db_all cfgs p) = disposed p.
Proof.
  revert p. induction cfgs as [|cfg cfgs IH]; intros p.
  - unfold uris. simpl. split; [|split; [|done]].
    + replace (∅ ∖ dom (GLOBAL_ENGINE p)) with (∅ : gset string) by (symmetry; by_membership).
      rewrite size_empty. lia.
    + by_membership.
  - rewrite get_db_all_cons. destruct (IH (get_db cfg p).2) as (Hnext & Hdom & Hdisposed).
    rewrite Hnext, Hdom, Hdisposed. clear IH Hnext Hdom Hdisposed.
    unfold uris, get_db, engine_from_config. simpl omap.
    destruct (uri_set cfg) as [uri|]; [|done]. simpl orb.
    destruct (GLOBAL_ENGINE p !! uri) as [e|] eqn:Hcached.
    + rewrite bool_decide_eq_true_2 by done. simpl. rewrite Hcached. simpl.
      apply (elem_of_dom_2 (D := gset string)) in Hcached.
      split; [|split; [|done]].
      * by rewrite difference_with_old.
      * by_membership.
    + rewrite bool_decide_eq_false_2 by (by intros [? ?]). simpl.
      rewrite lookup_insert_eq. simpl. rewrite dom_insert_L.
      apply (not_elem_of_dom (D := gset string)) in Hcached.
      split; [|split; [|done]].
      * change (list_omap DatabaseConfig string uri_set cfgs) with (omap uri_set cfgs).
        rewrite size_with_new by done. lia.
      * by_membership.
Qed.

End db_use_properties.

(** ** The metaclass on namespaces with several static methods *)

Section deps_order_properties.
Import Py Deps.

(** X4. When a namespace holds static methods, the [TypeError] names the
    first of them in the order of the class body, whatever comes after it;
    the attributes before it are the ones that are not static methods. *)
Theorem meta_new_names_first_static_method (name : string) (bases : list string)
    (before after : Namespace) (attr fn : string) :
  Forall (λ kv, is_staticmethod kv.2 = false) before →
  (meta_new name bases (before ++ (attr, StaticMethod fn) :: after)).2 =
    inl (Raise TypeError
           ["Static methods are not allowed in dependency wrapper '" +:+ name
            +:+ "'. Found static method: '" +:+ attr +:+ "'."]).
Proof.
  intros Hbefore. unfold meta_new.
  assert (first_staticmethod (before ++ (attr, StaticMethod fn) :: after) = Some attr) as ->;
    [|done].
  induction Hbefore as [|[a v] before Hv _ IH]; simpl; [done|].
  simpl in Hv. by rewrite Hv.
Qed.

Lemma meta_new_names_first_static_method_witness :
  (meta_new "Providers" ["DependenciesBase"]
     [ ("label", Data "'db'"); ("get_config", PlainFunction "get_config");
       ("get_db", StaticMethod "get_db"); ("get_cache", StaticMethod "get_cache") ]).2 =
    inl (Raise TypeError
           ["Static methods are not allowed in dependency wrapper '" +:+ "Providers"
            +:+ "'. Found static method: '" +:+ "get_db" +:+ "'."]).
Proof.
  apply (meta_new_names_first_static_method "Providers" ["DependenciesBase"]
           [("label", Data "'db'"); ("get_config", PlainFunction "get_config")]
           [("get_cache", StaticMethod "get_cache")] "get_db" "get_db").
  repeat constructor.
Defined.

End deps_order_properties.

(** ** Validation as a whole *)

Section validation_more.
Import Py Builder Samples.
Context `{Collaborators}.

Lemma existence_check_passes (defs : list ControllerDefinition) (w : World) :
  Forall (λ d, path_exists (disk w) (view_path (controller d)) = true) defs →
  for_each defs (λ d,
      bind read_disk (λ fs,
        if path_exists fs (view_path (controller d)) then ret tt
        else raise (missing_error (view_path (controller d))))) w
    = (inr tt, w).
Proof.
  induction 1 as [|d defs Hd _ IH]; [done|].
  simpl. unfold bind, read_disk in *. by rewrite Hd.
Qed.

(** The registered views all exist, or there is a first one that does not. *)
Lemma first_missing_view (defs : list ControllerDefinition) (fs : gmap Path Node) :
  Forall (λ d, path_exists fs (view_path (controller d)) = true) defs ∨
  ∃ before d after,
    defs = before ++ d :: after ∧
    Forall (λ d, path_exists fs (view_path (controller d)) = true) before ∧
    path_exists fs (view_path (controller d)) = false.
Proof.
  induction defs as [|d defs IH]; [by left|].
  destruct (path_exists fs (view_path (controller d))) eqn:Hd.
  - destruct IH as [Hall|(before & d' & after & -> & Hbefore & Hd')].
    + left. by constructor.
    + right. exists (d :: before), d', after. split; [done|]. split; [by constructor|done].
  - right. by exists [], d, defs.
Qed.

Lemma duplicate_views_nil_NoDup (app : App) :
  duplicate_views app = [] → NoDup (view_dir <$> controllers app).
Proof.
  intros Hnone. apply NoDup_alt. intros i j view Hi Hj.
  destruct (decide (i = j)) as [|Hne]; [done|]. exfalso.
  rewrite list_lookup_fmap in Hi, Hj.
  destruct (controllers app !! i) as [di|] eqn:Hdi; [|done].
  destruct (controllers app !! j) as [dj|] eqn:Hdj; [|done].
  simpl in Hi, Hj. injection Hi as Hi. injection Hj as Hj.
  pose proof (duplicate_views_some app i j di dj Hdi Hdj Hne) as Hin.
  rewrite Hnone in Hin. apply elem_of_nil in Hin; [done|]. congruence.
Qed.

(** X5. [validate_unique_paths] never changes the world, and it returns
    without raising exactly when no two registered controllers have the same
    parent view directory and every registered view path exists. *)
Theorem validation_passes_exactly_when (app : App) (w : World) :
  (validate_unique_paths app w).2 = w ∧
  ((validate_unique_paths app w).1 = inr tt ↔
   NoDup (view_dir <$> controllers app) ∧
   Forall (λ d, path_exists (disk w) (view_path (controller d)) = true) (controllers app)).
Proof.
  unfold validate_unique_paths.
  destruct (duplicate_views app) as [|group groups] eqn:Hduplicates.
  - apply duplicate_views_nil_NoDup in Hduplicates as Hnodup.
    destruct (first_missing_view (controllers app) (disk w))
      as [Hall|(before & d & after & Hsplit & Hbefore & Hd)].
    + rewrite existence_check_passes by done. done.
    + rewrite Hsplit, (existence_check_first_missing before after d w Hbefore Hd). simpl.
      split; [done|]. split; [done|]. intros [_ Hall].
      apply Forall_app in Hall as [_ Hall]. apply Forall_cons in Hall as [Hd' _]. congruence.
  - simpl. split; [done|]. split; [done|]. intros [Hnodup _].
    apply duplicate_views_none in Hnodup. congruence.
Qed.

Lemma filter_two_inv {A} (P : A → Prop) `{∀ x, Decision (P x)} (l : list A) :
  1 < length (filter P l) →
  ∃ i j a b, i ≠ j ∧ l !! i = Some a ∧ l !! j = Some b ∧ P a ∧ P b.
Proof.
  induction l as [|x l IH]; [simpl; lia|].
  rewrite filter_cons. destruct (decide (P x)) as [Hx|Hx].
  - simpl. intros Hlen. destruct (filter P l) as [|y ys] eqn:Hfilter; [simpl in Hlen; lia|].
    assert (y ∈ filter P l) as Hy by (rewrite Hfilter; left).
    apply list_elem_of_filter in Hy as [Py Hy].
    apply list_elem_of_lookup in Hy as [j Hj].
    exists 0, (S j), x, y. by repeat split.
  - intros Hlen. destruct (IH Hlen) as (i & j & a & b & Hij & Hi & Hj & Pa & Pb).
    exists (S i), (S j), a, b. repeat split; [lia|done..].
Qed.

(** X6. The lines of the duplicate-paths error are exactly the lines of the
    controllers that share their parent view directory with another
    registered controller: none is left out and none is listed without
    cause. *)
Theorem duplicate_lines_exact (app : App) (line : string) :
  line ∈ duplicate_lines app ↔
  ∃ i j di dj,
    controllers app !! i = Some di ∧ controllers app !! j = Some dj ∧
    i ≠ j ∧ view_dir di = view_dir dj ∧
    line = "  " +:+ path_str (view_dir di) +:+ ": " +:+ ctrl_str (controller di).
Proof.
  split.
  - unfold duplicate_lines. intros Hline.
    apply list_elem_of_bind in Hline as ([view members] & Hline & Hgroup).
    simpl in Hline. apply list_elem_of_fmap in Hline as (c & -> & Hc).
    unfold duplicate_views in Hgroup. apply list_elem_of_filter in Hgroup as [Hlen Hgroup].
    simpl in Hlen. apply view_counts_elem in Hgroup as [_ ->].
    rewrite length_fmap in Hlen.
    apply list_elem_of_fmap in Hc as (di & -> & Hdi).
    apply list_elem_of_filter in Hdi as [Hview Hdi].
    apply list_elem_of_lookup in Hdi as [i Hi].
    destruct (filter_two_inv _ _ Hlen) as (a & b & da & db & Hab & Ha & Hb & Hda & Hdb).
    destruct (decide (a = i)) as [->|Hne].
    + exists i, b, di, db. repeat split; [done|done|done|congruence|by rewrite Hview].
    + exists i, a, di, da. repeat split; [done|done|done|congruence|by rewrite Hview].
  - intros (i & j & di & dj & Hi & Hj & Hij & Hsame & ->).
    unfold duplicate_lines. apply list_elem_of_bind.
    eexists. split; [|by apply (duplicate_views_some app i j di dj)].
    simpl.
    apply (list_elem_of_fmap_2
             (λ c, "  " +:+ path_str (view_dir di) +:+ ": " +:+ ctrl_str c) _ (controller di)).
    apply list_elem_of_fmap_2.
    apply list_elem_of_filter. split; [done|]. by eapply list_elem_of_lookup_2.
Qed.

Lemma group_append_concat (view : Path) (c : Controller)
    (groups : list (Path * list Controller)) :
  concat (group_append view c groups).*2 ≡ₚ c :: concat groups.*2.
Proof.
  induction groups as [|[v0 cs0] rest IH]; simpl; [done|].
  destruct (decide (view = v0)) as [->|Hne]; simpl.
  - rewrite <- app_assoc. simpl. by rewrite <- Permutation_middle.
  - rewrite IH. by rewrite <- Permutation_middle.
Qed.

Lemma grouped_concat (defs : list ControllerDefinition) (acc : list (Path * list Controller)) :
  concat (grouped acc defs).*2 ≡ₚ concat acc.*2 ++ (controller <$> defs).
Proof.
  revert acc. induction defs as [|d defs IH]; intros acc; simpl.
  - by rewrite app_nil_r.
  - unfold grouped in *. simpl. rewrite IH, group_append_concat.
    by rewrite <- Permutation_middle.
Qed.

(** X7. The grouping behind the uniqueness check loses and invents nothing:
    the parent directories that head the groups are pairwise different,
    every group holds, in registration order, exactly the controllers
    registered under its directory (at least one), and the groups together
    hold every registered controller once. *)
Theorem view_counts_partition (app : App) :
  NoDup (view_counts app).*1 ∧
  concat (view_counts app).*2 ≡ₚ controller <$> controllers app ∧
  ∀ view members,
    (view, members) ∈ view_counts app →
    members ≠ [] ∧
    members = controller <$> filter (λ d, view_dir d = view) (controllers app).
Proof.
  split; [apply (grouped_NoDup _ []); constructor|]. split.
  - change (view_counts app) with (grouped [] (controllers app)). by rewrite grouped_concat.
  - intros view members Hin. apply view_counts_elem in Hin as [(d & Hd & Hview) ->].
    split; [|done]. intros Hnil. apply fmap_nil_inv in Hnil.
    assert (d ∈ filter (λ d, view_dir d = view) (controllers app)) as Hin
      by (by apply list_elem_of_filter).
    rewrite Hnil in Hin. by apply elem_of_nil in Hin.
Qed.

End validation_more.

(** ** What the builder touches *)

Section frame_facts.
Import Py Builder Managed.

Lemma writes_only_ret {A} (P : Path → Prop) (a : A) : writes_only P (ret a).
Proof. by intros w p _. Qed.

Lemma writes_only_raise {A} (P : Path → Prop) (e : Exn) : writes_only P (raise (A := A) e).
Proof. by intros w p _. Qed.

Lemma writes_only_lift {A} (P : Path → Prop) (r : Exn + A) : writes_only P (lift r).
Proof. by intros w p _. Qed.

Lemma writes_only_read_disk (P : Path → Prop) : writes_only P read_disk.
Proof. by intros w p _. Qed.

Lemma writes_only_bind {A B} (P : Path → Prop) (R : A → Prop) (m : M A) (k : A → M B) :
  writes_only P m → returns R m → (∀ a, R a → writes_only P (k a)) →
  writes_only P (bind m k).
Proof.
  intros Hm HR Hk w p Hp. unfold bind.
  specialize (Hm w p Hp). specialize (HR w).
  destruct (m w) as [[e|a] w1]; simpl in *; [done|].
  rewrite <- Hm. apply Hk; [by eapply HR|done].
Qed.

Lemma writes_only_seq {A B} (P : Path → Prop) (m : M A) (k : A → M B) :
  writes_only P m → (∀ a, writes_only P (k a)) → writes_only P (bind m k).
Proof. intros Hm Hk. apply (writes_only_bind P (λ _, True)); [done|done|auto]. Qed.

Lemma writes_only_for_each {A} (P : Path → Prop) (xs : list A) (body : A → M unit) :
  (∀ x, x ∈ xs → writes_only P (body x)) → writes_only P (for_each xs body).
Proof.
  induction xs as [|x xs IH]; intros Hbody; simpl; [apply writes_only_ret|].
  apply writes_only_seq; [apply Hbody; left|].
  intros _. apply IH. intros y Hy. apply Hbody. by right.
Qed.

Lemma writes_only_weaken {A} (P Q : Path → Prop) (m : M A) :
  (∀ p, P p → Q p) → writes_only P m → writes_only Q m.
Proof. intros HPQ Hm w p Hp. apply Hm. auto. Qed.

Lemma writes_only_write_text (P : Path → Prop) (p : Path) (text : string) :
  P p → writes_only P (write_text p text).
Proof.
  intros Hp w q Hq. unfold write_text, bind, read_disk, set_disk, raise.
  destruct (node_at (disk w) (parent p)) as [[|?]|]; [|done|done].
  destruct (node_at (disk w) p) as [[|?]|]; [done| |]; simpl;
    apply lookup_insert_ne; by intros ->.
Qed.

Lemma writes_only_mkdir_exist_ok (P : Path → Prop) (p : Path) :
  P p → writes_only P (mkdir_exist_ok p).
Proof.
  intros Hp w q Hq. unfold mkdir_exist_ok, bind, read_disk, set_disk, raise, ret.
  destruct (node_at (disk w) p) as [[|?]|]; [done|done|].
  destruct (node_at (disk w) (parent p)) as [[|?]|]; [|done|done].
  simpl. apply lookup_insert_ne. by intros ->.
Qed.

Lemma writes_only_rmtree (P : Path → Prop) (p : Path) :
  (∀ q, p `prefix_of` q → P q) → writes_only P (rmtree p).
Proof.
  intros Hp w q Hq. unfold rmtree, bind, read_disk, set_disk, raise.
  destruct (node_at (disk w) p) as [[|?]|]; [|done|done]. simpl.
  destruct (disk w !! q) as [v|] eqn:Hlookup.
  - apply map_lookup_filter_Some. split; [done|]. simpl. intros Hprefix. auto.
  - apply map_lookup_filter_None. left. done.
Qed.

Lemma ancestors_are_prefixes (p q : Path) : q ∈ ancestors_and_self p → q `prefix_of` p.
Proof.
  unfold ancestors_and_self. intros (n & -> & _)%list_elem_of_fmap.
  exists (drop n p). by rewrite take_drop.
Qed.

Lemma make_dirs_lookup (dirs : list Path) (fs : gmap Path Node) (q : Path) :
  q ∉ dirs →
  foldl (λ fs q, if path_exists fs q then fs else <[q := Dir]> fs) fs dirs !! q = fs !! q.
Proof.
  revert fs. induction dirs as [|d dirs IH]; intros fs Hq; [done|].
  apply not_elem_of_cons in Hq as [Hne Hq]. simpl. rewrite IH by done.
  destruct (path_exists fs d); [done|]. by apply lookup_insert_ne.
Qed.

Lemma writes_only_mkdir_parents (P : Path → Prop) (p : Path) :
  (∀ q, q `prefix_of` p → P q) → writes_only P (mkdir_parents p).
Proof.
  intros Hp w q Hq. unfold mkdir_parents, bind, read_disk, set_disk, raise.
  destruct (node_at (disk w) p); [done|].
  destruct (existsb _ _); [done|]. simpl.
  apply make_dirs_lookup. intros Hin. apply Hq, Hp. by apply ancestors_are_prefixes.
Qed.

Lemma returns_get_managed_dir_common (path : Path) (managed_dir : string) :
  returns (λ dir, ∃ base, dir = child base managed_dir ∧ base `prefix_of` path)
    (get_managed_dir_common path managed_dir).
Proof.
  intros w dir w' Hrun. apply get_managed_dir_common_inr in Hrun as [-> _].
  eexists. split; [done|]. destruct (is_file (disk w) path); [|done].
  unfold parent. destruct (is_anchor path); [done|].
  exists (match path with [] => [] | _ => [List.last path ""] end).
  destruct path as [|x path] using rev_ind; [done|].
  rewrite removelast_last, last_last. by destruct (path ++ [x]) eqn:Heq;
    [destruct path; discriminate|].
Qed.

Lemma writes_only_get_managed_dir_common (P : Path → Prop) (path : Path)
    (managed_dir : string) :
  (∀ q, managed_dir ∈ q → P q) →
  writes_only P (get_managed_dir_common path managed_dir).
Proof.
  intros Hp. unfold get_managed_dir_common.
  apply writes_only_seq; [apply writes_only_read_disk|]. intros fs.
  apply writes_only_seq; [|intros _; apply writes_only_ret].
  apply writes_only_mkdir_exist_ok, Hp. unfold child. apply elem_of_app. right. left.
Qed.

End frame_facts.

(** ** The managed directories *)

Section managed_dir_properties.
Import Py Builder Managed Samples.

Lemma node_at_insert_dir (fs : gmap Path Node) (p : Path) :
  node_at (<[p := Dir]> fs) p = Some Dir.
Proof.
  unfold node_at. destruct (decide (p = [])); [done|].
  destruct (is_anchor p); [done|]. apply lookup_insert_eq.
Qed.

Lemma node_at_insert_ne (fs : gmap Path Node) (p q : Path) (v : Node) :
  p ≠ q → node_at (<[p := v]> fs) q = node_at fs q.
Proof.
  intros Hne. unfold node_at. destruct (decide (q = [])); [done|].
  destruct (is_anchor q); [done|]. by apply lookup_insert_ne.
Qed.

Lemma node_at_None (fs : gmap Path Node) (p : Path) : node_at fs p = None → fs !! p = None.
Proof.
  unfold node_at. destruct (decide (p = [])); [done|]. by destruct (is_anchor p).
Qed.

(** A directory made where there was nothing makes no path a file. *)
Lemma is_file_insert_dir (fs : gmap Path Node) (p q : Path) :
  node_at fs p = None → is_file (<[p := Dir]> fs) q = is_file fs q.
Proof.
  intros Hnone. unfold is_file. destruct (decide (p = q)) as [->|Hne].
  - by rewrite node_at_insert_dir, Hnone.
  - by rewrite node_at_insert_ne.
Qed.

Lemma mkdir_exist_ok_cases (p : Path) (w w' : World) :
  mkdir_exist_ok p w = (inr tt, w') →
  is_dir (disk w') p = true ∧
  ((node_at (disk w) p = Some Dir ∧ w' = w) ∨
   (node_at (disk w) p = None ∧
    w' = MkWorld (<[p := Dir]> (disk w)) (bundled_scripts w))).
Proof.
  unfold mkdir_exist_ok, bind, read_disk, set_disk, raise, ret.
  destruct (node_at (disk w) p) as [[|?]|] eqn:Hnode; [|done|].
  - intros [= <-]. unfold is_dir. rewrite Hnode. auto.
  - destruct (node_at (disk w) (parent p)) as [[|?]|]; [|done|done].
    intros [= <-]. simpl. unfold is_dir. rewrite node_at_insert_dir. auto.
Qed.

(** X8. When [get_managed_dir_common] returns, the directory it returns is
    the managed directory under the path (under its parent when the path is
    a file) and is a directory on disk; nothing else on disk has changed,
    nothing that was there has been replaced, no script list is touched, and
    asking again returns the same directory without changing anything. *)
Theorem managed_dir_is_made_once (path : Path) (managed_dir : string) (w w' : World)
    (dir : Path) :
  get_managed_dir_common path managed_dir w = (inr dir, w') →
  dir = child (if is_file (disk w) path then parent path else path) managed_dir ∧
  is_dir (disk w') dir = true ∧
  bundled_scripts w' = bundled_scripts w ∧
  (∀ p, p ≠ dir → disk w' !! p = disk w !! p) ∧
  (∀ p v, disk w !! p = Some v → disk w' !! p = Some v) ∧
  get_managed_dir_common path managed_dir w' = (inr dir, w').
Proof.
  unfold get_managed_dir_common. intros Hrun.
  apply bind_inr in Hrun as (fs & w1 & [= <- <-] & Hrun).
  apply bind_inr in Hrun as ([] & w2 & Hmk & [= <- <-]).
  set (dir := child (if is_file (disk w) path then parent path else path) managed_dir) in *.
  destruct (mkdir_exist_ok_cases _ _ _ Hmk) as [Hdir [[Hwas ->]|[Hnone ->]]].
  - repeat split; try done.
    unfold bind, read_disk. simpl. fold dir. by rewrite Hmk.
  - simpl in *. repeat split; try done.
    + intros p Hp. by apply lookup_insert_ne.
    + intros p v Hp. rewrite lookup_insert_ne; [done|]. intros <-.
      apply node_at_None in Hnone. congruence.
    + unfold bind, read_disk. simpl. rewrite is_file_insert_dir by done. fold dir.
      unfold mkdir_exist_ok, bind, read_disk, ret. simpl.
      by rewrite node_at_insert_dir.
Qed.

Lemma managed_dir_is_made_once_witness :
  let made := get_managed_dir_common ["views"; "app"; "home"; "page.tsx"] "_server"
                sample_world in
  is_dir (disk made.2) ["views"; "app"; "home"; "_server"] = true ∧
  get_managed_dir_common ["views"; "app"; "home"; "page.tsx"] "_server" made.2 =
    (inr ["views"; "app"; "home"; "_server"], made.2).
Proof.
  intros made.
  destruct (managed_dir_is_made_once ["views"; "app"; "home"; "page.tsx"] "_server"
              sample_world made.2 ["views"; "app"; "home"; "_server"])
    as (_ & Hdir & _ & _ & _ & Hagain).
  - vm_cast_no_check (eq_refl (inr (A := Exn) ["views"; "app"; "home"; "_server"], made.2)).
  - split; [exact Hdir|exact Hagain].
Defined.

(** X9. [get_managed_dir_common] raises, and changes nothing, when a file
    sits where the managed directory should be ([FileExistsError]) and when
    neither the managed directory nor the directory it belongs under is on
    disk ([FileNotFoundError]: the managed directory is made without its
    parents). *)
Theorem managed_dir_errors (path : Path) (managed_dir : string) (w : World) :
  (is_file (disk w) (managed_dir_of (disk w) path managed_dir) = true →
   get_managed_dir_common path managed_dir w =
     (inl (Raise FileExistsError [path_str (managed_dir_of (disk w) path managed_dir)]), w)) ∧
  (node_at (disk w) (managed_dir_of (disk w) path managed_dir) = None →
   node_at (disk w) (if is_file (disk w) path then parent path else path) = None →
   get_managed_dir_common path managed_dir w =
     (inl (Raise FileNotFoundError [path_str (managed_dir_of (disk w) path managed_dir)]), w)).
Proof.
  unfold get_managed_dir_common, managed_dir_of, mkdir_exist_ok, bind, read_disk, raise.
  simpl. set (base := if is_file (disk w) path then parent path else path).
  split.
  - unfold is_file. by destruct (node_at (disk w) (child base managed_dir)) as [[|?]|].
  - intros -> Hbase.
    assert (parent (child base managed_dir) = base) as ->; [|by rewrite Hbase].
    unfold parent, child, is_anchor. destruct base as [|x base]; [done|].
    rewrite bool_decide_eq_false_2 by (by destruct base).
    apply removelast_last.
Qed.

Lemma managed_dir_errors_witness :
  get_managed_dir_common ["views"; "app"; "missing"; "page.tsx"] "_server" sample_world =
    (inl (Raise FileNotFoundError ["views/app/missing/page.tsx/_server"]), sample_world) ∧
  get_managed_dir_common ["views"; "app"; "home"] "page.tsx" sample_world =
    (inl (Raise FileExistsError ["views/app/home/page.tsx"]), sample_world).
Proof.
  split.
  - apply (managed_dir_errors ["views"; "app"; "missing"; "page.tsx"] "_server" sample_world);
      reflexivity.
  - apply (managed_dir_errors ["views"; "app"; "home"] "page.tsx" sample_world). reflexivity.
Defined.

End managed_dir_properties.

(** ** What the generators and the build touch *)

Section scripts_facts.
Import Py Builder Managed.

Lemma keeps_scripts_ret {A} (a : A) : keeps_scripts (ret a).
Proof. by intros w. Qed.

Lemma keeps_scripts_raise {A} (e : Exn) : keeps_scripts (raise (A := A) e).
Proof. by intros w. Qed.

Lemma keeps_scripts_lift {A} (r : Exn + A) : keeps_scripts (lift r).
Proof. by intros w. Qed.

Lemma keeps_scripts_read_disk : keeps_scripts read_disk.
Proof. by intros w. Qed.

Lemma keeps_scripts_set_disk (fs : gmap Path Node) : keeps_scripts (set_disk fs).
Proof. by intros w. Qed.

Lemma keeps_scripts_bind {A B} (m : M A) (k : A → M B) :
  keeps_scripts m → (∀ a, keeps_scripts (k a)) → keeps_scripts (bind m k).
Proof.
  intros Hm Hk w. unfold bind. specialize (Hm w).
  destruct (m w) as [[e|a] w1]; simpl in *; [done|]. rewrite <- Hm. apply Hk.
Qed.

Lemma keeps_scripts_for_each {A} (xs : list A) (body : A → M unit) :
  (∀ x, keeps_scripts (body x)) → keeps_scripts (for_each xs body).
Proof.
  intros Hbody. induction xs as [|x xs IH]; simpl; [apply keeps_scripts_ret|].
  apply keeps_scripts_bind; [apply Hbody|]. by intros _.
Qed.

Lemma keeps_scripts_write_text (p : Path) (text : string) : keeps_scripts (write_text p text).
Proof.
  unfold write_text. apply keeps_scripts_bind; [apply keeps_scripts_read_disk|]. intros fs.
  destruct (node_at fs (parent p)) as [[|?]|];
    [|apply keeps_scripts_raise|apply keeps_scripts_raise].
  destruct (node_at fs p) as [[|?]|];
    [apply keeps_scripts_raise|apply keeps_scripts_set_disk|apply keeps_scripts_set_disk].
Qed.

Lemma keeps_scripts_mkdir_exist_ok (p : Path) : keeps_scripts (mkdir_exist_ok p).
Proof.
  unfold mkdir_exist_ok. apply keeps_scripts_bind; [apply keeps_scripts_read_disk|]. intros fs.
  destruct (node_at fs p) as [[|?]|]; [apply keeps_scripts_ret|apply keeps_scripts_raise|].
  destruct (node_at fs (parent p)) as [[|?]|];
    [apply keeps_scripts_set_disk|apply keeps_scripts_raise|apply keeps_scripts_raise].
Qed.

Lemma keeps_scripts_rmtree (p : Path) : keeps_scripts (rmtree p).
Proof.
  unfold rmtree. apply keeps_scripts_bind; [apply keeps_scripts_read_disk|]. intros fs.
  destruct (node_at fs p) as [[|?]|];
    [apply keeps_scripts_set_disk|apply keeps_scripts_raise|apply keeps_scripts_raise].
Qed.

Lemma keeps_scripts_mkdir_parents (p : Path) : keeps_scripts (mkdir_parents p).
Proof.
  unfold mkdir_parents. apply keeps_scripts_bind; [apply keeps_scripts_read_disk|]. intros fs.
  destruct (node_at fs p); [apply keeps_scripts_raise|].
  destruct (existsb _ _); [apply keeps_scripts_raise|apply keeps_scripts_set_disk].
Qed.

Lemma keeps_scripts_get_managed_dir_common (path : Path) (managed_dir : string) :
  keeps_scripts (get_managed_dir_common path managed_dir).
Proof.
  unfold get_managed_dir_common.
  apply keeps_scripts_bind; [apply keeps_scripts_read_disk|]. intros fs.
  apply keeps_scripts_bind; [apply keeps_scripts_mkdir_exist_ok|]. intros _.
  apply keeps_scripts_ret.
Qed.

End scripts_facts.

Section generator_frames.
Import Py Builder Managed Samples.
Context `{Collaborators} (app : App).

(** The paths inside a managed code directory. *)
Local Abbreviation managed := (λ p : Path, "_server" ∈ p).

Lemma returns_managed_code_dir (path : Path) :
  returns (λ dir : Path, "_server" ∈ dir) (get_managed_code_dir path).
Proof.
  intros w dir w' Hrun. apply get_managed_dir_common_inr in Hrun as [-> _].
  unfold child. apply elem_of_app. right. left.
Qed.

Lemma writes_only_managed_code_dir (path : Path) :
  writes_only managed (get_managed_code_dir path).
Proof. by apply writes_only_get_managed_dir_common. Qed.

Lemma managed_child (dir : Path) (name : string) : "_server" ∈ dir → "_server" ∈ child dir name.
Proof. intros Hdir. unfold child. apply elem_of_app. by left. Qed.

(** A step that asks for a managed directory and then works inside it. *)
Lemma writes_only_in_managed_dir {A} (path : Path) (k : Path → M A) :
  (∀ dir, "_server" ∈ dir → writes_only managed (k dir)) →
  writes_only managed (bind (get_managed_code_dir path) k).
Proof.
  intros Hk. eapply writes_only_bind;
    [apply writes_only_managed_code_dir|apply returns_managed_code_dir|exact Hk].
Qed.

Lemma keeps_scripts_in_managed_dir {A} (path : Path) (k : Path → M A) :
  (∀ dir, keeps_scripts (k dir)) → keeps_scripts (bind (get_managed_code_dir path) k).
Proof. intros Hk. apply keeps_scripts_bind; [apply keeps_scripts_get_managed_dir_common|done]. Qed.

Lemma global_model_imports_frame (defs : list ControllerDefinition) :
  writes_only managed (global_model_imports app defs) ∧
  keeps_scripts (global_model_imports app defs).
Proof.
  induction defs as [|d defs [IHw IHs]]; simpl.
  - split; [apply writes_only_ret|apply keeps_scripts_ret].
  - split.
    + apply writes_only_in_managed_dir. intros dir _.
      apply writes_only_seq; [done|]. intros lines. apply writes_only_ret.
    + apply keeps_scripts_in_managed_dir. intros dir.
      apply keeps_scripts_bind; [done|]. intros lines. apply keeps_scripts_ret.
Qed.

Lemma generate_static_files_frame :
  writes_only managed (generate_static_files app) ∧ keeps_scripts (generate_static_files app).
Proof.
  unfold generate_static_files. split.
  - apply writes_only_in_managed_dir. intros dir Hdir.
    by apply writes_only_write_text, managed_child.
  - apply keeps_scripts_in_managed_dir. intros dir. apply keeps_scripts_write_text.
Qed.

Lemma generate_model_definitions_frame :
  writes_only managed (generate_model_definitions app) ∧
  keeps_scripts (generate_model_definitions app).
Proof.
  unfold generate_model_definitions, generate_model_definition. split.
  - apply writes_only_for_each. intros d _.
    apply writes_only_seq; [apply writes_only_lift|]. intros schemas.
    apply writes_only_in_managed_dir. intros dir Hdir.
    by apply writes_only_write_text, managed_child.
  - apply keeps_scripts_for_each. intros d.
    apply keeps_scripts_bind; [apply keeps_scripts_lift|]. intros schemas.
    apply keeps_scripts_in_managed_dir. intros dir. apply keeps_scripts_write_text.
Qed.

Lemma generate_action_definitions_frame :
  writes_only managed (generate_action_definitions app) ∧
  keeps_scripts (generate_action_definitions app).
Proof.
  unfold generate_action_definitions, generate_action_definition. split.
  - apply writes_only_for_each. intros d _.
    apply writes_only_in_managed_dir. intros dir Hdir.
    apply writes_only_in_managed_dir. intros root_dir _.
    apply writes_only_seq; [apply writes_only_lift|]. intros converted.
    by apply writes_only_write_text, managed_child.
  - apply keeps_scripts_for_each. intros d.
    apply keeps_scripts_in_managed_dir. intros dir.
    apply keeps_scripts_in_managed_dir. intros root_dir.
    apply keeps_scripts_bind; [apply keeps_scripts_lift|]. intros converted.
    apply keeps_scripts_write_text.
Qed.

Lemma generate_global_model_imports_frame :
  writes_only managed (generate_global_model_imports app) ∧
  keeps_scripts (generate_global_model_imports app).
Proof.
  unfold generate_global_model_imports.
  destruct (global_model_imports_frame (controllers app)) as [Hw Hs]. split.
  - apply writes_only_seq; [done|]. intros lines.
    apply writes_only_in_managed_dir. intros dir Hdir.
    by apply writes_only_write_text, managed_child.
  - apply keeps_scripts_bind; [done|]. intros lines.
    apply keeps_scripts_in_managed_dir. intros dir. apply keeps_scripts_write_text.
Qed.

Lemma generate_server_provider_frame :
  writes_only managed (generate_server_provider app) ∧
  keeps_scripts (generate_server_provider app).
Proof.
  unfold generate_server_provider. split.
  - apply writes_only_in_managed_dir. intros dir Hdir.
    by apply writes_only_write_text, managed_child.
  - apply keeps_scripts_in_managed_dir. intros dir. apply keeps_scripts_write_text.
Qed.

Lemma generate_view_servers_frame :
  writes_only managed (generate_view_servers app) ∧ keeps_scripts (generate_view_servers app).
Proof.
  unfold generate_view_servers, generate_view_server. split.
  - apply writes_only_for_each. intros d _.
    apply writes_only_in_managed_dir. intros dir Hdir.
    apply writes_only_in_managed_dir. intros root_dir _.
    by apply writes_only_write_text, managed_child.
  - apply keeps_scripts_for_each. intros d.
    apply keeps_scripts_in_managed_dir. intros dir.
    apply keeps_scripts_in_managed_dir. intros root_dir.
    apply keeps_scripts_write_text.
Qed.

(** X10. Each of the six generators changes the disk only at paths inside a
    [_server] directory and leaves every controller's script list as it is,
    whether it returns or raises on the way. *)
Theorem generators_write_only_managed_code :
  Forall (λ generator : M unit,
            writes_only (λ p, "_server" ∈ p) generator ∧ keeps_scripts generator)
    [ generate_static_files app; generate_model_definitions app;
      generate_action_definitions app; generate_global_model_imports app;
      generate_server_provider app; generate_view_servers app ].
Proof.
  repeat apply Forall_cons_2; [..|apply Forall_nil_2].
  - apply generate_static_files_frame.
  - apply generate_model_definitions_frame.
  - apply generate_action_definitions_frame.
  - apply generate_global_model_imports_frame.
  - apply generate_server_provider_frame.
  - apply generate_view_servers_frame.
Qed.

Lemma validate_unique_paths_frame (P : Path → Prop) :
  writes_only P (validate_unique_paths app) ∧ keeps_scripts (validate_unique_paths app).
Proof.
  unfold validate_unique_paths. destruct (duplicate_views app).
  - split.
    + apply writes_only_for_each. intros d _.
      apply writes_only_seq; [apply writes_only_read_disk|]. intros fs.
      destruct (path_exists fs _); [apply writes_only_ret|apply writes_only_raise].
    + apply keeps_scripts_for_each. intros d.
      apply keeps_scripts_bind; [apply keeps_scripts_read_disk|]. intros fs.
      destruct (path_exists fs _); [apply keeps_scripts_ret|apply keeps_scripts_raise].
  - split; [apply writes_only_raise|apply keeps_scripts_raise].
Qed.

Lemma write_text_cases (p : Path) (text : string) (w : World) :
  write_text p text w = (inr tt, MkWorld (<[p := File text]> (disk w)) (bundled_scripts w)) ∨
  ∃ e, write_text p text w = (inl e, w).
Proof.
  unfold write_text, bind, read_disk, set_disk, raise.
  destruct (node_at (disk w) (parent p)) as [[|?]|]; [|right; by eexists..].
  destruct (node_at (disk w) p) as [[|?]|]; [right; by eexists|left; done..].
Qed.

(** How a build thread can end: before any write, after the script was
    written, or with script and map written and the script recorded. *)
Lemma spawn_builder_cases (static_dir : Path) (c : Controller) (w : World) :
  (∃ e, spawn_builder app static_dir c w = (inl e, w)) ∨
  ∃ contents map_contents,
    bundle_javascript (disk w) (view_path c) (view_root app) = inr (contents, map_contents) ∧
    ((∃ e, spawn_builder app static_dir c w =
             (inl e, MkWorld
                       (<[child static_dir (script_name c contents) :=
                            File (update_source_map_path contents (map_name c contents))]>
                          (disk w))
                       (bundled_scripts w))) ∨
     spawn_builder app static_dir c w =
       (inr tt,
        MkWorld
          (<[child static_dir (map_name c contents) := File map_contents]>
             (<[child static_dir (script_name c contents) :=
                  File (update_source_map_path contents (map_name c contents))]> (disk w)))
          (<[ctrl_id c := default [] (bundled_scripts w !! ctrl_id c)
                          ++ [script_name c contents]]> (bundled_scripts w)))).
Proof.
  unfold spawn_builder, bind, read_disk, lift.
  destruct (bundle_javascript (disk w) (view_path c) (view_root app))
    as [e|[contents map_contents]] eqn:Hbundle; [left; by eexists|]. simpl.
  destruct (write_text_cases (child static_dir (script_name c contents))
              (update_source_map_path contents (map_name c contents)) w) as [->|[e ->]];
    [|left; by eexists].
  right. exists contents, map_contents. split; [done|].
  match goal with |- context [write_text ?p ?t ?w1] =>
    destruct (write_text_cases p t w1) as [->|[e ->]] end;
    [right; done|left; by eexists].
Qed.

(** X11. A build thread touches nothing but its own unit: the script list
    of every other controller is as before, its own list is as before unless
    the thread ran to its end, and the only paths of the disk it can have
    changed are the script file and the map file named after the bundle it
    got, both directly in the static directory. *)
Theorem build_thread_footprint (static_dir : Path) (c : Controller) (w : World) :
  (∀ id, id ≠ ctrl_id c →
     bundled_scripts (spawn_builder app static_dir c w).2 !! id = bundled_scripts w !! id) ∧
  (∀ e, (spawn_builder app static_dir c w).1 = inl e →
     bundled_scripts (spawn_builder app static_dir c w).2 = bundled_scripts w) ∧
  (∀ p, disk (spawn_builder app static_dir c w).2 !! p ≠ disk w !! p →
     ∃ contents map_contents,
       bundle_javascript (disk w) (view_path c) (view_root app) = inr (contents, map_contents) ∧
       (p = child static_dir (script_name c contents) ∨
        p = child static_dir (map_name c contents))).
Proof.
  destruct (spawn_builder_cases static_dir c w)
    as [[e ->]|(contents & map_contents & Hbundle & [[e ->]| ->])]; simpl.
  - split; [done|]. split; [done|]. intros p Hp. done.
  - split; [done|]. split; [done|]. intros p Hp.
    exists contents, map_contents. split; [done|]. left.
    destruct (decide (child static_dir (script_name c contents) = p)) as [|Hne]; [done|].
    by rewrite lookup_insert_ne in Hp.
  - split; [|split].
    + intros id Hid. by rewrite lookup_insert_ne.
    + intros e He. discriminate He.
    + intros p Hp. exists contents, map_contents. split; [done|].
      destruct (decide (child static_dir (map_name c contents) = p)) as [|Hne1]; [by right|].
      destruct (decide (child static_dir (script_name c contents) = p)) as [|Hne2]; [by left|].
      by rewrite !lookup_insert_ne in Hp.
Qed.

Lemma spawn_builder_grows (static_dir : Path) (c : Controller) (w : World) (id : nat) :
  default [] (bundled_scripts w !! id)
    `prefix_of` default [] (bundled_scripts (spawn_builder app static_dir c w).2 !! id) ∧
  length (default [] (bundled_scripts (spawn_builder app static_dir c w).2 !! id))
    <= S (length (default [] (bundled_scripts w !! id))).
Proof.
  destruct (spawn_builder_cases static_dir c w)
    as [[e ->]|(contents & map_contents & Hbundle & [[e ->]| ->])]; simpl;
    [split; [done|lia]..|].
  destruct (decide (ctrl_id c = id)) as [<-|Hne].
  - rewrite lookup_insert_eq. simpl. split; [by apply prefix_app_r|].
    rewrite length_app. simpl. lia.
  - rewrite lookup_insert_ne by done. split; [done|lia].
Qed.

Lemma run_threads_cons (static_dir : Path) (i : nat) (sched : list nat) (w : World) :
  (run_threads app static_dir (i :: sched) w).2 =
    (run_threads app static_dir sched
       (match controllers app !! i with
        | Some d => (spawn_builder app static_dir (controller d) w).2
        | None => w
        end)).2.
Proof. reflexivity. Qed.

Lemma run_threads_grows (static_dir : Path) (sched : list nat) (w : World) (id : nat) :
  default [] (bundled_scripts w !! id)
    `prefix_of` default [] (bundled_scripts (run_threads app static_dir sched w).2 !! id) ∧
  length (default [] (bundled_scripts (run_threads app static_dir sched w).2 !! id))
    <= length (default [] (bundled_scripts w !! id)) + length sched.
Proof.
  revert w. induction sched as [|i sched IH]; intros w.
  - simpl. split; [done|lia].
  - rewrite run_threads_cons. destruct (controllers app !! i) as [d|].
    + destruct (IH (spawn_builder app static_dir (controller d) w).2) as [Hprefix Hlen].
      destruct (spawn_builder_grows static_dir (controller d) w id) as [Hprefix1 Hlen1].
      split; [by etrans|]. change (length (i :: sched)) with (S (length sched)). lia.
    + destruct (IH w) as [Hprefix Hlen]. split; [done|].
      change (length (i :: sched)) with (S (length sched)). lia.
Qed.

Lemma keeps_scripts_clear_static_dir : keeps_scripts (clear_static_dir app).
Proof.
  unfold clear_static_dir.
  apply keeps_scripts_bind; [apply keeps_scripts_get_managed_dir_common|]. intros static_dir.
  apply keeps_scripts_bind; [apply keeps_scripts_read_disk|]. intros fs.
  apply keeps_scripts_bind.
  { destruct (path_exists fs static_dir); [apply keeps_scripts_rmtree|apply keeps_scripts_ret]. }
  intros _. apply keeps_scripts_bind; [apply keeps_scripts_mkdir_parents|]. intros _.
  apply keeps_scripts_ret.
Qed.

Lemma scripts_from_threads_bind {A B} (sched : list nat) (m : M A) (k : A → M B) :
  keeps_scripts m → (∀ a, scripts_from_threads app sched (k a)) →
  scripts_from_threads app sched (bind m k).
Proof.
  intros Hm Hk w. unfold bind. specialize (Hm w).
  destruct (m w) as [[e|a] w1]; simpl in *; [by left|].
  destruct (Hk a w1) as [Hsame|(static_dir & w2 & Hw2 & Hthreads)].
  - left. congruence.
  - right. exists static_dir, w2. split; [congruence|done].
Qed.

Lemma build_scripts (sched : list nat) : scripts_from_threads app sched (build app sched).
Proof.
  unfold build.
  apply scripts_from_threads_bind; [apply validate_unique_paths_frame; exact (λ _, True)|].
  intros _. apply scripts_from_threads_bind; [apply generate_static_files_frame|].
  intros _. apply scripts_from_threads_bind; [apply generate_model_definitions_frame|].
  intros _. apply scripts_from_threads_bind; [apply generate_action_definitions_frame|].
  intros _. apply scripts_from_threads_bind; [apply generate_global_model_imports_frame|].
  intros _. apply scripts_from_threads_bind; [apply generate_server_provider_frame|].
  intros _. apply scripts_from_threads_bind; [apply generate_view_servers_frame|].
  intros _. unfold build_javascript_chunks.
  apply scripts_from_threads_bind; [apply keeps_scripts_clear_static_dir|].
  intros static_dir w. right. by exists static_dir, w.
Qed.

(** X12. A build never shortens or rewrites a controller's script list: the
    list it had before the build is a prefix of the list it has after it,
    however the build ends, and at most one name per scheduled thread has
    been added. *)
Theorem script_lists_only_grow (sched : list nat) (w : World) (id : nat) :
  default [] (bundled_scripts w !! id)
    `prefix_of` default [] (bundled_scripts (build app sched w).2 !! id) ∧
  length (default [] (bundled_scripts (build app sched w).2 !! id))
    <= length (default [] (bundled_scripts w !! id)) + length sched.
Proof.
  destruct (build_scripts sched w) as [->|(static_dir & w1 & Hw1 & ->)].
  - split; [done|lia].
  - rewrite <- Hw1. apply run_threads_grows.
Qed.

End generator_frames.

(** ** The static directory and the footprint of a build *)

Section static_dir_properties.
Import Py Builder Managed Samples.
Context `{Collaborators} (app : App).

Lemma make_dirs_keeps (dirs : list Path) (fs : gmap Path Node) (q : Path) (v : Node) :
  fs !! q = Some v →
  foldl (λ fs q, if path_exists fs q then fs else <[q := Dir]> fs) fs dirs !! q = Some v.
Proof.
  revert fs. induction dirs as [|d dirs IH]; intros fs Hq; [done|]. simpl. apply IH.
  destruct (path_exists fs d) eqn:Hd; [done|].
  rewrite lookup_insert_ne; [done|]. intros ->.
  unfold path_exists in Hd. apply bool_decide_eq_false in Hd. apply Hd.
  unfold node_at. destruct (decide (q = [])); [done|]. destruct (is_anchor q); [done|].
  by rewrite Hq.
Qed.

Lemma make_dirs_made (dirs : list Path) (fs : gmap Path Node) (q : Path) :
  q ∈ dirs → node_at fs q = None →
  foldl (λ fs q, if path_exists fs q then fs else <[q := Dir]> fs) fs dirs !! q = Some Dir.
Proof.
  revert fs. induction dirs as [|d dirs IH]; intros fs Hin Hnone;
    [by apply elem_of_nil in Hin|]. simpl.
  destruct (decide (q = d)) as [->|Hne].
  - unfold path_exists. rewrite Hnone.
    rewrite bool_decide_eq_false_2 by (by intros [? ?]).
    apply make_dirs_keeps, lookup_insert_eq.
  - apply elem_of_cons in Hin as [?|Hin]; [done|]. apply IH; [done|].
    destruct (path_exists fs d); [done|]. by rewrite node_at_insert_ne.
Qed.

Lemma self_is_ancestor (p : Path) : p ≠ [] → p ∈ ancestors_and_self p.
Proof.
  intros Hp. unfold ancestors_and_self. apply list_elem_of_fmap.
  exists (length p). split; [by rewrite firstn_all|].
  apply elem_of_seq. destruct p; [done|simpl; lia].
Qed.

Lemma node_at_child (fs : gmap Path Node) (base : Path) (name : string) :
  name ≠ "/" → node_at fs (child base name) = fs !! child base name.
Proof.
  intros Hname. unfold node_at, child, is_anchor.
  rewrite decide_False by (by destruct base).
  rewrite bool_decide_eq_false_2; [done|]. destruct base as [|x [|y base]]; simpl; congruence.
Qed.

Lemma managed_dir_is_dir (path : Path) (managed_dir : string) (w w' : World) (dir : Path) :
  get_managed_dir_common path managed_dir w = (inr dir, w') →
  node_at (disk w') dir = Some Dir.
Proof.
  unfold get_managed_dir_common. intros Hrun.
  apply bind_inr in Hrun as (fs & w1 & [= <- <-] & Hrun).
  apply bind_inr in Hrun as ([] & w2 & Hmk & [= <- <-]).
  apply mkdir_exist_ok_cases in Hmk as [Hdir _]. unfold is_dir in Hdir.
  by destruct (node_at (disk w2) _) as [[|?]|].
Qed.

(** What [clear_static_dir] does step by step when it returns: the directory
    is there after the first step, the tree under it is removed, and it is
    made again. *)
Lemma clear_static_dir_inr (w w' : World) (static_dir : Path) :
  clear_static_dir app w = (inr static_dir, w') →
  ∃ w1,
    get_managed_dir_common (view_root app) "_static" w = (inr static_dir, w1) ∧
    w' = MkWorld
           (foldl (λ fs q, if path_exists fs q then fs else <[q := Dir]> fs)
                  (filter (λ kv, ¬ (static_dir `prefix_of` kv.1)) (disk w1))
                  (ancestors_and_self static_dir))
           (bundled_scripts w1).
Proof.
  intros Hrun. unfold clear_static_dir in Hrun.
  apply bind_inr in Hrun as (dir & w1 & Hdir & Hrun).
  apply bind_inr in Hrun as (fs & w1' & [= <- <-] & Hrun).
  apply bind_inr in Hrun as ([] & w2 & Hrm & Hrun).
  apply bind_inr in Hrun as ([] & w3 & Hmk & [= <- <-]).
  exists w1. split; [done|].
  pose proof (managed_dir_is_dir _ _ _ _ _ Hdir) as Hnode.
  unfold path_exists in Hrm. rewrite Hnode in Hrm.
  rewrite bool_decide_eq_true_2 in Hrm by done.
  unfold rmtree, bind, read_disk, set_disk in Hrm. rewrite Hnode in Hrm.
  injection Hrm as <-.
  unfold mkdir_parents, bind, read_disk, set_disk, raise in Hmk. simpl in Hmk.
  destruct (node_at _ dir); [done|]. destruct (existsb _ _); [done|].
  by injection Hmk as <-.
Qed.

(** X13. When the first lines of [build_javascript_chunks] have run, the
    static directory, [_static] under the view root (under its parent when
    the view root is a file), is a directory with nothing left in or below
    it, and no script list has been touched. *)
Theorem static_dir_is_emptied (w w' : World) (static_dir : Path) :
  clear_static_dir app w = (inr static_dir, w') →
  static_dir = child (if is_file (disk w) (view_root app) then parent (view_root app)
                      else view_root app) "_static" ∧
  disk w' !! static_dir = Some Dir ∧
  (∀ q, static_dir `prefix_of` q → q ≠ static_dir → disk w' !! q = None) ∧
  bundled_scripts w' = bundled_scripts w.
Proof.
  intros Hrun. pose proof (keeps_scripts_clear_static_dir app w) as Hscripts.
  rewrite Hrun in Hscripts. simpl in Hscripts.
  apply clear_static_dir_inr in Hrun as (w1 & Hdir & ->).
  apply get_managed_dir_common_inr in Hdir as [Hname _].
  assert (filter (λ kv : Path * Node, ¬ static_dir `prefix_of` kv.1) (disk w1)
            !! static_dir = None) as Hgone.
  { apply map_lookup_filter_None. right. intros v _ Hnot. by apply Hnot. }
  split; [done|]. split; [|split; [|done]]; simpl.
  - apply make_dirs_made.
    + apply self_is_ancestor. rewrite Hname. unfold child.
      by destruct (if is_file (disk w) (view_root app) then _ else _).
    + rewrite Hname, node_at_child by done. by rewrite <- Hname.
  - intros q Hprefix Hq. rewrite make_dirs_lookup.
    + apply map_lookup_filter_None. right. intros v _ Hnot. by apply Hnot.
    + intros Hin. apply ancestors_are_prefixes in Hin.
      apply Hq. by apply (anti_symm prefix).
Qed.

Lemma prefix_of_child (q base : Path) (name : string) :
  q `prefix_of` child base name → q = child base name ∨ q `prefix_of` base.
Proof.
  unfold child. intros [rest Hrest]. destruct rest as [|y rest _] using rev_ind.
  - left. by rewrite app_nil_r in Hrest.
  - right. rewrite app_assoc in Hrest. apply app_inj_tail in Hrest as [-> _].
    by exists rest.
Qed.

Lemma run_threads_frame (P : Path → Prop) (static_dir : Path) (sched : list nat) :
  (∀ name, P (child static_dir name)) → writes_only P (run_threads app static_dir sched).
Proof.
  intros HP w p Hp. unfold run_threads. simpl. revert w.
  induction sched as [|i sched IH]; intros w; [done|]. simpl. rewrite IH.
  destruct (controllers app !! i) as [d|]; [|done]. unfold run_thread.
  destruct (spawn_builder_cases app static_dir (controller d) w)
    as [[e ->]|(contents & map_contents & _ & [[e ->]| ->])]; simpl; [done|..].
  - apply lookup_insert_ne. intros <-. apply Hp, HP.
  - rewrite !lookup_insert_ne; [done|intros <-; apply Hp, HP..].
Qed.

Lemma clear_static_dir_frame :
  writes_only (λ p, "_static" ∈ p ∨ p `prefix_of` view_root app) (clear_static_dir app) ∧
  returns (λ dir : Path, "_static" ∈ dir) (clear_static_dir app).
Proof.
  assert (∀ base : Path, "_static" ∈ child base "_static") as Hchild.
  { intros base. unfold child. apply elem_of_app. right. left. }
  split.
  - unfold clear_static_dir, get_managed_static_dir.
    eapply writes_only_bind;
      [apply writes_only_get_managed_dir_common; auto
      |apply returns_get_managed_dir_common|].
    intros dir (base & -> & Hbase).
    apply writes_only_seq; [apply writes_only_read_disk|]. intros fs.
    apply writes_only_seq.
    { destruct (path_exists fs _); [|apply writes_only_ret].
      apply writes_only_rmtree. intros q [rest ->]. left.
      apply elem_of_app. left. apply Hchild. }
    intros _. apply writes_only_seq; [|intros _; apply writes_only_ret].
    apply writes_only_mkdir_parents. intros q Hq.
    apply prefix_of_child in Hq as [->|Hq]; [left; apply Hchild|].
    right. by etrans.
  - intros w dir w' Hrun. apply clear_static_dir_inr in Hrun as (w1 & Hdir & _).
    apply get_managed_dir_common_inr in Hdir as [-> _]. apply Hchild.
Qed.

(** X14. Whatever [build] does, and whether it returns or raises, the only
    paths of the disk it can change are those with a part [_server] or
    [_static] and the view root with the directories above it (which
    [mkdir(parents=True)] makes when they are missing): every other path,
    and so every view source, holds after the build what it held before. *)
Theorem build_leaves_sources_alone (sched : list nat) (w : World) (p : Path) :
  "_server" ∉ p → "_static" ∉ p → ¬ p `prefix_of` view_root app →
  disk (build app sched w).2 !! p = disk w !! p.
Proof.
  intros Hserver Hstatic Hroot.
  cut (writes_only (λ p, "_server" ∈ p ∨ "_static" ∈ p ∨ p `prefix_of` view_root app)
         (build app sched)).
  { intros Hframe. apply Hframe. by intros [?|[?|?]]. }
  clear. unfold build.
  assert (∀ g : M unit,
            writes_only (λ p, "_server" ∈ p) g ∧ keeps_scripts g →
            writes_only (λ p, "_server" ∈ p ∨ "_static" ∈ p ∨ p `prefix_of` view_root app) g)
    as Hgen.
  { intros g [Hg _]. eapply writes_only_weaken; [|exact Hg]. auto. }
  apply writes_only_seq; [apply validate_unique_paths_frame|intros _].
  apply writes_only_seq; [apply Hgen, generate_static_files_frame|intros _].
  apply writes_only_seq; [apply Hgen, generate_model_definitions_frame|intros _].
  apply writes_only_seq; [apply Hgen, generate_action_definitions_frame|intros _].
  apply writes_only_seq; [apply Hgen, generate_global_model_imports_frame|intros _].
  apply writes_only_seq; [apply Hgen, generate_server_provider_frame|intros _].
  apply writes_only_seq; [apply Hgen, generate_view_servers_frame|intros _].
  unfold build_javascript_chunks.
  eapply writes_only_bind; [|apply clear_static_dir_frame|].
  - eapply writes_only_weaken; [|apply clear_static_dir_frame]. intros q [?|?]; auto.
  - intros dir Hdir. apply run_threads_frame. intros name. right. left.
    unfold child. apply elem_of_app. by left.
Qed.

End static_dir_properties.

Section static_dir_witnesses.
Import Py Builder Managed Samples.

Lemma static_dir_is_emptied_witness :
  let cleared := clear_static_dir two_pages stale_world in
  cleared.1 = inr ["views"; "_static"] ∧
  disk cleared.2 !! ["views"; "_static"] = Some Dir ∧
  disk cleared.2 !! ["views"; "_static"; "home-0.js"] = None.
Proof.
  intros cleared.
  destruct (static_dir_is_emptied two_pages stale_world cleared.2 ["views"; "_static"])
    as (_ & Hdir & Hempty & _).
  - vm_cast_no_check (eq_refl (inr (A := Exn) ["views"; "_static"], cleared.2)).
  - split; [reflexivity|]. split; [exact Hdir|]. apply Hempty.
    + by exists ["home-0.js"].
    + discriminate.
Defined.

Lemma build_leaves_sources_alone_witness :
  disk (build (H := sample_collaborators) two_pages [0; 1] stale_world).2
    !! ["views"; "app"; "home"; "page.tsx"] = Some (File "export default Home").
Proof.
  rewrite (build_leaves_sources_alone (H := sample_collaborators) two_pages [0; 1]
             stale_world ["views"; "app"; "home"; "page.tsx"]).
  - reflexivity.
  - intros Hin. by repeat (apply elem_of_cons in Hin as [Hin|Hin]; [discriminate Hin|]);
      apply elem_of_nil in Hin.
  - intros Hin. by repeat (apply elem_of_cons in Hin as [Hin|Hin]; [discriminate Hin|]);
      apply elem_of_nil in Hin.
  - intros [rest Hrest]. discriminate Hrest.
Defined.

End static_dir_witnesses.

(** ** What a build that returns has written *)

Section output_facts.
Import Py Builder Managed.
Context `{Collaborators} (app : App).

Lemma child_inj (p q : Path) (x y : string) : child p x = child q y → p = q ∧ x = y.
Proof. unfold child. intros Heq. by apply app_inj_tail in Heq. Qed.

Lemma elem_of_parent (x : string) (p : Path) : x ∈ parent p → x ∈ p.
Proof.
  unfold parent. destruct (is_anchor p); [done|].
  induction p as [|y p IH]; [done|]. destruct p as [|z p]; simpl.
  - by intros ?%elem_of_nil.
  - intros [->|Hin]%elem_of_cons; [left|right; by apply IH].
Qed.

Lemma is_file_lookup (fs fs' : gmap Path Node) (p : Path) :
  fs' !! p = fs !! p → is_file fs' p = is_file fs p.
Proof. intros Heq. unfold is_file, node_at. by rewrite Heq. Qed.

Lemma controller_file_managed (d : ControllerDefinition) (name : string) :
  "_server" ∈ controller_file d name.
Proof. unfold controller_file, child. apply elem_of_app. left. apply elem_of_app. right. left. Qed.

Lemma controller_file_not_dir (d : ControllerDefinition) (name : string) (dir : Path) :
  name ≠ "_server" → controller_file d name ≠ child dir "_server".
Proof. intros Hname [_ ?]%child_inj. done. Qed.

Lemma controller_file_not_output (d : ControllerDefinition) (name name' : string) :
  name ≠ "_server" → name ≠ name' → ¬ managed_output name' (controller_file d name).
Proof.
  intros Hname Hne [[dir Hdir]|[dir Hdir]].
  - by apply controller_file_not_dir in Hdir.
  - by apply child_inj in Hdir as [_ ?].
Qed.

Lemma controller_file_inj (d d' : ControllerDefinition) (name : string) :
  controller_file d name = controller_file d' name → view_dir d = view_dir d'.
Proof. by intros [[? _]%child_inj _]%child_inj. Qed.

(** A managed code directory, once asked for, is there, and only a
    directory called [_server] can have been added for it. *)
Lemma get_managed_code_dir_inr (path : Path) (w w' : World) (dir : Path) :
  get_managed_code_dir path w = (inr dir, w') →
  dir = child (if is_file (disk w) path then parent path else path) "_server" ∧
  node_at (disk w') dir = Some Dir ∧
  ∀ p, (∀ base, p ≠ child base "_server") → disk w' !! p = disk w !! p.
Proof.
  intros Hrun. pose proof (managed_dir_is_dir _ _ _ _ _ Hrun) as Hdir.
  apply get_managed_dir_common_inr in Hrun as [Hname [->| ->]].
  - done.
  - split; [done|]. split; [done|]. intros p Hp. simpl.
    apply lookup_insert_ne. intros <-. by apply (Hp _ Hname).
Qed.

Lemma write_text_in_dir (dir : Path) (name text : string) (w w' : World) :
  write_text (child dir name) text w = (inr tt, w') →
  disk w' !! child dir name = Some (File text) ∧
  ∀ p, p ≠ child dir name → disk w' !! p = disk w !! p.
Proof.
  intros ->%write_text_inr. simpl. split; [apply lookup_insert_eq|].
  intros p Hp. by apply lookup_insert_ne.
Qed.

Lemma frame_inr {A} (P : Path → Prop) (m : M A) (w w' : World) (a : A) (p : Path) :
  writes_only P m → m w = (inr a, w') → ¬ P p → disk w' !! p = disk w !! p.
Proof. intros Hm Hrun Hp. specialize (Hm w p Hp). by rewrite Hrun in Hm. Qed.

Lemma writes_only_code_dir (P : Path → Prop) (path : Path) :
  (∀ base, P (child base "_server")) → writes_only P (get_managed_code_dir path).
Proof.
  intros HP. unfold get_managed_code_dir, get_managed_dir_common.
  apply writes_only_seq; [apply writes_only_read_disk|]. intros fs.
  apply writes_only_seq; [|intros _; apply writes_only_ret].
  apply writes_only_mkdir_exist_ok, HP.
Qed.

Lemma returns_code_dir (path : Path) :
  returns (λ dir : Path,
             dir = child path "_server" ∨ dir = child (parent path) "_server")
    (get_managed_code_dir path).
Proof.
  intros w dir w' Hrun. apply get_managed_dir_common_inr in Hrun as [-> _].
  destruct (is_file (disk w) path); auto.
Qed.

(** A step that asks for a managed code directory and writes [name] there. *)
Lemma writes_only_output {A} (name : string) (path : Path) (k : Path → M A) :
  (∀ base, writes_only (managed_output name) (k (child base "_server"))) →
  writes_only (managed_output name) (bind (get_managed_code_dir path) k).
Proof.
  intros Hk. eapply writes_only_bind;
    [apply writes_only_code_dir; intros base; left; by eexists|apply returns_code_dir|].
  intros dir [-> | ->]; apply Hk.
Qed.

Lemma writes_only_output_file (name text : string) (base : Path) :
  writes_only (managed_output name) (write_text (child (child base "_server") name) text).
Proof. apply writes_only_write_text. right. by eexists. Qed.

Lemma generate_model_definitions_output :
  writes_only (managed_output "models.ts") (generate_model_definitions app).
Proof.
  unfold generate_model_definitions, generate_model_definition.
  apply writes_only_for_each. intros d _.
  apply writes_only_seq; [apply writes_only_lift|]. intros schemas.
  apply writes_only_output. intros base. apply writes_only_output_file.
Qed.

Lemma generate_action_definitions_output :
  writes_only (managed_output "actions.ts") (generate_action_definitions app).
Proof.
  unfold generate_action_definitions, generate_action_definition.
  apply writes_only_for_each. intros d _.
  apply writes_only_output. intros base. apply writes_only_output. intros root.
  apply writes_only_seq; [apply writes_only_lift|]. intros converted.
  apply writes_only_output_file.
Qed.

Lemma generate_server_provider_output :
  writes_only (managed_output "server.tsx") (generate_server_provider app).
Proof.
  unfold generate_server_provider.
  apply writes_only_output. intros base. apply writes_only_output_file.
Qed.

Lemma generate_view_servers_output :
  writes_only (managed_output "useServer.ts") (generate_view_servers app).
Proof.
  unfold generate_view_servers, generate_view_server.
  apply writes_only_for_each. intros d _.
  apply writes_only_output. intros base. apply writes_only_output. intros root.
  apply writes_only_output_file.
Qed.

(** The root [models.ts] is the only file [generate_global_model_imports]
    writes. *)
Lemma generate_global_model_imports_output :
  writes_only (λ p, (∃ base, p = child base "_server") ∨
                    p = child (child (view_root app) "_server") "models.ts" ∨
                    p = child (child (parent (view_root app)) "_server") "models.ts")
    (generate_global_model_imports app).
Proof.
  unfold generate_global_model_imports. apply writes_only_seq.
  - induction (controllers app) as [|d defs IH]; simpl; [apply writes_only_ret|].
    apply writes_only_seq; [apply writes_only_code_dir; intros base; left; by eexists|].
    intros dir. apply writes_only_seq; [done|]. intros lines. apply writes_only_ret.
  - intros lines. eapply writes_only_bind;
      [apply writes_only_code_dir; intros base; left; by eexists|apply returns_code_dir|].
    intros dir [-> | ->]; apply writes_only_write_text; auto.
Qed.

Lemma build_javascript_chunks_frame (sched : list nat) :
  writes_only (λ p, "_static" ∈ p ∨ p `prefix_of` view_root app)
    (build_javascript_chunks app sched).
Proof.
  unfold build_javascript_chunks.
  eapply writes_only_bind; [apply clear_static_dir_frame..|].
  intros dir Hdir. apply run_threads_frame. intros name. left.
  unfold child. apply elem_of_app. by left.
Qed.

(** A path with no part [_server] is no managed directory and no file of
    one. *)
Lemma unmanaged_path (p : Path) :
  "_server" ∉ p →
  (∀ base, p ≠ child base "_server") ∧ (∀ d name, p ≠ controller_file d name).
Proof.
  intros Hp. split.
  - intros base ->. apply Hp. unfold child. apply elem_of_app. right. left.
  - intros d name ->. apply Hp, controller_file_managed.
Qed.

(** What [generate_model_definition] has done when it returns for a view
    that is a file. *)
Lemma generate_model_definition_inr (d : ControllerDefinition) (w w1 : World) :
  generate_model_definition d w = (inr tt, w1) →
  is_file (disk w) (view_path (controller d)) = true →
  (∃ text, (∃ schemas, model_schemas d = inr schemas ∧ text = models_ts schemas) ∧
           disk w1 !! controller_file d "models.ts" = Some (File text)) ∧
  ∀ p, p ≠ controller_file d "models.ts" → (∀ base, p ≠ child base "_server") →
       disk w1 !! p = disk w !! p.
Proof.
  intros Hrun Hfile. unfold generate_model_definition in Hrun.
  apply bind_inr in Hrun as (schemas & w0 & Hschemas & Hrun).
  unfold lift in Hschemas. injection Hschemas as Hschemas <-.
  apply bind_inr in Hrun as (dir & wa & Hdir & Hwrite).
  apply get_managed_code_dir_inr in Hdir as (-> & _ & Hkept). rewrite Hfile in Hwrite.
  apply write_text_in_dir in Hwrite as [Hwritten Hrest]. split.
  - exists (models_ts schemas). split; [by exists schemas|done].
  - intros p Hp Hbase. rewrite Hrest by done. by apply Hkept.
Qed.

(** A step that leaves the unmanaged paths alone leaves the root's managed
    code directory where it was. *)
Lemma root_code_dir_kept (w w1 : World) :
  "_server" ∉ view_root app →
  (∀ p, (∀ base, p ≠ child base "_server") → disk w1 !! p = disk w !! p) →
  managed_dir_of (disk w1) (view_root app) "_server"
    = managed_dir_of (disk w) (view_root app) "_server".
Proof.
  intros Hroot Hkept. unfold managed_dir_of.
  rewrite (is_file_lookup (disk w) (disk w1)); [done|].
  apply Hkept. by apply unmanaged_path.
Qed.

Lemma generate_action_definition_inr (d : ControllerDefinition) (w w1 : World) :
  generate_action_definition app d w = (inr tt, w1) →
  is_file (disk w) (view_path (controller d)) = true →
  "_server" ∉ view_root app →
  (∃ text,
     (∃ output_schemas required_types,
        convert_actions (openapi_from_controller d) = inr (output_schemas, required_types) ∧
        text = actions_ts
                 (generate_relative_import (controller_file d "actions.ts")
                    (child (managed_dir_of (disk w) (view_root app) "_server") "api.ts"))
                 output_schemas required_types) ∧
     disk w1 !! controller_file d "actions.ts" = Some (File text)) ∧
  ∀ p, p ≠ controller_file d "actions.ts" → (∀ base, p ≠ child base "_server") →
       disk w1 !! p = disk w !! p.
Proof.
  intros Hrun Hfile Hroot. unfold generate_action_definition in Hrun.
  apply bind_inr in Hrun as (dir & wa & Hdir & Hrun).
  apply get_managed_code_dir_inr in Hdir as (-> & _ & Hkept_a). rewrite Hfile in Hrun.
  apply bind_inr in Hrun as (root & wb & Hdir & Hrun).
  apply get_managed_code_dir_inr in Hdir as (-> & _ & Hkept_b).
  apply bind_inr in Hrun as ([output_schemas required_types] & w0 & Hconverted & Hwrite).
  unfold lift in Hconverted. injection Hconverted as Hconverted <-.
  apply write_text_in_dir in Hwrite as [Hwritten Hrest]. split.
  - eexists. split; [|exact Hwritten]. exists output_schemas, required_types.
    split; [done|]. simpl. fold (managed_dir_of (disk wa) (view_root app) "_server").
    by rewrite (root_code_dir_kept w wa).
  - intros p Hp Hbase. rewrite Hrest, Hkept_b by done. by apply Hkept_a.
Qed.

Lemma generate_view_server_inr (d : ControllerDefinition) (w w1 : World) :
  generate_view_server app d w = (inr tt, w1) →
  is_file (disk w) (view_path (controller d)) = true →
  "_server" ∉ view_root app →
  (∃ text,
     text = use_server_ts (controller d)
              (generate_relative_import (child (view_dir d) "_server")
                 (managed_dir_of (disk w) (view_root app) "_server")) ∧
     disk w1 !! controller_file d "useServer.ts" = Some (File text)) ∧
  ∀ p, p ≠ controller_file d "useServer.ts" → (∀ base, p ≠ child base "_server") →
       disk w1 !! p = disk w !! p.
Proof.
  intros Hrun Hfile Hroot. unfold generate_view_server in Hrun.
  apply bind_inr in Hrun as (dir & wa & Hdir & Hrun).
  apply get_managed_code_dir_inr in Hdir as (-> & _ & Hkept_a). rewrite Hfile in Hrun.
  apply bind_inr in Hrun as (root & wb & Hdir & Hwrite).
  apply get_managed_code_dir_inr in Hdir as (-> & _ & Hkept_b).
  apply write_text_in_dir in Hwrite as [Hwritten Hrest]. split.
  - eexists. split; [|exact Hwritten].
    fold (managed_dir_of (disk wa) (view_root app) "_server").
    by rewrite (root_code_dir_kept w wa).
  - intros p Hp Hbase. rewrite Hrest, Hkept_b by done. by apply Hkept_a.
Qed.

End output_facts.

(** The loops over the registry: with the views in pairwise different
    directories, what one round writes no later round overwrites. *)
Section controller_loops.
Import Py Builder Managed.
Context `{Collaborators} (app : App).
Variables (body : ControllerDefinition → M unit) (name : string).
Variable Q : World → ControllerDefinition → string → Prop.
Hypothesis name_is_no_dir : name ≠ "_server".
Hypothesis root_unmanaged : "_server" ∉ view_root app.
Hypothesis Q_kept : ∀ w w1 d text,
  managed_dir_of (disk w1) (view_root app) "_server"
    = managed_dir_of (disk w) (view_root app) "_server" →
  Q w1 d text → Q w d text.
Hypothesis body_inr : ∀ d w w1,
  body d w = (inr tt, w1) →
  is_file (disk w) (view_path (controller d)) = true →
  (∃ text, Q w d text ∧ disk w1 !! controller_file d name = Some (File text)) ∧
  ∀ p, p ≠ controller_file d name → (∀ base, p ≠ child base "_server") →
       disk w1 !! p = disk w !! p.

Lemma for_each_controller_files (defs : list ControllerDefinition) (w w' : World) :
  for_each defs body w = (inr tt, w') →
  Forall (λ d, is_file (disk w) (view_path (controller d)) = true ∧
               "_server" ∉ view_path (controller d)) defs →
  NoDup (view_dir <$> defs) →
  (∀ d, d ∈ defs →
     ∃ text, Q w d text ∧ disk w' !! controller_file d name = Some (File text)) ∧
  (∀ p, (∀ d, d ∈ defs → p ≠ controller_file d name) →
        (∀ base, p ≠ child base "_server") → disk w' !! p = disk w !! p).
Proof.
  revert w. induction defs as [|d defs IH]; intros w Hrun Hfiles Hnodup.
  { injection Hrun as <-. split; [by intros d ?%elem_of_nil|done]. }
  simpl in Hrun. apply bind_inr in Hrun as ([] & w1 & Hbody & Hrest).
  apply Forall_cons in Hfiles as [[Hfile Hview] Hfiles].
  rewrite fmap_cons in Hnodup. apply NoDup_cons in Hnodup as [Hfresh Hnodup].
  destruct (body_inr d w w1 Hbody Hfile) as [(text & HQ & Hwritten) Hkept].
  destruct (IH w1 Hrest) as [Hlater Hframe]; [|done|].
  { eapply Forall_impl; [exact Hfiles|]. intros d' [Hfile' Hview']. split; [|done].
    rewrite <- Hfile'. apply is_file_lookup.
    apply unmanaged_path in Hview' as [Hdir Hnofile]. by apply Hkept. }
  assert (managed_dir_of (disk w1) (view_root app) "_server"
            = managed_dir_of (disk w) (view_root app) "_server") as Hsame.
  { unfold managed_dir_of. rewrite (is_file_lookup (disk w) (disk w1)); [done|].
    apply unmanaged_path in root_unmanaged as [Hdir Hnofile]. by apply Hkept. }
  split.
  - intros d' [->|Hin]%elem_of_cons.
    + exists text. split; [done|]. rewrite Hframe; [done| |].
      * intros d' Hin Heq. apply Hfresh. apply list_elem_of_fmap. exists d'.
        split; [|done]. by apply (controller_file_inj d d' name).
      * intros base. by apply controller_file_not_dir.
    + destruct (Hlater d' Hin) as (text' & HQ' & Hwritten').
      exists text'. split; [|done]. by apply (Q_kept w w1).
  - intros p Hp Hbase. rewrite Hframe.
    + apply Hkept; [|done]. apply Hp. left.
    + intros d' Hin. apply Hp. by right.
    + done.
Qed.

End controller_loops.

Section build_output.
Import Py Builder Managed.
Context `{Collaborators} (app : App).

Lemma validate_unique_paths_inr (w w' : World) :
  validate_unique_paths app w = (inr tt, w') → w' = w ∧ NoDup (view_dir <$> controllers app).
Proof.
  unfold validate_unique_paths.
  destruct (duplicate_views app) eqn:Hdup; [|done]. intros Hrun. split.
  - assert (disk w' = disk w ∧ bundled_scripts w' = bundled_scripts w) as [Hdisk Hscripts].
    { destruct (validate_unique_paths_frame app (λ _, False)) as [Hw Hs].
      unfold validate_unique_paths in Hw, Hs. rewrite Hdup in Hw, Hs. split.
      - apply map_eq. intros p. specialize (Hw w p). rewrite Hrun in Hw. apply Hw. tauto.
      - specialize (Hs w). by rewrite Hrun in Hs. }
    destruct w, w'. simpl in *. by subst.
  - by apply duplicate_views_nil_NoDup.
Qed.

(** A build that returns has run its eight stages to the end, one after
    the other. *)
Lemma build_inr (sched : list nat) (w w' : World) :
  build app sched w = (inr tt, w') →
  NoDup (view_dir <$> controllers app) ∧
  ∃ w1 w2 w3 w4 w5 w6,
    generate_static_files app w = (inr tt, w1) ∧
    generate_model_definitions app w1 = (inr tt, w2) ∧
    generate_action_definitions app w2 = (inr tt, w3) ∧
    generate_global_model_imports app w3 = (inr tt, w4) ∧
    generate_server_provider app w4 = (inr tt, w5) ∧
    generate_view_servers app w5 = (inr tt, w6) ∧
    build_javascript_chunks app sched w6 = (inr tt, w').
Proof.
  unfold build. intros Hrun.
  apply bind_inr in Hrun as ([] & w0 & [-> Hnodup]%validate_unique_paths_inr & Hrun).
  apply bind_inr in Hrun as ([] & w1 & H1 & Hrun).
  apply bind_inr in Hrun as ([] & w2 & H2 & Hrun).
  apply bind_inr in Hrun as ([] & w3 & H3 & Hrun).
  apply bind_inr in Hrun as ([] & w4 & H4 & Hrun).
  apply bind_inr in Hrun as ([] & w5 & H5 & Hrun).
  apply bind_inr in Hrun as ([] & w6 & H6 & Hrun).
  split; [done|]. by exists w1, w2, w3, w4, w5, w6.
Qed.

(** The registered views are files outside the managed directories. *)
Local Abbreviation views_are_files w :=
  (Forall (λ d, is_file (disk w) (view_path (controller d)) = true ∧
                "_server" ∉ view_path (controller d)) (controllers app)).

Lemma stage_keeps_views {A} (m : M A) (w w1 : World) (a : A) :
  writes_only (λ p, "_server" ∈ p) m → m w = (inr a, w1) →
  views_are_files w → views_are_files w1.
Proof.
  intros Hm Hrun Hviews. eapply Forall_impl; [exact Hviews|].
  intros d [Hfile Hview]. split; [|done]. rewrite <- Hfile. apply is_file_lookup.
  by eapply frame_inr.
Qed.

Lemma stage_keeps_root {A} (m : M A) (w w1 : World) (a : A) :
  writes_only (λ p, "_server" ∈ p) m → m w = (inr a, w1) →
  "_server" ∉ view_root app →
  managed_dir_of (disk w1) (view_root app) "_server"
    = managed_dir_of (disk w) (view_root app) "_server".
Proof.
  intros Hm Hrun Hroot. unfold managed_dir_of.
  rewrite (is_file_lookup (disk w) (disk w1)); [done|].
  by eapply frame_inr.
Qed.

Lemma managed_file_not_output (dir : Path) (name name' : string) :
  name ≠ "_server" → name ≠ name' → ¬ managed_output name' (child (child dir "_server") name).
Proof.
  intros Hname Hne [[base Hbase]|[base Hbase]].
  - by apply child_inj in Hbase as [_ ?].
  - by apply child_inj in Hbase as [_ ?].
Qed.

Lemma managed_file_not_dir (dir base : Path) (name : string) :
  name ≠ "_server" → child (child dir "_server") name ≠ child base "_server".
Proof. by intros Hname [_ ?]%child_inj. Qed.

Lemma elem_of_prefix (x : string) (p q : Path) : x ∈ p → p `prefix_of` q → x ∈ q.
Proof. intros Hx [rest ->]. apply elem_of_app. by left. Qed.

(** A file of a managed code directory is out of the way of
    [build_javascript_chunks] when the directory is. *)
Lemma managed_file_not_static (base : Path) (name : string) :
  "_static" ∉ base → "_server" ∉ view_root app → name ≠ "_static" →
  ¬ ("_static" ∈ child (child base "_server") name ∨
     child (child base "_server") name `prefix_of` view_root app).
Proof.
  intros Hbase Hroot Hname [Hin|Hprefix].
  - unfold child in Hin.
    apply elem_of_app in Hin as [[Hin|Hin%list_elem_of_singleton]%elem_of_app
                                |Hin%list_elem_of_singleton]; done.
  - apply Hroot. eapply elem_of_prefix; [|exact Hprefix].
    unfold child. apply elem_of_app. left. apply elem_of_app. right. left.
Qed.

Lemma root_base_not_static (fs : gmap Path Node) :
  "_static" ∉ view_root app →
  "_static" ∉ (if is_file fs (view_root app) then parent (view_root app) else view_root app).
Proof. intros Hroot. destruct (is_file fs _); [|done]. by intros ?%elem_of_parent. Qed.

Lemma generate_static_files_inr (w w1 : World) :
  generate_static_files app w = (inr tt, w1) →
  disk w1 !! child (managed_dir_of (disk w) (view_root app) "_server") "api.ts"
    = Some (File api_ts).
Proof.
  unfold generate_static_files. intros Hrun.
  apply bind_inr in Hrun as (dir & wa & Hdir & Hwrite).
  apply get_managed_code_dir_inr in Hdir as (-> & _ & _).
  by apply write_text_in_dir in Hwrite as [Hwritten _].
Qed.

Lemma generate_server_provider_inr (w w1 : World) :
  generate_server_provider app w = (inr tt, w1) →
  disk w1 !! child (managed_dir_of (disk w) (view_root app) "_server") "server.tsx"
    = Some (File (server_tsx app)).
Proof.
  unfold generate_server_provider. intros Hrun.
  apply bind_inr in Hrun as (dir & wa & Hdir & Hwrite).
  apply get_managed_code_dir_inr in Hdir as (-> & _ & _).
  by apply write_text_in_dir in Hwrite as [Hwritten _].
Qed.

(** The loop of [generate_global_model_imports] on views that are files:
    one line per controller, in registration order. *)
Lemma global_model_imports_inr (defs : list ControllerDefinition) (w w' : World)
    (lines : list string) :
  global_model_imports app defs w = (inr lines, w') →
  Forall (λ d, is_file (disk w) (view_path (controller d)) = true ∧
               "_server" ∉ view_path (controller d)) defs →
  lines = (λ d, global_model_import (controller d)
                  (generate_relative_import (view_root app) (controller_file d "models.ts")))
          <$> defs ∧
  ∀ p, (∀ base, p ≠ child base "_server") → disk w' !! p = disk w !! p.
Proof.
  revert w lines. induction defs as [|d defs IH]; intros w lines Hrun Hfiles.
  { by injection Hrun as <- <-. }
  simpl in Hrun. apply Forall_cons in Hfiles as [[Hfile Hview] Hfiles].
  apply bind_inr in Hrun as (dir & wa & Hdir & Hrun).
  apply get_managed_code_dir_inr in Hdir as (-> & _ & Hkept). rewrite Hfile in Hrun.
  apply bind_inr in Hrun as (rest & wb & Hrest & [= <- <-]).
  apply IH in Hrest as [-> Hframe].
  - split; [done|]. intros p Hp. rewrite Hframe by done. by apply Hkept.
  - eapply Forall_impl; [exact Hfiles|]. intros d' [Hfile' Hview']. split; [|done].
    rewrite <- Hfile'. apply is_file_lookup. apply Hkept. by apply unmanaged_path.
Qed.

Lemma generate_global_model_imports_inr (w w' : World) :
  generate_global_model_imports app w = (inr tt, w') →
  views_are_files w → "_server" ∉ view_root app →
  disk w' !! child (managed_dir_of (disk w) (view_root app) "_server") "models.ts"
    = Some (File (join nl
        ((λ d, global_model_import (controller d)
                 (generate_relative_import (view_root app)
                    (controller_file d "models.ts")))
         <$> controllers app))) ∧
  ∀ p, p ≠ child (managed_dir_of (disk w) (view_root app) "_server") "models.ts" →
       (∀ base, p ≠ child base "_server") → disk w' !! p = disk w !! p.
Proof.
  unfold generate_global_model_imports. intros Hrun Hviews Hroot.
  apply bind_inr in Hrun as (lines & wa & Hlines & Hrun).
  apply global_model_imports_inr in Hlines as [-> Hkept_a]; [|done].
  apply bind_inr in Hrun as (dir & wb & Hdir & Hwrite).
  apply get_managed_code_dir_inr in Hdir as (-> & _ & Hkept_b).
  fold (managed_dir_of (disk wa) (view_root app) "_server") in Hwrite.
  rewrite (root_code_dir_kept app w wa) in Hwrite by done.
  apply write_text_in_dir in Hwrite as [Hwritten Hrest]. split; [done|].
  intros p Hp Hbase. rewrite Hrest, Hkept_b by done. by apply Hkept_a.
Qed.

(** The stages of a build that returns, with what every generator finds:
    the views are still files and the root's managed code directory is
    where it was at the start. *)
Lemma build_stages (sched : list nat) (w w' : World) :
  build app sched w = (inr tt, w') →
  views_are_files w → "_server" ∉ view_root app →
  NoDup (view_dir <$> controllers app) ∧
  ∃ w1 w2 w3 w4 w5 w6,
    generate_static_files app w = (inr tt, w1) ∧
    generate_model_definitions app w1 = (inr tt, w2) ∧
    generate_action_definitions app w2 = (inr tt, w3) ∧
    generate_global_model_imports app w3 = (inr tt, w4) ∧
    generate_server_provider app w4 = (inr tt, w5) ∧
    generate_view_servers app w5 = (inr tt, w6) ∧
    build_javascript_chunks app sched w6 = (inr tt, w') ∧
    Forall (λ wi, views_are_files wi ∧
                  managed_dir_of (disk wi) (view_root app) "_server"
                    = managed_dir_of (disk w) (view_root app) "_server")
      [w1; w2; w3; w4; w5].
Proof.
  intros Hrun Hviews Hroot.
  apply build_inr in Hrun as [Hnodup (w1 & w2 & w3 & w4 & w5 & w6 & H1 & H2 & H3 & H4 & H5
                                      & H6 & H7)].
  split; [done|]. exists w1, w2, w3, w4, w5, w6. repeat (split; [done|]).
  pose proof (stage_keeps_views _ _ _ _ (proj1 (generate_static_files_frame app)) H1 Hviews)
    as Hviews1.
  pose proof (stage_keeps_views _ _ _ _ (proj1 (generate_model_definitions_frame app)) H2
                Hviews1) as Hviews2.
  pose proof (stage_keeps_views _ _ _ _ (proj1 (generate_action_definitions_frame app)) H3
                Hviews2) as Hviews3.
  pose proof (stage_keeps_views _ _ _ _ (proj1 (generate_global_model_imports_frame app)) H4
                Hviews3) as Hviews4.
  pose proof (stage_keeps_views _ _ _ _ (proj1 (generate_server_provider_frame app)) H5
                Hviews4) as Hviews5.
  pose proof (stage_keeps_root _ _ _ _ (proj1 (generate_static_files_frame app)) H1 Hroot)
    as Hroot1.
  pose proof (stage_keeps_root _ _ _ _ (proj1 (generate_model_definitions_frame app)) H2
                Hroot) as Hroot2.
  pose proof (stage_keeps_root _ _ _ _ (proj1 (generate_action_definitions_frame app)) H3
                Hroot) as Hroot3.
  pose proof (stage_keeps_root _ _ _ _ (proj1 (generate_global_model_imports_frame app)) H4
                Hroot) as Hroot4.
  pose proof (stage_keeps_root _ _ _ _ (proj1 (generate_server_provider_frame app)) H5
                Hroot) as Hroot5.
  repeat apply Forall_cons_2; [..|apply Forall_nil_2]; (split; [done|]); congruence.
Qed.

(** X15. When [build] returns for a registry whose views are files outside
    the managed directories, every controller has kept its own generated
    files to the end of the build: [actions.ts] holds the imports and the
    stubs converted for this controller, [useServer.ts] holds its hook,
    and, unless its managed directory is the one of the view root,
    [models.ts] holds its sorted schemas. No later round, later generator
    or build thread has overwritten or removed them. *)
Theorem build_writes_controller_files (sched : list nat) (w w' : World)
    (d : ControllerDefinition) :
  build app sched w = (inr tt, w') →
  d ∈ controllers app →
  "_server" ∉ view_root app →
  Forall (λ d, is_file (disk w) (view_path (controller d)) = true ∧
               "_server" ∉ view_path (controller d)) (controllers app) →
  "_static" ∉ view_path (controller d) →
  let root := managed_dir_of (disk w) (view_root app) "_server" in
  (∃ output_schemas required_types,
     convert_actions (openapi_from_controller d) = inr (output_schemas, required_types) ∧
     disk w' !! controller_file d "actions.ts"
       = Some (File (actions_ts
                       (generate_relative_import (controller_file d "actions.ts")
                          (child root "api.ts"))
                       output_schemas required_types))) ∧
  disk w' !! controller_file d "useServer.ts"
    = Some (File (use_server_ts (controller d)
                    (generate_relative_import (child (view_dir d) "_server") root))) ∧
  (child (view_dir d) "_server" ≠ root →
   ∃ schemas,
     model_schemas d = inr schemas ∧
     disk w' !! controller_file d "models.ts" = Some (File (models_ts schemas))).
Proof.
  intros Hrun Hd Hroot Hviews Hstatic root.
  destruct (build_stages sched w w' Hrun Hviews Hroot)
    as [Hnodup (w1 & w2 & w3 & w4 & w5 & w6 & H1 & H2 & H3 & H4 & H5 & H6 & H7 & Hstages)].
  apply Forall_cons in Hstages as [[Hviews1 Hroot1] Hstages].
  apply Forall_cons in Hstages as [[Hviews2 Hroot2] Hstages].
  apply Forall_cons in Hstages as [[Hviews3 Hroot3] Hstages].
  apply Forall_cons in Hstages as [[Hviews4 Hroot4] Hstages].
  apply Forall_cons in Hstages as [[Hviews5 Hroot5] _].
  assert (∀ name, name ≠ "_static" →
            disk w' !! controller_file d name = disk w6 !! controller_file d name)
    as Hchunks.
  { intros name Hname.
    eapply frame_inr; [apply (build_javascript_chunks_frame app sched)|exact H7|].
    apply managed_file_not_static; [|done..]. by intros ?%elem_of_parent. }
  split; [|split].
  - destruct (for_each_controller_files app (generate_action_definition app) "actions.ts"
                (λ w0 d text,
                   ∃ output_schemas required_types,
                     convert_actions (openapi_from_controller d)
                       = inr (output_schemas, required_types) ∧
                     text = actions_ts
                              (generate_relative_import (controller_file d "actions.ts")
                                 (child (managed_dir_of (disk w0) (view_root app) "_server")
                                    "api.ts"))
                              output_schemas required_types)
                ltac:(done) Hroot) with (defs := controllers app) (w := w2) (w' := w3)
      as [Hwritten _]; [| |done|done|done|].
    { intros wa wb d' text Hsame (out & req & Hconv & ->). exists out, req.
      by rewrite <- Hsame. }
    { intros d' wa wb Hbody Hfile. by apply generate_action_definition_inr. }
    destruct (Hwritten d Hd) as (text & (out & req & Hconv & ->) & Hfile).
    exists out, req. split; [done|]. rewrite Hchunks by done.
    rewrite (frame_inr _ _ _ _ _ _ (generate_view_servers_output app) H6)
      by (by apply controller_file_not_output).
    rewrite (frame_inr _ _ _ _ _ _ (generate_server_provider_output app) H5)
      by (by apply controller_file_not_output).
    rewrite (frame_inr _ _ _ _ _ _ (generate_global_model_imports_output app) H4).
    + rewrite Hfile. unfold root. by rewrite <- Hroot2.
    + intros [[base Hbase]|[Hfile'|Hfile']].
      * by apply controller_file_not_dir in Hbase.
      * by apply child_inj in Hfile' as [_ ?].
      * by apply child_inj in Hfile' as [_ ?].
  - destruct (for_each_controller_files app (generate_view_server app) "useServer.ts"
                (λ w0 d text,
                   text = use_server_ts (controller d)
                            (generate_relative_import (child (view_dir d) "_server")
                               (managed_dir_of (disk w0) (view_root app) "_server")))
                ltac:(done) Hroot) with (defs := controllers app) (w := w5) (w' := w6)
      as [Hwritten _]; [| |done|done|done|].
    { intros wa wb d' text Hsame ->. by rewrite <- Hsame. }
    { intros d' wa wb Hbody Hfile. by apply generate_view_server_inr. }
    destruct (Hwritten d Hd) as (text & -> & Hfile).
    rewrite Hchunks by done. rewrite Hfile. unfold root. by rewrite <- Hroot5.
  - intros Hown.
    destruct (for_each_controller_files app (generate_model_definition) "models.ts"
                (λ _ d text, ∃ schemas, model_schemas d = inr schemas ∧ text = models_ts schemas)
                ltac:(done) Hroot) with (defs := controllers app) (w := w1) (w' := w2)
      as [Hwritten _]; [| |done|done|done|].
    { by intros wa wb d' text _ ?. }
    { intros d' wa wb Hbody Hfile. by apply generate_model_definition_inr. }
    destruct (Hwritten d Hd) as (text & (schemas & Hschemas & ->) & Hfile).
    exists schemas. split; [done|]. rewrite Hchunks by done.
    rewrite (frame_inr _ _ _ _ _ _ (generate_view_servers_output app) H6)
      by (by apply controller_file_not_output).
    rewrite (frame_inr _ _ _ _ _ _ (generate_server_provider_output app) H5)
      by (by apply controller_file_not_output).
    destruct (generate_global_model_imports_inr w3 w4 H4 Hviews3 Hroot) as [_ Hkept].
    rewrite Hkept.
    + by rewrite (frame_inr _ _ _ _ _ _ (generate_action_definitions_output app) H3)
        by (by apply controller_file_not_output).
    + rewrite Hroot3. intros [? _]%child_inj. by apply Hown.
    + intros base. by apply controller_file_not_dir.
Qed.

(** X16. When [build] returns for a registry whose views are files outside
    the managed directories, the managed code directory of the view root
    holds at the end [api.ts] with the packaged text, [server.tsx] with the
    provider, and [models.ts] with one re-export line per registered
    controller, in registration order, each importing from that
    controller's own [models.ts]. *)
Theorem build_writes_root_files (sched : list nat) (w w' : World) :
  build app sched w = (inr tt, w') →
  "_server" ∉ view_root app → "_static" ∉ view_root app →
  Forall (λ d, is_file (disk w) (view_path (controller d)) = true ∧
               "_server" ∉ view_path (controller d)) (controllers app) →
  let root := managed_dir_of (disk w) (view_root app) "_server" in
  disk w' !! child root "api.ts" = Some (File api_ts) ∧
  disk w' !! child root "server.tsx" = Some (File (server_tsx app)) ∧
  disk w' !! child root "models.ts"
    = Some (File (join nl
        ((λ d, "export type { " +:+ get_render_local_state (controller d) +:+ " as "
               +:+ get_controller_render_global_type (controller d) +:+ " } from '../"
               +:+ generate_relative_import (view_root app) (controller_file d "models.ts")
               +:+ "'")
         <$> controllers app))).
Proof.
  intros Hrun Hroot Hstatic Hviews root.
  destruct (build_stages sched w w' Hrun Hviews Hroot)
    as [Hnodup (w1 & w2 & w3 & w4 & w5 & w6 & H1 & H2 & H3 & H4 & H5 & H6 & H7 & Hstages)].
  apply Forall_cons in Hstages as [[Hviews1 Hroot1] Hstages].
  apply Forall_cons in Hstages as [[Hviews2 Hroot2] Hstages].
  apply Forall_cons in Hstages as [[Hviews3 Hroot3] Hstages].
  apply Forall_cons in Hstages as [[Hviews4 Hroot4] Hstages].
  apply Forall_cons in Hstages as [[Hviews5 Hroot5] _].
  assert (∀ name, name ≠ "_static" → disk w' !! child root name = disk w6 !! child root name)
    as Hchunks.
  { intros name Hname.
    eapply frame_inr; [apply (build_javascript_chunks_frame app sched)|exact H7|].
    apply managed_file_not_static; [|done..]. by apply root_base_not_static. }
  split; [|split].
  - rewrite Hchunks by done. unfold root, managed_dir_of.
    rewrite (frame_inr _ _ _ _ _ _ (generate_view_servers_output app) H6)
      by (by apply managed_file_not_output).
    rewrite (frame_inr _ _ _ _ _ _ (generate_server_provider_output app) H5)
      by (by apply managed_file_not_output).
    rewrite (frame_inr _ _ _ _ _ _ (generate_global_model_imports_output app) H4).
    2:{ intros [[base Hbase]|[Hfile|Hfile]].
        - by apply managed_file_not_dir in Hbase.
        - by apply child_inj in Hfile as [_ ?].
        - by apply child_inj in Hfile as [_ ?]. }
    rewrite (frame_inr _ _ _ _ _ _ (generate_action_definitions_output app) H3)
      by (by apply managed_file_not_output).
    rewrite (frame_inr _ _ _ _ _ _ (generate_model_definitions_output app) H2)
      by (by apply managed_file_not_output).
    by apply generate_static_files_inr.
  - rewrite Hchunks by done. unfold root, managed_dir_of.
    rewrite (frame_inr _ _ _ _ _ _ (generate_view_servers_output app) H6)
      by (by apply managed_file_not_output).
    fold (managed_dir_of (disk w) (view_root app) "_server"). rewrite <- Hroot4.
    by apply generate_server_provider_inr.
  - rewrite Hchunks by done. unfold root, managed_dir_of.
    rewrite (frame_inr _ _ _ _ _ _ (generate_view_servers_output app) H6)
      by (by apply managed_file_not_output).
    rewrite (frame_inr _ _ _ _ _ _ (generate_server_provider_output app) H5)
      by (by apply managed_file_not_output).
    fold (managed_dir_of (disk w) (view_root app) "_server"). rewrite <- Hroot3.
    by apply generate_global_model_imports_inr.
Qed.

End build_output.

(** ** The scripts a build records *)

Section recorded_scripts.
Import Py Builder Managed.
Context `{Collaborators} (app : App).

Lemma is_file_insert_file (fs : gmap Path Node) (p q : Path) (text : string) :
  is_file fs q = true → is_file (<[p := File text]> fs) q = true.
Proof.
  unfold is_file, node_at. destruct (decide (q = [])); [done|].
  destruct (is_anchor q); [done|]. destruct (decide (p = q)) as [->|Hne].
  - by rewrite lookup_insert_eq.
  - by rewrite lookup_insert_ne.
Qed.

Lemma is_file_written (fs : gmap Path Node) (dir : Path) (name text : string) :
  dir ≠ [] → is_file (<[child dir name := File text]> fs) (child dir name) = true.
Proof.
  intros Hdir. unfold is_file, node_at, child, is_anchor.
  rewrite decide_False by (by destruct dir).
  rewrite bool_decide_eq_false_2 by (destruct dir as [|x [|y dir]]; simpl; congruence).
  by rewrite lookup_insert_eq.
Qed.

(** The names a step has added to the script list of [id]. *)
Local Abbreviation added w w1 id :=
  (drop (length (default [] (bundled_scripts w !! id))) (default [] (bundled_scripts w1 !! id))).

Lemma spawn_builder_records (static_dir : Path) (c : Controller) (w : World) (id : nat) :
  static_dir ≠ [] →
  (∀ p, is_file (disk w) p = true →
        is_file (disk (spawn_builder app static_dir c w).2) p = true) ∧
  ∀ name, name ∈ added w (spawn_builder app static_dir c w).2 id →
          is_file (disk (spawn_builder app static_dir c w).2) (child static_dir name) = true.
Proof.
  intros Hdir.
  destruct (spawn_builder_cases app static_dir c w)
    as [[e ->]|(contents & map_contents & _ & [[e ->]| ->])]; simpl.
  - split; [done|]. intros name. rewrite drop_all. by intros ?%elem_of_nil.
  - split; [intros p; apply is_file_insert_file|].
    intros name. rewrite drop_all. by intros ?%elem_of_nil.
  - split; [intros p Hp; by do 2 apply is_file_insert_file|].
    intros name. destruct (decide (ctrl_id c = id)) as [<-|Hne].
    + rewrite lookup_insert_eq. simpl. rewrite drop_app_length.
      intros ->%list_elem_of_singleton.
      by apply is_file_insert_file, is_file_written.
    + rewrite lookup_insert_ne by done. rewrite drop_all. by intros ?%elem_of_nil.
Qed.

Lemma run_threads_records (static_dir : Path) (sched : list nat) (w : World) (id : nat) :
  static_dir ≠ [] →
  (∀ p, is_file (disk w) p = true →
        is_file (disk (run_threads app static_dir sched w).2) p = true) ∧
  ∀ name, name ∈ added w (run_threads app static_dir sched w).2 id →
          is_file (disk (run_threads app static_dir sched w).2) (child static_dir name) = true.
Proof.
  intros Hdir. revert w. induction sched as [|i sched IH]; intros w.
  { simpl. split; [done|]. intros name. rewrite drop_all. by intros ?%elem_of_nil. }
  rewrite run_threads_cons. destruct (controllers app !! i) as [d|]; [|apply IH].
  set (w1 := (spawn_builder app static_dir (controller d) w).2).
  destruct (IH w1) as [Hfiles Hadded].
  destruct (spawn_builder_records static_dir (controller d) w id Hdir) as [Hfiles1 Hadded1].
  fold w1 in Hfiles1, Hadded1. split; [by auto|]. intros name Hname.
  destruct (spawn_builder_grows app static_dir (controller d) w id) as [[mid Hmid] _].
  destruct (run_threads_grows app static_dir sched w1 id) as [[rest Hrest] _].
  fold w1 in Hmid. rewrite Hrest, Hmid in Hname.
  rewrite <- app_assoc, drop_app_length in Hname.
  apply elem_of_app in Hname as [Hname|Hname].
  - apply Hfiles, Hadded1. by rewrite Hmid, drop_app_length.
  - apply Hadded. by rewrite Hrest, drop_app_length.
Qed.

(** X17. When [build] returns, every script name it has added to a
    controller's [bundled_scripts] is the name of a file in the static
    directory: a thread records its script only after it has written it,
    and no later thread removes it. *)
Theorem recorded_scripts_are_on_disk (sched : list nat) (w w' : World) (id : nat)
    (name : string) :
  build app sched w = (inr tt, w') →
  "_server" ∉ view_root app →
  name ∈ drop (length (default [] (bundled_scripts w !! id)))
              (default [] (bundled_scripts w' !! id)) →
  is_file (disk w') (child (managed_dir_of (disk w) (view_root app) "_static") name) = true.
Proof.
  intros Hrun Hroot Hname.
  apply build_inr in Hrun as [_ (w1 & w2 & w3 & w4 & w5 & w6 & H1 & H2 & H3 & H4 & H5 & H6
                                 & H7)].
  assert (bundled_scripts w6 = bundled_scripts w ∧
          managed_dir_of (disk w6) (view_root app) "_static"
            = managed_dir_of (disk w) (view_root app) "_static") as [Hscripts Hdir].
  { pose proof (proj2 (generate_static_files_frame app) w) as Hs1.
    pose proof (proj2 (generate_model_definitions_frame app) w1) as Hs2.
    pose proof (proj2 (generate_action_definitions_frame app) w2) as Hs3.
    pose proof (proj2 (generate_global_model_imports_frame app) w3) as Hs4.
    pose proof (proj2 (generate_server_provider_frame app) w4) as Hs5.
    pose proof (proj2 (generate_view_servers_frame app) w5) as Hs6.
    rewrite H1 in Hs1. rewrite H2 in Hs2. rewrite H3 in Hs3. rewrite H4 in Hs4.
    rewrite H5 in Hs5. rewrite H6 in Hs6. simpl in *. split; [congruence|].
    unfold managed_dir_of. rewrite (is_file_lookup (disk w) (disk w6)); [done|].
    rewrite (frame_inr _ _ _ _ _ _ (proj1 (generate_view_servers_frame app)) H6) by done.
    rewrite (frame_inr _ _ _ _ _ _ (proj1 (generate_server_provider_frame app)) H5) by done.
    rewrite (frame_inr _ _ _ _ _ _ (proj1 (generate_global_model_imports_frame app)) H4)
      by done.
    rewrite (frame_inr _ _ _ _ _ _ (proj1 (generate_action_definitions_frame app)) H3)
      by done.
    rewrite (frame_inr _ _ _ _ _ _ (proj1 (generate_model_definitions_frame app)) H2)
      by done.
    by rewrite (frame_inr _ _ _ _ _ _ (proj1 (generate_static_files_frame app)) H1). }
  unfold build_javascript_chunks in H7.
  apply bind_inr in H7 as (static_dir & wc & Hclear & Hthreads).
  pose proof (keeps_scripts_clear_static_dir app w6) as Hkept.
  rewrite Hclear in Hkept. simpl in Hkept.
  apply clear_static_dir_inr in Hclear as (wa & [Hstatic _]%get_managed_dir_common_inr & _).
  fold (managed_dir_of (disk w6) (view_root app) "_static") in Hstatic.
  rewrite Hdir in Hstatic. subst static_dir.
  destruct (run_threads_records (managed_dir_of (disk w) (view_root app) "_static")
              sched wc id) as [_ Hadded].
  { unfold managed_dir_of, child. by destruct (if is_file _ _ then _ else _). }
  assert (w' = (run_threads app (managed_dir_of (disk w) (view_root app) "_static")
                  sched wc).2) as -> by (by rewrite Hthreads).
  apply Hadded. by rewrite Hkept, Hscripts.
Qed.

End recorded_scripts.

Section build_output_witnesses.
Import Py Builder Managed Samples.

Ltac not_a_part :=
  let Hin := fresh "Hin" in
  intros Hin;
  repeat (apply elem_of_cons in Hin as [Hin|Hin]; [discriminate Hin|]);
  by apply elem_of_nil in Hin.

(** The build of [two_pages] on [sample_world], home's thread first, runs
    to its end. *)
Lemma two_pages_build_returns :
  build (H := sample_collaborators) two_pages [0; 1] sample_world
    = (inr tt, (build (H := sample_collaborators) two_pages [0; 1] sample_world).2).
Proof.
  vm_cast_no_check
    (eq_refl (inr (A := Exn) tt,
              (build (H := sample_collaborators) two_pages [0; 1] sample_world).2)).
Qed.

Lemma build_writes_controller_files_witness :
  let built := (build (H := sample_collaborators) two_pages [0; 1] sample_world).2 in
  disk built !! ["views"; "app"; "home"; "_server"; "useServer.ts"]
    = Some (File (use_server_ts home
                    (@generate_relative_import sample_collaborators
                       ["views"; "app"; "home"; "_server"] ["views"; "_server"]))) ∧
  ∃ schemas,
    model_schemas (H := sample_collaborators) (define home) = inr schemas ∧
    disk built !! ["views"; "app"; "home"; "_server"; "models.ts"]
      = Some (File (models_ts schemas)).
Proof.
  intros built.
  destruct (build_writes_controller_files (H := sample_collaborators) two_pages [0; 1]
              sample_world built (define home)) as (_ & Hhook & Hmodels).
  - exact two_pages_build_returns.
  - left.
  - not_a_part.
  - repeat apply Forall_cons_2; [..|apply Forall_nil_2]; (split; [reflexivity|not_a_part]).
  - not_a_part.
  - split; [exact Hhook|]. apply Hmodels. discriminate.
Defined.

Lemma build_writes_root_files_witness :
  let built := (build (H := sample_collaborators) two_pages [0; 1] sample_world).2 in
  disk built !! ["views"; "_server"; "api.ts"]
    = Some (File "export const __request = async () => {};") ∧
  disk built !! ["views"; "_server"; "models.ts"]
    = Some (File ("export type { RenderModel as HOMERenderModel } from '../../../_server/api'"
                  +:+ nl +:+
                  "export type { RenderModel as DASHBOARDRenderModel } from '../../../_server/api'")).
Proof.
  intros built.
  destruct (build_writes_root_files (H := sample_collaborators) two_pages [0; 1]
              sample_world built) as (Hapi & _ & Hmodels).
  - exact two_pages_build_returns.
  - not_a_part.
  - not_a_part.
  - repeat apply Forall_cons_2; [..|apply Forall_nil_2]; (split; [reflexivity|not_a_part]).
  - split; [exact Hapi|exact Hmodels].
Defined.

Lemma recorded_scripts_are_on_disk_witness :
  let built := (build (H := sample_collaborators) two_pages [0; 1] sample_world).2 in
  length (default [] (bundled_scripts built !! 1)) = 1 ∧
  ∀ name, name ∈ default [] (bundled_scripts built !! 1) →
          is_file (disk built) ["views"; "_static"; name] = true.
Proof.
  intros built. split.
  - vm_cast_no_check (eq_refl 1).
  - intros name Hname.
    apply (recorded_scripts_are_on_disk (H := sample_collaborators) two_pages [0; 1]
             sample_world built 1 name).
    + exact two_pages_build_returns.
    + not_a_part.
    + exact Hname.
Defined.

End build_output_witnesses.

(** ** The names of scaffolded files *)

Section scaffold_properties.
Import Py Builder Scaffold.

Lemma prefix_other_char (c c' : ascii) (old s : string) :
  c ≠ c' → String.prefix (String c old) (String c' s) = false.
Proof. intros Hne. simpl. by destruct (ascii_dec c c'). Qed.

Lemma prefix_same_char (c : ascii) (old s : string) :
  String.prefix (String c old) (String c s) = String.prefix old s.
Proof. simpl. by destruct (ascii_dec c c). Qed.

Lemma occurrence_is_prefix (old s : string) : String.prefix old (old +:+ s) = true.
Proof.
  induction old as [|c old IH]; [by destruct s|].
  by rewrite append_cons, prefix_same_char.
Qed.

Lemma has_char_cons (c c' : ascii) (s : string) :
  has_char c (String c' s) = false → c ≠ c' ∧ has_char c s = false.
Proof.
  simpl. intros [Hne Hrest]%orb_false_iff. split; [|done].
  by apply Ascii.eqb_neq.
Qed.

Lemma has_char_append (c : ascii) (a b : string) :
  has_char c (a +:+ b) = has_char c a || has_char c b.
Proof.
  induction a as [|c' a IH]; [done|]. rewrite append_cons. simpl.
  by rewrite IH, orb_assoc.
Qed.

(** Text without an opening bracket is copied. *)
Lemma replace_scan_text (old new text s : string) :
  has_char "[" text = false →
  replace_scan (String "[" old) new (text +:+ s) 0
    = text +:+ replace_scan (String "[" old) new s 0.
Proof.
  induction text as [|c text IH]; [done|].
  intros [Hne Hrest]%has_char_cons. rewrite !append_cons.
  change (replace_scan ?o ?n (String c ?r) 0)
    with (if String.prefix o (String c r)
          then n +:+ replace_scan o n r (String.length o - 1)
          else String c (replace_scan o n r 0)).
  rewrite prefix_other_char by done. by rewrite IH.
Qed.

(** The rest of an occurrence is passed over. *)
Lemma replace_scan_skip (old new passed s : string) :
  replace_scan old new (passed +:+ s) (String.length passed) = replace_scan old new s 0.
Proof.
  induction passed as [|c passed IH]; [by destruct s|].
  rewrite append_cons. simpl. apply IH.
Qed.

(** An occurrence is replaced. *)
Lemma replace_scan_found (old new s : string) (c : ascii) :
  replace_scan (String c old) new (String c old +:+ s) 0
    = new +:+ replace_scan (String c old) new s 0.
Proof.
  pose proof (occurrence_is_prefix (String c old) s) as Hprefix.
  rewrite append_cons in *.
  change (replace_scan ?o ?n (String c ?r) 0)
    with (if String.prefix o (String c r)
          then n +:+ replace_scan o n r (String.length o - 1)
          else String c (replace_scan o n r 0)).
  rewrite Hprefix.
  replace (String.length (String c old) - 1) with (String.length old) by (simpl; lia).
  by rewrite replace_scan_skip.
Qed.

(** The placeholder of one key is not the start of the placeholder of
    another. *)
Lemma other_key_no_prefix (key key' s : string) :
  key ≠ key' → has_char "]" key = false → has_char "]" key' = false →
  String.prefix (key +:+ "]") (key' +:+ "]" +:+ s) = false.
Proof.
  revert key'. induction key as [|c key IH]; intros [|c' key'] Hne Hkey Hkey'; [done|..].
  - apply has_char_cons in Hkey' as [Hc' _]. rewrite !append_cons.
    by apply prefix_other_char.
  - apply has_char_cons in Hkey as [Hc _]. rewrite !append_cons.
    by apply prefix_other_char.
  - apply has_char_cons in Hkey as [_ Hkey]. apply has_char_cons in Hkey' as [_ Hkey'].
    rewrite !append_cons. destruct (decide (c = c')) as [->|Hc].
    + rewrite prefix_same_char. apply IH; [congruence|done..].
    + by apply prefix_other_char.
Qed.

(** The placeholder of another key is copied. *)
Lemma replace_scan_other_key (key key' new s : string) :
  key ≠ key' → has_char "]" key = false →
  has_char "[" key' = false → has_char "]" key' = false →
  replace_scan (String "[" (key +:+ "]")) new (String "[" (key' +:+ "]" +:+ s)) 0
    = String "[" (key' +:+ "]" +:+ replace_scan (String "[" (key +:+ "]")) new s 0).
Proof.
  intros Hne Hkey Hopen Hclose.
  change (replace_scan ?o ?n (String ?c ?r) 0)
    with (if String.prefix o (String c r)
          then n +:+ replace_scan o n r (String.length o - 1)
          else String c (replace_scan o n r 0)).
  rewrite prefix_same_char, other_key_no_prefix by done. f_equal.
  rewrite <- !append_assoc. apply replace_scan_text.
  rewrite has_char_append, Hopen. done.
Qed.

Lemma pieces_text_cons (p : Piece) (pieces : list Piece) :
  pieces_text (p :: pieces) = piece_text p +:+ pieces_text pieces.
Proof. reflexivity. Qed.

Lemma placeholder_text (key : string) : "[" +:+ key +:+ "]" = String "[" (key +:+ "]").
Proof. reflexivity. Qed.

(** One round of the loop on a name in pieces. *)
Lemma replace_pieces (key new : string) (pieces : list Piece) :
  has_char "]" key = false → Forall plain pieces →
  replace ("[" +:+ key +:+ "]") new (pieces_text pieces)
    = pieces_text ((λ p, match p with
                         | Hole key' => if decide (key' = key) then Text new else p
                         | Text _ => p
                         end) <$> pieces).
Proof.
  intros Hkey Hplain. unfold replace. rewrite placeholder_text.
  rewrite decide_False by done.
  induction Hplain as [|[text|key'] pieces Hp _ IH]; [done|..];
    rewrite fmap_cons, !pieces_text_cons.
  - rewrite replace_scan_text by done. by rewrite IH.
  - destruct Hp as [Hopen Hclose]. destruct (decide (key' = key)) as [->|Hne].
    + unfold piece_text. rewrite placeholder_text, replace_scan_found. by rewrite IH.
    + unfold piece_text. rewrite placeholder_text, append_cons, append_assoc.
      rewrite replace_scan_other_key by done. by rewrite IH, (append_cons "[" (key' +:+ "]")), append_assoc.
Qed.

(** The whole loop on a name in pieces. *)
Lemma substitute_pieces (variables : list (string * Value)) (pieces : list Piece) :
  Forall (λ kv, has_char "]" kv.1 = false) variables →
  Forall (λ kv, has_char "[" (str kv.2) = false) variables →
  Forall plain pieces →
  substitute (pieces_text pieces) variables = pieces_text (fill variables <$> pieces).
Proof.
  intros Hkeys Hvalues. revert pieces.
  induction Hkeys as [|[key value] variables Hkey _ IH]; intros pieces Hplain.
  { unfold substitute. simpl. f_equal. rewrite <- (list_fmap_id pieces) at 1.
    apply list_fmap_ext. by intros _ [text|key] _. }
  apply Forall_cons in Hvalues as [Hvalue Hvalues].
  unfold substitute. simpl foldl. rewrite replace_pieces by done.
  fold (substitute (pieces_text
    ((λ p, match p with
           | Hole key' => if decide (key' = key) then Text (str value) else p
           | Text _ => p
           end) <$> pieces)) variables).
  rewrite IH; [|done|].
  - f_equal. rewrite <- list_fmap_compose. apply list_fmap_ext.
    intros _ [text|key'] _; [done|]. simpl.
    by destruct (decide (key' = key)).
  - apply Forall_fmap. eapply Forall_impl; [exact Hplain|].
    intros [text|key'] Hp; [done|]. simpl. by destruct (decide (key' = key)).
Qed.

(** X18. When [format_template] returns, its content is what the renderer
    made of the template file's text, and, for a name written as plain text
    with placeholders in square brackets, its path is the name with every
    placeholder of a metadata field replaced by [str] of the field's value
    and every other placeholder left as it is, provided no value has an
    opening bracket in it. *)
Theorem format_template_fills_placeholders `{Templates} (fs : gmap Path Node)
    (name : string) (m : ProjectMetadata) (out : TemplateOutput) (pieces : list Piece) :
  format_template fs name m = inr out →
  name = pieces_text pieces →
  Forall plain pieces →
  Forall (λ kv, has_char "[" (str kv.2) = false) (model_dump m) →
  path out = pieces_text (fill (model_dump m) <$> pieces) ∧
  ∃ text,
    node_at fs (joinpath (get_template_path "project") name) = Some (File text) ∧
    render text (model_dump m) = inr (content out).
Proof.
  intros Hrun -> Hplain Hvalues. unfold format_template, read_text in Hrun.
  destruct (path_exists fs _); [|done]. simpl in Hrun.
  destruct (node_at fs _) as [[|text]|]; [done| |done].
  destruct (render text (model_dump m)) as [e|rendered] eqn:Hrender; [done|].
  injection Hrun as <-. split; [|by exists text].
  change (substitute (pieces_text pieces) (model_dump m)
            = pieces_text (fill (model_dump m) <$> pieces)).
  apply substitute_pieces; [|done..].
  repeat apply Forall_cons_2; [..|apply Forall_nil_2]; reflexivity.
Qed.

Lemma format_template_fills_placeholders_witness :
  ∃ out,
    format_template (H := ScaffoldSamples.sample_templates) ScaffoldSamples.template_disk
      "[project_name]/[use_poetry]-[license].md" ScaffoldSamples.sample_project = inr out ∧
    path out = "shop/True-[license].md".
Proof.
  eexists. split; [reflexivity|].
  refine (proj1 (format_template_fills_placeholders
                   (H := ScaffoldSamples.sample_templates) ScaffoldSamples.template_disk
                   "[project_name]/[use_poetry]-[license].md" ScaffoldSamples.sample_project _
                   [Hole "project_name"; Text "/"; Hole "use_poetry"; Text "-";
                    Hole "license"; Text ".md"] _ _ _ _)).
  - reflexivity.
  - reflexivity.
  - repeat apply Forall_cons_2; [..|apply Forall_nil_2]; by simpl.
  - repeat apply Forall_cons_2; [..|apply Forall_nil_2]; reflexivity.
Defined.

End scaffold_properties.

(** ** What the loops over the registry leave on disk *)

Section last_writer.
Import Py Builder Managed.
Context `{Collaborators}.

(** Asking for a managed code directory changes no file. *)
Lemma get_managed_code_dir_files (path : Path) (w w1 : World) (dir : Path) :
  get_managed_code_dir path w = (inr dir, w1) →
  code_dir_of path dir ∧
  ∀ p t, disk w1 !! p = Some (File t) ↔ disk w !! p = Some (File t).
Proof.
  unfold get_managed_code_dir, get_managed_dir_common. intros Hrun.
  apply bind_inr in Hrun as (fs & w0 & [= <- <-] & Hrun).
  apply bind_inr in Hrun as ([] & w2 & Hmk & [= <- <-]).
  split; [unfold code_dir_of; destruct (is_file (disk w) path); auto|].
  apply mkdir_exist_ok_cases in Hmk as [_ [[_ ->]|[Hnone ->]]]; [done|].
  intros p t. simpl. apply node_at_None in Hnone.
  destruct (decide (child (if is_file (disk w) path then parent path else path) "_server" = p))
    as [<-|Hne].
  - rewrite lookup_insert_eq, Hnone. split; intros [=].
  - by rewrite lookup_insert_ne.
Qed.

Lemma write_text_files (dir : Path) (name text : string) (w w1 : World) :
  write_text (child dir name) text w = (inr tt, w1) →
  disk w1 !! child dir name = Some (File text) ∧
  ∀ p t, p ≠ child dir name → disk w1 !! p = Some (File t) ↔ disk w !! p = Some (File t).
Proof.
  intros [Hwritten Hrest]%write_text_in_dir. split; [done|].
  intros p t Hp. by rewrite Hrest.
Qed.

Section loop.
Variables (body : ControllerDefinition → M unit) (name : string).
Variable Q : ControllerDefinition → Path → string → Prop.
Hypothesis body_writes : ∀ d w w1,
  body d w = (inr tt, w1) →
  ∃ dir text,
    code_dir_of (view_path (controller d)) dir ∧ Q d dir text ∧
    disk w1 !! child dir name = Some (File text) ∧
    ∀ p t, p ≠ child dir name → disk w1 !! p = Some (File t) ↔ disk w !! p = Some (File t).

(** After the loop every controller finds, in its managed code directory,
    the file of the round that wrote there last; every file that is new or
    changed is such a file; and no file has gone. *)
Lemma for_each_last_writer (defs : list ControllerDefinition) (w w' : World) :
  for_each defs body w = (inr tt, w') →
  (∀ d, d ∈ defs →
     ∃ dir d' text,
       code_dir_of (view_path (controller d)) dir ∧ d' ∈ defs ∧ Q d' dir text ∧
       disk w' !! child dir name = Some (File text)) ∧
  (∀ p t, disk w' !! p = Some (File t) →
          disk w !! p = Some (File t) ∨
          ∃ d' dir, d' ∈ defs ∧ p = child dir name ∧ Q d' dir t) ∧
  (∀ p t, disk w !! p = Some (File t) → ∃ t', disk w' !! p = Some (File t')).
Proof.
  revert w. induction defs as [|d defs IH]; intros w Hrun.
  { injection Hrun as <-. split; [by intros d ?%elem_of_nil|]. split; [auto|eauto]. }
  simpl in Hrun. apply bind_inr in Hrun as ([] & w1 & Hbody & Hrest).
  destruct (body_writes d w w1 Hbody) as (dir & text & Hdir & HQ & Hfile & Hkept).
  destruct (IH w1 Hrest) as (Hlater & Hnew & Hstay).
  split; [|split].
  - intros d0 [->|Hin]%elem_of_cons.
    + destruct (Hstay _ _ Hfile) as [t' Hfinal].
      destruct (Hnew _ _ Hfinal) as [Hsame|(d' & dir' & Hd' & Hpath & HQ')].
      * rewrite Hfile in Hsame. injection Hsame as <-.
        exists dir, d, text. split; [done|]. split; [left|done].
      * apply child_inj in Hpath as [<- _].
        exists dir, d', t'. split; [done|]. split; [by right|done].
    + destruct (Hlater d0 Hin) as (dir0 & d' & text' & Hdir0 & Hd' & HQ' & Hfinal).
      exists dir0, d', text'. split; [done|]. split; [by right|done].
  - intros p t Hfinal.
    destruct (Hnew _ _ Hfinal) as [Hmid|(d' & dir' & Hd' & Hpath & HQ')].
    + destruct (decide (p = child dir name)) as [->|Hne].
      * rewrite Hfile in Hmid. injection Hmid as <-. right. exists d, dir.
        split; [left|done].
      * left. by apply Hkept.
    + right. exists d', dir'. split; [by right|done].
  - intros p t Hstart. destruct (decide (p = child dir name)) as [->|Hne].
    + by apply (Hstay _ text).
    + apply (Hstay _ t). by apply Hkept.
Qed.

End loop.

Context (app : App).

Lemma generate_model_definition_writes (d : ControllerDefinition) (w w1 : World) :
  generate_model_definition d w = (inr tt, w1) →
  ∃ dir text,
    code_dir_of (view_path (controller d)) dir ∧
    (∃ schemas, model_schemas d = inr schemas ∧ text = models_ts schemas) ∧
    disk w1 !! child dir "models.ts" = Some (File text) ∧
    ∀ p t, p ≠ child dir "models.ts" →
           disk w1 !! p = Some (File t) ↔ disk w !! p = Some (File t).
Proof.
  intros Hrun. unfold generate_model_definition in Hrun.
  apply bind_inr in Hrun as (schemas & w0 & Hschemas & Hrun).
  unfold lift in Hschemas. injection Hschemas as Hschemas <-.
  apply bind_inr in Hrun as (dir & wa & Hdir & Hwrite).
  apply get_managed_code_dir_files in Hdir as [Hdir Hkept].
  apply write_text_files in Hwrite as [Hwritten Hrest].
  exists dir, (models_ts schemas). split; [done|]. split; [by exists schemas|].
  split; [done|]. intros p t Hp. by rewrite Hrest, Hkept.
Qed.

Lemma generate_action_definition_writes (d : ControllerDefinition) (w w1 : World) :
  generate_action_definition app d w = (inr tt, w1) →
  ∃ dir text,
    code_dir_of (view_path (controller d)) dir ∧
    (∃ root output_schemas required_types,
       code_dir_of (view_root app) root ∧
       code_dir_of (view_path (controller d)) dir ∧
       convert_actions (openapi_from_controller d) = inr (output_schemas, required_types) ∧
       text = actions_ts
                (generate_relative_import (child dir "actions.ts") (child root "api.ts"))
                output_schemas required_types) ∧
    disk w1 !! child dir "actions.ts" = Some (File text) ∧
    ∀ p t, p ≠ child dir "actions.ts" →
           disk w1 !! p = Some (File t) ↔ disk w !! p = Some (File t).
Proof.
  intros Hrun. unfold generate_action_definition in Hrun.
  apply bind_inr in Hrun as (dir & wa & Hdir & Hrun).
  apply get_managed_code_dir_files in Hdir as [Hdir Hkept_a].
  apply bind_inr in Hrun as (root & wb & Hroot & Hrun).
  apply get_managed_code_dir_files in Hroot as [Hroot Hkept_b].
  apply bind_inr in Hrun as ([output_schemas required_types] & w0 & Hconverted & Hwrite).
  unfold lift in Hconverted. injection Hconverted as Hconverted <-.
  apply write_text_files in Hwrite as [Hwritten Hrest].
  exists dir. eexists. split; [done|]. split; [|split; [exact Hwritten|]].
  - by exists root, output_schemas, required_types.
  - intros p t Hp. by rewrite Hrest, Hkept_b, Hkept_a.
Qed.


End last_writer.

(** ** The generated files of a controller *)

Section generated_files.
Import Py Builder Managed.
Context `{Collaborators}.

(** C8. When [generate_action_definitions] returns, every registered
    controller finds [actions.ts] in its managed code directory, and the
    file is the one a registered controller of that directory has written:
    the chunks joined by blank lines, the first being the two import
    statements. The first imports [__request] and the one error base
    [FetchErrorBase] from the path the import resolver gives from this file
    to [api.ts] in the managed code directory of the view root; the second
    imports from [./models] the required types the action converter
    returned with the stubs that follow, all of them, in its order, and
    nothing else. Where the views are files outside the managed directories,
    in pairwise different directories, the file is the controller's own. *)
Theorem actions_import_required_types (app : App) (w w' : World)
    (d : ControllerDefinition) :
  generate_action_definitions app w = (inr tt, w') →
  d ∈ controllers app →
  (∃ dir root d' output_schemas required_types,
     code_dir_of (view_path (controller d)) dir ∧
     code_dir_of (view_root app) root ∧
     d' ∈ controllers app ∧
     code_dir_of (view_path (controller d')) dir ∧
     convert_actions (openapi_from_controller d') = inr (output_schemas, required_types) ∧
     disk w' !! child dir "actions.ts" =
       Some (File (join (nl +:+ nl)
                     (("import { __request, FetchErrorBase } from '"
                       +:+ generate_relative_import (child dir "actions.ts")
                             (child root "api.ts")
                       +:+ "';" +:+ nl
                       +:+ "import type { " +:+ join ", " required_types
                       +:+ " } from './models';") :: output_schemas.*2)))) ∧
  ("_server" ∉ view_root app →
   Forall (λ d, is_file (disk w) (view_path (controller d)) = true ∧
                "_server" ∉ view_path (controller d)) (controllers app) →
   NoDup (view_dir <$> controllers app) →
   ∃ output_schemas required_types,
     convert_actions (openapi_from_controller d) = inr (output_schemas, required_types) ∧
     disk w' !! controller_file d "actions.ts" =
       Some (File (join (nl +:+ nl)
                     (("import { __request, FetchErrorBase } from '"
                       +:+ generate_relative_import (controller_file d "actions.ts")
                             (child (managed_dir_of (disk w) (view_root app) "_server")
                                "api.ts")
                       +:+ "';" +:+ nl
                       +:+ "import type { " +:+ join ", " required_types
                       +:+ " } from './models';") :: output_schemas.*2)))).
Proof.
  intros Hrun Hd. split.
  - destruct (for_each_last_writer (generate_action_definition app) "actions.ts"
                (λ d dir text,
                   ∃ root output_schemas required_types,
                     code_dir_of (view_root app) root ∧
                     code_dir_of (view_path (controller d)) dir ∧
                     convert_actions (openapi_from_controller d)
                       = inr (output_schemas, required_types) ∧
                     text = actions_ts
                              (generate_relative_import (child dir "actions.ts")
                                 (child root "api.ts"))
                              output_schemas required_types)
                (generate_action_definition_writes app) (controllers app) w w' Hrun)
      as (Hwritten & _ & _).
    destruct (Hwritten d Hd)
      as (dir & d' & text & Hdir & Hd' & (root & out & req & Hroot & Hdir' & Hconv & ->)
          & Hfile).
    by exists dir, root, d', out, req.
  - intros Hroot Hviews Hnodup.
    destruct (for_each_controller_files app (generate_action_definition app) "actions.ts"
                (λ w0 d text,
                   ∃ output_schemas required_types,
                     convert_actions (openapi_from_controller d)
                       = inr (output_schemas, required_types) ∧
                     text = actions_ts
                              (generate_relative_import (controller_file d "actions.ts")
                                 (child (managed_dir_of (disk w0) (view_root app) "_server")
                                    "api.ts"))
                              output_schemas required_types)
                ltac:(done) Hroot) with (defs := controllers app) (w := w) (w' := w')
      as [Hwritten _]; [| |done|done|done|].
    { intros wa wb d' text Hsame (out & req & Hconv & ->). exists out, req.
      by rewrite <- Hsame. }
    { intros d' wa wb Hbody Hfile. by apply generate_action_definition_inr. }
    destruct (Hwritten d Hd) as (text & (out & req & Hconv & ->) & Hfile).
    by exists out, req.
Qed.










End generated_files.

Section generated_files_witnesses.
Import Py Builder Managed Samples.

Lemma actions_import_required_types_witness :
  disk (generate_action_definitions (H := sample_collaborators) with_counter sample_world).2
    !! ["views"; "app"; "counter"; "_server"; "actions.ts"] =
  Some (File ("import { __request, FetchErrorBase } from '../../_server/api';" +:+ nl
              +:+ "import type { IncrementResponse, HTTPValidationError } from './models';"
              +:+ nl +:+ nl
              +:+ "export const increment = () => __request({});")).
Proof.
  destruct (actions_import_required_types (H := sample_collaborators) with_counter
              sample_world
              (generate_action_definitions (H := sample_collaborators) with_counter
                 sample_world).2
              (define counter)) as [_ Hown].
  - vm_cast_no_check
      (eq_refl (inr (A := Exn) tt,
                (generate_action_definitions (H := sample_collaborators) with_counter
                   sample_world).2)).
  - left.
  - destruct Hown as (output_schemas & required_types & Hconverted & Hfile).
    + intros Hin. by repeat (apply elem_of_cons in Hin as [Hin|Hin]; [discriminate Hin|]);
        apply elem_of_nil in Hin.
    + repeat apply Forall_cons_2; [..|apply Forall_nil_2];
        (split; [reflexivity|]); intros Hin;
        by repeat (apply elem_of_cons in Hin as [Hin|Hin]; [discriminate Hin|]);
          apply elem_of_nil in Hin.
    + apply NoDup_cons. split; [|apply NoDup_singleton].
      intros Hin%list_elem_of_singleton. discriminate Hin.
    + injection Hconverted as <- <-. exact Hfile.
Defined.





End generated_files_witnesses.
